(** * Watchlog RUM for React: identity, sampling, queueing and transport

    A shallow embedding of [src/index.tsx] (v0.2.6).  The module-level
    variables of the source ([current], [pendingRouteManifest], ...) and the
    part of the browser the pipeline talks to (localStorage, timers, event
    listeners, sendBeacon / fetch) form one [World]; every source function is
    a computation in a state-and-exception monad over it, so that a JavaScript
    [throw] keeps the mutations made before it and [try { } catch { }] is an
    explicit handler.

    Conventions of the embedding:
    - the host is a browser: [window], [document], [navigator] and [location]
      exist, so the [typeof ... !== "undefined"] tests take that branch;
    - platform functions whose result the source only consumes
      ([JSON.stringify] followed by [Blob.size], [JSON.parse] and
      [JSON.stringify] on the session record, [Math.random], [uuid]) are the
      fields of the class [Platform]; serialization of an event succeeds;
    - numbers are integers ([Z]) except the sample rate and the random draws,
      which are rationals; [Date.now()] does not advance inside one call;
    - a stored session string that parses to an object has the shape
      [{id, sampled, last}] the source asserts;
    - the browser's answers (storage, [sendBeacon] or [fetch] raising, the
      clock) are fields of [Host] and every call that leaves the page is
      appended to the log [calls], in order;
    - the resource, long-task, web-vitals and network collectors are modelled
      where they meet the pipeline: their registration in [startRum] and the
      event they hand to [dispatch] ([collectorEmit]). *)

From stdpp Require Import gmap strings list sorting.
From Stdlib Require Import Ascii ZArith QArith Lia.

Open Scope Z_scope.
Open Scope string_scope.

(* ===================== Types ===================== *)

Inductive RumEventType :=
  | page_view | custom | error | web_vital | resource | network | long_task.

(** Outcome of calling a function supplied by the application or the
    platform: it returns a value or raises. *)
Inductive JsResult (A : Type) :=
  | Ret (a : A)
  | Throws.
Arguments Ret {A} a.
Arguments Throws {A}.

(** [Record<string, any>]: keys to opaque values. *)
Abbreviation JsRecord := (gmap string string).

Record PageInfo := {
  url : string;
  title : string;
  referrer : option string;
  path : option string;
  normalizedPath : option string;
}.

Record Viewport := { vw : Z; vh : Z; dpr : Z }.

Record BaseContext := {
  ctx_app : option string;
  ctx_environment : option string;
  ctx_release : option string;
  page : PageInfo;
  viewport : Viewport;
  ctx_user : option JsRecord;
  extra : option JsRecord;
  userAgent : string;
  language : string;
  timezone : option string;
}.

(** The type-specific part of an event; the collectors' payloads, which the
    pipeline never inspects, are kept as a record of opaque values. *)
Inductive EventData :=
  | PageViewData (navType : option string)
  | CustomData (data : option string)
  | ErrorData (name message stack source : option string)
  | CollectorData (fields : JsRecord).

Record RumEvent := {
  ev_type : RumEventType;
  ts : Z;
  ev_sessionId : string;
  ev_deviceId : string;
  ev_seq : Z;
  context : BaseContext;
  ev_name : option string;
  ev_data : EventData;
}.

(** [beforeSend]: raises, returns a falsy value ([None]) or an event. *)
Definition BeforeSend := RumEvent -> JsResult (option RumEvent).
Definition PathNormalizer := string -> JsResult string.
Definition RouteManifest := list string.

Record RumConfig := {
  cfg_endpoint : option string;
  cfg_apiKey : option string;
  cfg_app : option string;
  cfg_environment : option string;
  cfg_release : option string;
  cfg_userId : option string;
  cfg_sampleRate : option Q;
  cfg_batchMax : option Z;
  cfg_flushInterval : option Z;
  cfg_maxQueueBytes : option Z;
  cfg_captureErrors : option bool;
  cfg_captureFetch : option bool;
  cfg_captureXHR : option bool;
  cfg_captureResources : option bool;
  cfg_maxResourceCount : option Z;
  cfg_captureLongTasks : option bool;
  cfg_enableWebVitals : option bool;
  cfg_ignoreSelfResources : option bool;
  cfg_sessionTtlMs : option Z;
  cfg_routeManifest : option RouteManifest;
  cfg_getNormalizedPath : option PathNormalizer;
  cfg_autoTrackInitialView : option bool;
  cfg_beforeSend : option BeforeSend;
}.

Record RumConfigWithDefaults := {
  endpoint : string;
  apiKey : option string;
  app : option string;
  environment : option string;
  release : option string;
  userId : option string;
  sampleRate : Q;
  batchMax : Z;
  flushInterval : Z;
  maxQueueBytes : Z;
  captureErrors : bool;
  captureFetch : bool;
  captureXHR : bool;
  captureResources : bool;
  maxResourceCount : Z;
  captureLongTasks : bool;
  enableWebVitals : bool;
  ignoreSelfResources : bool;
  sessionTtlMs : Z;
  routeManifest : option RouteManifest;
  getNormalizedPath : option PathNormalizer;
  autoTrackInitialView : bool;
  beforeSend : option BeforeSend;
}.

(** The public handle: one module-level object. *)
Inductive RumPublicAPI := publicAPI.

Record SessionInfo := {
  si_sessionId : string;
  si_deviceId : string;
  si_sampled : bool;
}.

(** The persisted session record [{id, sampled, last}]. *)
Record Session := {
  sess_id : string;
  sess_sampled : bool;
  sess_last : Z;
}.

(** What [JSON.parse] makes of a stored string: a session record, or a value
    that is not an object (on [null] the property access raises, on a
    primitive [.last] is undefined and the comparison is against NaN). *)
Inductive Parsed :=
  | PSession (v : Session)
  | PNonObject.

(* ---- the browser side ---- *)

Inductive Handler :=
  | OnUnload | OnVisibilityChange | OnActivity | OnError | OnRejection.

#[global] Instance Handler_eq_dec : EqDecision Handler.
Proof. solve_decision. Defined.

Inductive TimerTask :=
  | FlushTick
  | InitialViewPoll
  | InitialViewFallback (poll : nat)
  | ResourceSweep.

Inductive Unsubscriber :=
  | RemoveListener (evt : string) (h : Handler)
  | DisconnectObserver (entryType : string)
  | ClearInterval (timer : nat).

Record Payload := {
  p_sdk : string;
  p_version : string;
  p_sentAt : Z;
  p_apiKey : option string;
  p_sessionId : string;
  p_deviceId : string;
  p_app : option string;
  p_environment : option string;
  p_release : option string;
  p_events : list RumEvent;
}.

(** Calls into the browser that leave the page, in the order made; [threw]
    records whether the call raised. *)
Inductive HostCall :=
  | CallSetItem (key value : string)
  | CallSendBeacon (target : string) (body : Payload)
  | CallFetch (target : string) (body : Payload) (headers : list (string * string)).

Record LoggedCall := { call : HostCall; threw : bool }.

Record InternalState := {
  config : RumConfigWithDefaults;
  deviceId : string;
  sessionId : string;
  sampled : bool;
  seq : Z;
  queue : list RumEvent;
  queueBytes : Z;
  flushTimer : option nat;
  pageCtxExtra : JsRecord;
  user : option JsRecord;
  unsubscribers : list Unsubscriber;
}.

(** What the page and the browser answer when asked. *)
Record Host := {
  href : string;
  pathname : string;
  doc_title : string;
  doc_referrer : string;
  innerWidth : Z;
  innerHeight : Z;
  devicePixelRatio : Z;
  nav_userAgent : string;
  nav_language : string;
  intl_timeZone : JsResult string;
  visibilityHidden : bool;
  clock : Z;
  getItemThrows : bool;
  setItemThrows : bool;
  hasSendBeacon : bool;
  sendBeaconThrows : bool;
  fetchThrows : bool;
  hasPerformanceObserver : bool;
}.

Record World := {
  current : option InternalState;
  pendingRouteManifest : option RouteManifest;
  pendingPathNormalizer : option PathNormalizer;
  hasSentInitialPV : bool;
  routeManifestReady : bool;
  host : Host;
  localStorage : gmap string string;
  randomCalls : nat;
  uuidCalls : nat;
  timers : list (nat * TimerTask);
  nextTimer : nat;
  listeners : list (string * Handler);
  observers : list string;
  patched : list string;
  calls : list LoggedCall;
}.

(* ---- field updates ---- *)

Definition set_current (c : option InternalState) (w : World) : World :=
  {| current := c; pendingRouteManifest := pendingRouteManifest w;
     pendingPathNormalizer := pendingPathNormalizer w;
     hasSentInitialPV := hasSentInitialPV w;
     routeManifestReady := routeManifestReady w; host := host w;
     localStorage := localStorage w; randomCalls := randomCalls w;
     uuidCalls := uuidCalls w; timers := timers w; nextTimer := nextTimer w;
     listeners := listeners w; observers := observers w;
     patched := patched w; calls := calls w |}.

Definition set_pendingRouteManifest (r : option RouteManifest) (w : World) : World :=
  {| current := current w; pendingRouteManifest := r;
     pendingPathNormalizer := pendingPathNormalizer w;
     hasSentInitialPV := hasSentInitialPV w;
     routeManifestReady := routeManifestReady w; host := host w;
     localStorage := localStorage w; randomCalls := randomCalls w;
     uuidCalls := uuidCalls w; timers := timers w; nextTimer := nextTimer w;
     listeners := listeners w; observers := observers w;
     patched := patched w; calls := calls w |}.

Definition set_pendingPathNormalizer (f : option PathNormalizer) (w : World) : World :=
  {| current := current w; pendingRouteManifest := pendingRouteManifest w;
     pendingPathNormalizer := f;
     hasSentInitialPV := hasSentInitialPV w;
     routeManifestReady := routeManifestReady w; host := host w;
     localStorage := localStorage w; randomCalls := randomCalls w;
     uuidCalls := uuidCalls w; timers := timers w; nextTimer := nextTimer w;
     listeners := listeners w; observers := observers w;
     patched := patched w; calls := calls w |}.

Definition set_hasSentInitialPV (b : bool) (w : World) : World :=
  {| current := current w; pendingRouteManifest := pendingRouteManifest w;
     pendingPathNormalizer := pendingPathNormalizer w;
     hasSentInitialPV := b;
     routeManifestReady := routeManifestReady w; host := host w;
     localStorage := localStorage w; randomCalls := randomCalls w;
     uuidCalls := uuidCalls w; timers := timers w; nextTimer := nextTimer w;
     listeners := listeners w; observers := observers w;
     patched := patched w; calls := calls w |}.

Definition set_routeManifestReady (b : bool) (w : World) : World :=
  {| current := current w; pendingRouteManifest := pendingRouteManifest w;
     pendingPathNormalizer := pendingPathNormalizer w;
     hasSentInitialPV := hasSentInitialPV w;
     routeManifestReady := b; host := host w;
     localStorage := localStorage w; randomCalls := randomCalls w;
     uuidCalls := uuidCalls w; timers := timers w; nextTimer := nextTimer w;
     listeners := listeners w; observers := observers w;
     patched := patched w; calls := calls w |}.

Definition set_host (h : Host) (w : World) : World :=
  {| current := current w; pendingRouteManifest := pendingRouteManifest w;
     pendingPathNormalizer := pendingPathNormalizer w;
     hasSentInitialPV := hasSentInitialPV w;
     routeManifestReady := routeManifestReady w; host := h;
     localStorage := localStorage w; randomCalls := randomCalls w;
     uuidCalls := uuidCalls w; timers := timers w; nextTimer := nextTimer w;
     listeners := listeners w; observers := observers w;
     patched := patched w; calls := calls w |}.

Definition set_localStorage (s : gmap string string) (w : World) : World :=
  {| current := current w; pendingRouteManifest := pendingRouteManifest w;
     pendingPathNormalizer := pendingPathNormalizer w;
     hasSentInitialPV := hasSentInitialPV w;
     routeManifestReady := routeManifestReady w; host := host w;
     localStorage := s; randomCalls := randomCalls w;
     uuidCalls := uuidCalls w; timers := timers w; nextTimer := nextTimer w;
     listeners := listeners w; observers := observers w;
     patched := patched w; calls := calls w |}.

Definition set_randomCalls (n : nat) (w : World) : World :=
  {| current := current w; pendingRouteManifest := pendingRouteManifest w;
     pendingPathNormalizer := pendingPathNormalizer w;
     hasSentInitialPV := hasSentInitialPV w;
     routeManifestReady := routeManifestReady w; host := host w;
     localStorage := localStorage w; randomCalls := n;
     uuidCalls := uuidCalls w; timers := timers w; nextTimer := nextTimer w;
     listeners := listeners w; observers := observers w;
     patched := patched w; calls := calls w |}.

Definition set_uuidCalls (n : nat) (w : World) : World :=
  {| current := current w; pendingRouteManifest := pendingRouteManifest w;
     pendingPathNormalizer := pendingPathNormalizer w;
     hasSentInitialPV := hasSentInitialPV w;
     routeManifestReady := routeManifestReady w; host := host w;
     localStorage := localStorage w; randomCalls := randomCalls w;
     uuidCalls := n; timers := timers w; nextTimer := nextTimer w;
     listeners := listeners w; observers := observers w;
     patched := patched w; calls := calls w |}.

Definition set_timers (t : list (nat * TimerTask)) (n : nat) (w : World) : World :=
  {| current := current w; pendingRouteManifest := pendingRouteManifest w;
     pendingPathNormalizer := pendingPathNormalizer w;
     hasSentInitialPV := hasSentInitialPV w;
     routeManifestReady := routeManifestReady w; host := host w;
     localStorage := localStorage w; randomCalls := randomCalls w;
     uuidCalls := uuidCalls w; timers := t; nextTimer := n;
     listeners := listeners w; observers := observers w;
     patched := patched w; calls := calls w |}.

Definition set_listeners (l : list (string * Handler)) (w : World) : World :=
  {| current := current w; pendingRouteManifest := pendingRouteManifest w;
     pendingPathNormalizer := pendingPathNormalizer w;
     hasSentInitialPV := hasSentInitialPV w;
     routeManifestReady := routeManifestReady w; host := host w;
     localStorage := localStorage w; randomCalls := randomCalls w;
     uuidCalls := uuidCalls w; timers := timers w; nextTimer := nextTimer w;
     listeners := l; observers := observers w;
     patched := patched w; calls := calls w |}.

Definition set_observers (o : list string) (w : World) : World :=
  {| current := current w; pendingRouteManifest := pendingRouteManifest w;
     pendingPathNormalizer := pendingPathNormalizer w;
     hasSentInitialPV := hasSentInitialPV w;
     routeManifestReady := routeManifestReady w; host := host w;
     localStorage := localStorage w; randomCalls := randomCalls w;
     uuidCalls := uuidCalls w; timers := timers w; nextTimer := nextTimer w;
     listeners := listeners w; observers := o;
     patched := patched w; calls := calls w |}.

Definition set_patched (p : list string) (w : World) : World :=
  {| current := current w; pendingRouteManifest := pendingRouteManifest w;
     pendingPathNormalizer := pendingPathNormalizer w;
     hasSentInitialPV := hasSentInitialPV w;
     routeManifestReady := routeManifestReady w; host := host w;
     localStorage := localStorage w; randomCalls := randomCalls w;
     uuidCalls := uuidCalls w; timers := timers w; nextTimer := nextTimer w;
     listeners := listeners w; observers := observers w;
     patched := p; calls := calls w |}.

Definition set_calls (c : list LoggedCall) (w : World) : World :=
  {| current := current w; pendingRouteManifest := pendingRouteManifest w;
     pendingPathNormalizer := pendingPathNormalizer w;
     hasSentInitialPV := hasSentInitialPV w;
     routeManifestReady := routeManifestReady w; host := host w;
     localStorage := localStorage w; randomCalls := randomCalls w;
     uuidCalls := uuidCalls w; timers := timers w; nextTimer := nextTimer w;
     listeners := listeners w; observers := observers w;
     patched := patched w; calls := c |}.

Definition set_config (c : RumConfigWithDefaults) (st : InternalState) : InternalState :=
  {| config := c; deviceId := deviceId st; sessionId := sessionId st;
     sampled := sampled st; seq := seq st; queue := queue st;
     queueBytes := queueBytes st; flushTimer := flushTimer st;
     pageCtxExtra := pageCtxExtra st; user := user st;
     unsubscribers := unsubscribers st |}.

Definition set_seq (n : Z) (st : InternalState) : InternalState :=
  {| config := config st; deviceId := deviceId st; sessionId := sessionId st;
     sampled := sampled st; seq := n; queue := queue st;
     queueBytes := queueBytes st; flushTimer := flushTimer st;
     pageCtxExtra := pageCtxExtra st; user := user st;
     unsubscribers := unsubscribers st |}.

Definition set_queue (q : list RumEvent) (b : Z) (st : InternalState) : InternalState :=
  {| config := config st; deviceId := deviceId st; sessionId := sessionId st;
     sampled := sampled st; seq := seq st; queue := q;
     queueBytes := b; flushTimer := flushTimer st;
     pageCtxExtra := pageCtxExtra st; user := user st;
     unsubscribers := unsubscribers st |}.

Definition set_flushTimer (t : option nat) (st : InternalState) : InternalState :=
  {| config := config st; deviceId := deviceId st; sessionId := sessionId st;
     sampled := sampled st; seq := seq st; queue := queue st;
     queueBytes := queueBytes st; flushTimer := t;
     pageCtxExtra := pageCtxExtra st; user := user st;
     unsubscribers := unsubscribers st |}.

Definition set_pageCtxExtra (x : JsRecord) (st : InternalState) : InternalState :=
  {| config := config st; deviceId := deviceId st; sessionId := sessionId st;
     sampled := sampled st; seq := seq st; queue := queue st;
     queueBytes := queueBytes st; flushTimer := flushTimer st;
     pageCtxExtra := x; user := user st;
     unsubscribers := unsubscribers st |}.

Definition set_user (u : option JsRecord) (st : InternalState) : InternalState :=
  {| config := config st; deviceId := deviceId st; sessionId := sessionId st;
     sampled := sampled st; seq := seq st; queue := queue st;
     queueBytes := queueBytes st; flushTimer := flushTimer st;
     pageCtxExtra := pageCtxExtra st; user := u;
     unsubscribers := unsubscribers st |}.

Definition set_unsubscribers (u : list Unsubscriber) (st : InternalState) : InternalState :=
  {| config := config st; deviceId := deviceId st; sessionId := sessionId st;
     sampled := sampled st; seq := seq st; queue := queue st;
     queueBytes := queueBytes st; flushTimer := flushTimer st;
     pageCtxExtra := pageCtxExtra st; user := user st;
     unsubscribers := u |}.

Definition set_getNormalizedPath (f : option PathNormalizer) (c : RumConfigWithDefaults)
  : RumConfigWithDefaults :=
  {| endpoint := endpoint c; apiKey := apiKey c; app := app c;
     environment := environment c; release := release c; userId := userId c;
     sampleRate := sampleRate c; batchMax := batchMax c;
     flushInterval := flushInterval c; maxQueueBytes := maxQueueBytes c;
     captureErrors := captureErrors c; captureFetch := captureFetch c;
     captureXHR := captureXHR c; captureResources := captureResources c;
     maxResourceCount := maxResourceCount c;
     captureLongTasks := captureLongTasks c;
     enableWebVitals := enableWebVitals c;
     ignoreSelfResources := ignoreSelfResources c;
     sessionTtlMs := sessionTtlMs c; routeManifest := routeManifest c;
     getNormalizedPath := f;
     autoTrackInitialView := autoTrackInitialView c;
     beforeSend := beforeSend c |}.

Definition set_routeManifest (r : option RouteManifest) (c : RumConfigWithDefaults)
  : RumConfigWithDefaults :=
  {| endpoint := endpoint c; apiKey := apiKey c; app := app c;
     environment := environment c; release := release c; userId := userId c;
     sampleRate := sampleRate c; batchMax := batchMax c;
     flushInterval := flushInterval c; maxQueueBytes := maxQueueBytes c;
     captureErrors := captureErrors c; captureFetch := captureFetch c;
     captureXHR := captureXHR c; captureResources := captureResources c;
     maxResourceCount := maxResourceCount c;
     captureLongTasks := captureLongTasks c;
     enableWebVitals := enableWebVitals c;
     ignoreSelfResources := ignoreSelfResources c;
     sessionTtlMs := sessionTtlMs c; routeManifest := r;
     getNormalizedPath := getNormalizedPath c;
     autoTrackInitialView := autoTrackInitialView c;
     beforeSend := beforeSend c |}.

(* ===================== The monad of the embedding ===================== *)

Inductive JsError :=
  | StorageError     (* localStorage raised *)
  | SyntaxError      (* JSON.parse raised *)
  | TypeError        (* property access on null, call of a missing function *)
  | CallbackError.   (* a function supplied by the application raised *)

Inductive Outcome (A : Type) :=
  | Returned (a : A)
  | Thrown (e : JsError).
Arguments Returned {A} a.
Arguments Thrown {A} e.

Definition Js (A : Type) : Type := World -> Outcome A * World.

Definition ret {A} (a : A) : Js A := fun w => (Returned a, w).

Definition throw {A} (e : JsError) : Js A := fun w => (Thrown e, w).

Definition bind {A B} (m : Js A) (k : A -> Js B) : Js B :=
  fun w =>
    match m w with
    | (Returned a, w') => k a w'
    | (Thrown e, w') => (Thrown e, w')
    end.

(** [try { m } catch { h }] *)
Definition try_catch {A} (m : Js A) (h : Js A) : Js A :=
  fun w =>
    match m w with
    | (Returned a, w') => (Returned a, w')
    | (Thrown _, w') => h w'
    end.

Definition get : Js World := fun w => (Returned w, w).
Definition modify (f : World -> World) : Js unit := fun w => (Returned tt, f w).

Declare Scope js_scope.
Delimit Scope js_scope with js.
Notation "x <- m ;; k" := (bind m (fun x => k))
  (at level 100, m at next level, right associativity) : js_scope.
Notation "m ;; k" := (bind m (fun _ => k))
  (at level 100, right associativity) : js_scope.
Open Scope js_scope.

(** Run [m] and keep the world it leaves, whatever the outcome. *)
Definition exec {A} (m : Js A) (w : World) : World := snd (m w).
Definition outcome {A} (m : Js A) (w : World) : Outcome A := fst (m w).

(** Mutation of a field of [current]; nothing happens when it is null
    (the source guards every such write). *)
Definition update_current (f : InternalState -> InternalState) : Js unit :=
  modify (fun w => set_current (f <$> current w) w).

(* ===================== Constants & utils ===================== *)

Definition SDK_NAME := "@watchlog/rum-react".
Definition SDK_VERSION := "0.2.6".
Definition DEFAULT_ENDPOINT := "https://api.watchlog.io/rum".
Definition DEFAULT_SAMPLE_RATE : Q := 1 # 10.
Definition DEFAULT_BATCH_MAX : Z := 50.
Definition DEFAULT_FLUSH_INTERVAL : Z := 5000.
Definition DEFAULT_MAX_QUEUE_BYTES : Z := 250 * 1024.
Definition DEFAULT_SESSION_TTL : Z := 30 * 60 * 1000.

Definition LS_DEVICE_KEY := "wl_device_id".
Definition LS_SESSION_KEY := "wl_session_v1".

(** JavaScript truthiness of a string, and of a possibly missing one. *)
Definition truthy (s : string) : bool := negb (String.eqb s "").
Definition truthy_opt (o : option string) : bool :=
  match o with Some s => truthy s | None => false end.

(** [a ?? b] *)
Definition nullish {A} (a : option A) (b : A) : A := default b a.

(** [x < y] on numbers. *)
Definition Qltb (x y : Q) : bool := negb (Qle_bool y x).

Class Platform := {
  (** [new Blob([JSON.stringify(event)]).size] *)
  blobSize : RumEvent -> Z;
  (** [JSON.parse] on a stored session string; [Throws] is a syntax error. *)
  JSON_parse : string -> JsResult Parsed;
  (** [JSON.stringify] of a session record. *)
  JSON_stringify : Session -> string;
  (** the n-th value [Math.random()] returns *)
  random_at : nat -> Q;
  (** the n-th identifier [uuid()] returns *)
  uuid_at : nat -> string;
  (** the [stack] of [new Error(message)]: a string in the engines that
      record one, [None] (undefined) in the others *)
  errorStack : string -> option string;
}.

Section Pipeline.

Context {platform : Platform}.

(* index.tsx, line 121 *)
Definition uuid : Js string :=
  w <- get;;
  modify (set_uuidCalls (S (uuidCalls w)));;
  ret (uuid_at (uuidCalls w)).

Definition Math_random : Js Q :=
  w <- get;;
  modify (set_randomCalls (S (randomCalls w)));;
  ret (random_at (randomCalls w)).

Definition now : Js Z := w <- get;; ret (clock (host w)).

Definition log_call (c : HostCall) (t : bool) : Js unit :=
  modify (fun w => set_calls (calls w ++ [{| call := c; threw := t |}]) w).

Definition localStorage_getItem (key : string) : Js (option string) :=
  w <- get;;
  if getItemThrows (host w) then throw StorageError
  else ret (localStorage w !! key).

Definition localStorage_setItem (key value : string) : Js unit :=
  w <- get;;
  log_call (CallSetItem key value) (setItemThrows (host w));;
  if setItemThrows (host w) then throw StorageError
  else modify (fun w => set_localStorage (<[key := value]> (localStorage w)) w).

Definition navigator_sendBeacon (target : string) (body : Payload) : Js unit :=
  w <- get;;
  log_call (CallSendBeacon target body) (sendBeaconThrows (host w));;
  if sendBeaconThrows (host w) then throw TypeError else ret tt.

(** [fetch(url, {method: "POST", body, headers, keepalive: true}).catch(() => {})]:
    a rejected promise is swallowed, only a synchronous failure raises. *)
Definition fetch (target : string) (body : Payload) (headers : list (string * string)) : Js unit :=
  w <- get;;
  log_call (CallFetch target body headers) (fetchThrows (host w));;
  if fetchThrows (host w) then throw TypeError else ret tt.

Definition setInterval (task : TimerTask) : Js nat :=
  w <- get;;
  modify (set_timers (timers w ++ [(nextTimer w, task)]) (S (nextTimer w)));;
  ret (nextTimer w).

(** [setTimeout] allocates from the same identifiers; the task removes
    itself when it runs (see [runTimer]). *)
Definition setTimeout (task : TimerTask) : Js nat := setInterval task.

Definition clearInterval (timer : nat) : Js unit :=
  modify (fun w =>
    set_timers (filter (fun e => e.1 <> timer) (timers w)) (nextTimer w) w).

Definition addEventListener (evt : string) (h : Handler) : Js unit :=
  modify (fun w => set_listeners (listeners w ++ [(evt, h)]) w).

Definition removeEventListener (evt : string) (h : Handler) : Js unit :=
  modify (fun w =>
    set_listeners
      (filter (fun e => ~ (e.1 = evt /\ e.2 = h)) (listeners w)) w).

(** [current.x] where [current] must not be null. *)
Definition current_ : Js InternalState :=
  w <- get;;
  match current w with
  | Some st => ret st
  | None => throw TypeError
  end.

(* index.tsx, line 167 *)
Definition applyDefaults (cfg : RumConfig) : Js RumConfigWithDefaults :=
  w <- get;;
  ret {| endpoint := nullish (cfg_endpoint cfg) DEFAULT_ENDPOINT;
         apiKey := cfg_apiKey cfg;
         app := cfg_app cfg;
         environment := cfg_environment cfg;
         release := cfg_release cfg;
         userId := cfg_userId cfg;
         sampleRate := nullish (cfg_sampleRate cfg) DEFAULT_SAMPLE_RATE;
         batchMax := nullish (cfg_batchMax cfg) DEFAULT_BATCH_MAX;
         flushInterval := nullish (cfg_flushInterval cfg) DEFAULT_FLUSH_INTERVAL;
         maxQueueBytes := nullish (cfg_maxQueueBytes cfg) DEFAULT_MAX_QUEUE_BYTES;
         captureErrors := nullish (cfg_captureErrors cfg) true;
         captureFetch := nullish (cfg_captureFetch cfg) false;
         captureXHR := nullish (cfg_captureXHR cfg) false;
         captureResources := nullish (cfg_captureResources cfg) true;
         maxResourceCount := nullish (cfg_maxResourceCount cfg) 50;
         captureLongTasks := nullish (cfg_captureLongTasks cfg) false;
         enableWebVitals := nullish (cfg_enableWebVitals cfg) true;
         ignoreSelfResources := nullish (cfg_ignoreSelfResources cfg) true;
         sessionTtlMs := nullish (cfg_sessionTtlMs cfg) DEFAULT_SESSION_TTL;
         routeManifest :=
           match cfg_routeManifest cfg with
           | Some r => Some r
           | None => pendingRouteManifest w
           end;
         getNormalizedPath :=
           match cfg_getNormalizedPath cfg with
           | Some f => Some f
           | None => pendingPathNormalizer w
           end;
         autoTrackInitialView := nullish (cfg_autoTrackInitialView cfg) true;
         beforeSend := cfg_beforeSend cfg |}.

(* ===================== Session / Device ===================== *)

(* index.tsx, line 205 *)
Definition getOrCreateDeviceId : Js string :=
  try_catch
    (fromLs <- localStorage_getItem LS_DEVICE_KEY;;
     match fromLs with
     | Some s =>
         if truthy s then ret s
         else (i <- uuid;; localStorage_setItem LS_DEVICE_KEY i;; ret i)
     | None => i <- uuid;; localStorage_setItem LS_DEVICE_KEY i;; ret i
     end)
    uuid.

Definition with_last (t : Z) (v : Session) : Session :=
  {| sess_id := sess_id v; sess_sampled := sess_sampled v; sess_last := t |}.

(** The inner [try] of [loadOrCreateSession]: [Some] is its [return updated],
    [None] is falling out of the block. *)
Definition renewSession (raw : string) (nowMs ttlMs : Z) : Js (option Session) :=
  try_catch
    (match JSON_parse raw with
     | Throws => throw SyntaxError
     | Ret PNonObject => ret None
     | Ret (PSession v) =>
         if (nowMs - sess_last v <? ttlMs)%Z then
           let updated := with_last nowMs v in
           (localStorage_setItem LS_SESSION_KEY (JSON_stringify updated);;
            ret (Some updated))
         else ret None
     end)
    (ret None).

(** The rest of the outer [try]: a new id and a new sampling draw. *)
Definition createSession (sampleRate : Q) (nowMs : Z) : Js Session :=
  i <- uuid;;
  r <- Math_random;;
  let v := {| sess_id := i; sess_sampled := Qltb r sampleRate; sess_last := nowMs |} in
  localStorage_setItem LS_SESSION_KEY (JSON_stringify v);;
  ret v.

(* index.tsx, line 215 *)
Definition loadOrCreateSession (sampleRate : Q) (ttlMs : Z) : Js Session :=
  try_catch
    (raw <- localStorage_getItem LS_SESSION_KEY;;
     nowMs <- now;;
     renewed <- (match raw with
                 | Some r => if truthy r then renewSession r nowMs ttlMs else ret None
                 | None => ret None
                 end);;
     match renewed with
     | Some updated => ret updated
     | None => createSession sampleRate nowMs
     end)
    (i <- uuid;;
     r <- Math_random;;
     t <- now;;
     ret {| sess_id := i; sess_sampled := Qltb r sampleRate; sess_last := t |}).

(* index.tsx, line 237 *)
Definition refreshSessionActivity : Js unit :=
  try_catch
    (raw <- localStorage_getItem LS_SESSION_KEY;;
     match raw with
     | None => ret tt
     | Some r =>
         if negb (truthy r) then ret tt
         else
           match JSON_parse r with
           | Throws => throw SyntaxError
           | Ret PNonObject => throw TypeError
           | Ret (PSession v) =>
               t <- now;;
               localStorage_setItem LS_SESSION_KEY (JSON_stringify (with_last t v))
           end
     end)
    (ret tt).

(* ===================== Path Normalization ===================== *)

(* index.tsx, line 565 *)
Definition computeNormalizedPath (pathname : string) : Js string :=
  w <- get;;
  let fallback := if truthy pathname then pathname else "/" in
  match current w with
  | Some st =>
      match getNormalizedPath (config st) with
      | Some f =>
          try_catch
            (match f pathname with
             | Ret p => ret p
             | Throws => throw CallbackError
             end)
            (ret fallback)
      | None => ret fallback
      end
  | None => ret fallback
  end.

(* index.tsx, line 570 *)
Definition setRouteManifest (routes : RouteManifest) : Js unit :=
  w <- get;;
  match current w with
  | Some _ => update_current (fun st => set_config (set_routeManifest (Some routes) (config st)) st)
  | None => modify (set_pendingRouteManifest (Some routes))
  end;;
  modify (set_routeManifestReady true).

(* index.tsx, line 574 *)
Definition setPathNormalizer (fn : PathNormalizer) : Js unit :=
  w <- get;;
  match current w with
  | Some _ => update_current (fun st => set_config (set_getNormalizedPath (Some fn) (config st)) st)
  | None => modify (set_pendingPathNormalizer (Some fn))
  end.

(* ===================== Context ===================== *)

Definition safeLocationHref : Js string := w <- get;; ret (href (host w)).

Definition tryIntlTimeZone : Js (option string) :=
  w <- get;;
  try_catch
    (match intl_timeZone (host w) with
     | Ret z => ret (Some z)
     | Throws => throw TypeError
     end)
    (ret None).

(* index.tsx, line 308 *)
Definition baseContext : Js BaseContext :=
  w <- get;;
  let h := host w in
  u <- safeLocationHref;;
  np <- (if truthy (pathname h)
         then (p <- computeNormalizedPath (pathname h);; ret (Some p))
         else ret None);;
  tz <- tryIntlTimeZone;;
  ret {| ctx_app := st ← current w; app (config st);
         ctx_environment := st ← current w; environment (config st);
         ctx_release := st ← current w; release (config st);
         page := {| url := u;
                    title := doc_title h;
                    referrer := if truthy (doc_referrer h) then Some (doc_referrer h) else None;
                    path := Some (pathname h);
                    normalizedPath := np |};
         viewport := {| vw := innerWidth h; vh := innerHeight h; dpr := devicePixelRatio h |};
         ctx_user := st ← current w; user st;
         extra := pageCtxExtra <$> current w;
         userAgent := nav_userAgent h;
         language := nav_language h;
         timezone := tz |}.

(* ===================== Queue & Transport ===================== *)

(* index.tsx, line 335 *)
Definition nextSeq : Js Z :=
  w <- get;;
  match current w with
  | Some st => update_current (set_seq (seq st + 1));; ret (seq st + 1)
  | None => ret 0
  end.

(* index.tsx, line 336 *)
Definition safeJsonSize (bytes : Z) : Js bool :=
  w <- get;;
  ret (bytes <=? match current w with
                 | Some st => maxQueueBytes (config st)
                 | None => DEFAULT_MAX_QUEUE_BYTES
                 end)%Z.

(** The envelope [flushQueue] builds around the drained queue. *)
Definition makePayload (st : InternalState) (sentAt : Z) : Payload :=
  {| p_sdk := SDK_NAME; p_version := SDK_VERSION; p_sentAt := sentAt;
     p_apiKey := if truthy_opt (apiKey (config st)) then apiKey (config st) else None;
     p_sessionId := sessionId st; p_deviceId := deviceId st;
     p_app := app (config st);
     p_environment := environment (config st);
     p_release := release (config st);
     p_events := queue st |}.

Definition requestHeaders (st : InternalState) : list (string * string) :=
  ("Content-Type", "application/json") ::
  match apiKey (config st) with
  | Some k => if truthy k then [("X-Watchlog-Key", k)] else []
  | None => []
  end.

Definition requestTarget (st : InternalState) : string :=
  if truthy (endpoint (config st)) then endpoint (config st) else DEFAULT_ENDPOINT.

(* index.tsx, line 348 *)
Definition flushQueue (useBeacon : bool) : Js unit :=
  w <- get;;
  match current w with
  | None => ret tt
  | Some st =>
      match queue st with
      | [] => ret tt
      | _ :: _ =>
          sentAt <- now;;
          let payload := makePayload st sentAt in
          update_current (set_queue [] 0);;
          let headers := requestHeaders st in
          let target := requestTarget st in
          sent <- (if useBeacon && hasSendBeacon (host w)
                   then try_catch (navigator_sendBeacon target payload;; ret true)
                                  (ret false)
                   else ret false);;
          if sent : bool then ret tt
          else try_catch (fetch target payload headers) (ret tt)
      end
  end.

(* index.tsx, line 338 *)
Definition enqueue (event : RumEvent) : Js unit :=
  w <- get;;
  match current w with
  | None => ret tt
  | Some st =>
      if negb (sampled st) then ret tt
      else
        let bytes := blobSize event in
        fits <- safeJsonSize (queueBytes st + bytes);;
        room <- (if negb fits
                 then (flushQueue false;;
                       st1 <- current_;;
                       safeJsonSize (queueBytes st1 + bytes))
                 else ret true);;
        if negb room then ret tt
        else
          (update_current
             (fun s => set_queue (queue s ++ [event]) (queueBytes s + bytes) s);;
           st2 <- current_;;
           if (Z.of_nat (length (queue st2)) >=? batchMax (config st2))%Z
           then flushQueue false
           else ret tt)
  end.

(* index.tsx, line 377 *)
Definition scheduleFlush : Js unit :=
  w <- get;;
  match current w with
  | None => ret tt
  | Some st =>
      match flushTimer st with
      | Some (S t) => clearInterval (S t)
      | _ => ret tt
      end;;
      t <- setInterval FlushTick;;
      update_current (set_flushTimer (Some t))
  end.

(* index.tsx, line 423 *)
Definition dispatch (ev : RumEvent) : Js unit :=
  w <- get;;
  match current w with
  | None => ret tt
  | Some st =>
      transformed <- match beforeSend (config st) with
                     | Some hook =>
                         match hook ev with
                         | Ret r => ret r
                         | Throws => throw CallbackError
                         end
                     | None => ret (Some ev)
                     end;;
      match transformed with
      | None => ret tt
      | Some e => enqueue e
      end
  end.

(* ===================== Lifecycle ===================== *)

Definition push_unsubscriber (u : Unsubscriber) : Js unit :=
  update_current (fun st => set_unsubscribers (unsubscribers st ++ [u]) st).

Definition activityEvents : list string :=
  ["click"; "keydown"; "scroll"; "pointerdown"; "touchstart"; "mousemove"; "focus"].

Fixpoint forEach {A} (l : list A) (f : A -> Js unit) : Js unit :=
  match l with
  | [] => ret tt
  | x :: l' => f x;; forEach l' f
  end.

(* index.tsx, line 383 *)
Definition setupLifecycle : Js unit :=
  addEventListener "beforeunload" OnUnload;;
  addEventListener "visibilitychange" OnVisibilityChange;;
  forEach activityEvents
    (fun evt => addEventListener evt OnActivity;;
                push_unsubscriber (RemoveListener evt OnActivity));;
  push_unsubscriber (RemoveListener "beforeunload" OnUnload).

(* ===================== Public API ===================== *)

(** The argument of [trackError]: an [Error] object or a string, which is
    wrapped by [new Error(error)]; the engine sets the stack of the new
    object ([errorStack]). *)
Inductive ErrorArg :=
  | ErrorObject (name message : string) (stack : option string)
  | ErrorString (message : string).

(* index.tsx, line 398 *)
Definition trackPageView (extra_ : option JsRecord) (navType : option string) : Js unit :=
  w <- get;;
  match current w with
  | None => ret tt
  | Some st =>
      if negb (sampled st) then ret tt
      else
        ctx0 <- baseContext;;
        let ctx :=
          match extra_ with
          | Some x =>
              {| ctx_app := ctx_app ctx0; ctx_environment := ctx_environment ctx0;
                 ctx_release := ctx_release ctx0; page := page ctx0;
                 viewport := viewport ctx0; ctx_user := ctx_user ctx0;
                 extra := Some (x ∪ default ∅ (extra ctx0));
                 userAgent := userAgent ctx0; language := language ctx0;
                 timezone := timezone ctx0 |}
          | None => ctx0
          end in
        t <- now;;
        s <- current_;;
        n <- nextSeq;;
        dispatch {| ev_type := page_view; ts := t; ev_sessionId := sessionId s;
                    ev_deviceId := deviceId s; ev_seq := n; context := ctx;
                    ev_name := None; ev_data := PageViewData navType |};;
        modify (set_hasSentInitialPV true)
  end.

(* index.tsx, line 405 *)
Definition trackEvent (name : string) (data : option string) : Js unit :=
  w <- get;;
  match current w with
  | None => ret tt
  | Some st =>
      if negb (sampled st) then ret tt
      else
        t <- now;;
        s <- current_;;
        n <- nextSeq;;
        ctx <- baseContext;;
        dispatch {| ev_type := custom; ts := t; ev_sessionId := sessionId s;
                    ev_deviceId := deviceId s; ev_seq := n; context := ctx;
                    ev_name := Some name; ev_data := CustomData data |}
  end.

(* index.tsx, line 410 *)
Definition identify (userId_ : string) (traits : option JsRecord) : Js unit :=
  w <- get;;
  match current w with
  | None => ret tt
  | Some _ =>
      update_current (set_user (Some (default ∅ traits ∪ {[ "id" := userId_ ]})))
  end.

(* index.tsx, line 411 *)
Definition setContext (extra_ : option JsRecord) : Js unit :=
  w <- get;;
  match current w with
  | None => ret tt
  | Some _ =>
      update_current (fun st => set_pageCtxExtra (default ∅ extra_ ∪ pageCtxExtra st) st)
  end.

(* index.tsx, line 412 *)
Definition trackError (err : ErrorArg) (source : option string) : Js unit :=
  w <- get;;
  match current w with
  | None => ret tt
  | Some st =>
      if negb (sampled st) then ret tt
      else
        let '(ename, emessage, estack) :=
          match err with
          | ErrorObject n m s => (n, m, s)
          | ErrorString m => ("Error", m, errorStack m)
          end in
        t <- now;;
        s <- current_;;
        n <- nextSeq;;
        ctx <- baseContext;;
        dispatch {| ev_type := error; ts := t; ev_sessionId := sessionId s;
                    ev_deviceId := deviceId s; ev_seq := n; context := ctx;
                    ev_name := None;
                    ev_data := ErrorData (Some ename) (Some emessage) estack source |}
  end.

(* index.tsx, line 418 *)
Definition flush : Js unit := flushQueue false.

Definition runUnsubscriber (u : Unsubscriber) : Js unit :=
  match u with
  | RemoveListener evt h => removeEventListener evt h
  | DisconnectObserver t =>
      modify (fun w => set_observers (filter (fun o => o <> t) (observers w)) w)
  | ClearInterval t => clearInterval t
  end.

(* index.tsx, line 419 *)
Definition shutdown : Js unit :=
  w <- get;;
  try_catch
    (match current w with
     | Some st =>
         match flushTimer st with
         | Some (S t) => clearInterval (S t)
         | _ => ret tt
         end
     | None => ret tt
     end)
    (ret tt);;
  match current w with
  | Some st => forEach (unsubscribers st) (fun u => try_catch (runUnsubscriber u) (ret tt))
  | None => ret tt
  end;;
  modify (set_current None).

(* index.tsx, line 420 *)
Definition getSessionInfo : Js (option SessionInfo) :=
  w <- get;;
  match current w with
  | None => ret None
  | Some st =>
      ret (Some {| si_sessionId := sessionId st; si_deviceId := deviceId st;
                   si_sampled := sampled st |})
  end.

(* ===================== Collectors ===================== *)

(* index.tsx, line 428 *)
Definition attachErrorHandlers : Js unit :=
  addEventListener "error" OnError;;
  addEventListener "unhandledrejection" OnRejection;;
  push_unsubscriber (RemoveListener "error" OnError);;
  push_unsubscriber (RemoveListener "unhandledrejection" OnRejection).

(* index.tsx, line 438 *)
Definition instrumentFetch : Js unit :=
  modify (fun w => set_patched (patched w ++ ["fetch"]) w).

(* index.tsx, line 447 *)
Definition instrumentXHR : Js unit :=
  modify (fun w => set_patched (patched w ++ ["XMLHttpRequest"]) w).

(* index.tsx, line 472 *)
Definition observeResources (maxCount : Z) : Js unit :=
  w <- get;;
  if negb (hasPerformanceObserver (host w)) then ret tt
  else
    try_catch
      (modify (fun w => set_observers (observers w ++ ["resource"]) w);;
       push_unsubscriber (DisconnectObserver "resource");;
       int <- setInterval ResourceSweep;;
       push_unsubscriber (ClearInterval int))
      (ret tt).

(* index.tsx, line 523 *)
Definition observeLongTasks : Js unit :=
  w <- get;;
  if negb (hasPerformanceObserver (host w)) then ret tt
  else
    try_catch
      (modify (fun w => set_observers (observers w ++ ["longtask"]) w);;
       push_unsubscriber (DisconnectObserver "longtask"))
      (ret tt).

(** [attachWebVitals] is asynchronous: called from [startRum] it only starts
    a dynamic import and touches nothing of the pipeline. *)
(* index.tsx, line 548 *)
Definition attachWebVitals : Js unit := ret tt.

(** What the resource, web-vitals and network collectors do with a measured
    entry: stamp the envelope and hand the event to [dispatch]. *)
Definition collectorEmit (ty : RumEventType) (fields : JsRecord) : Js unit :=
  w <- get;;
  match current w with
  | None => ret tt
  | Some st =>
      if negb (sampled st) then ret tt
      else
        t <- now;;
        s <- current_;;
        n <- nextSeq;;
        ctx <- baseContext;;
        dispatch {| ev_type := ty; ts := t; ev_sessionId := sessionId s;
                    ev_deviceId := deviceId s; ev_seq := n; context := ctx;
                    ev_name := None; ev_data := CollectorData fields |}
  end.

(* ===================== Init ===================== *)

Definition when (b : bool) (m : Js unit) : Js unit := if b then m else ret tt.

(* index.tsx, line 248 *)
Definition startRum (cfg0 : RumConfig) : Js RumPublicAPI :=
  w <- get;;
  match current w with
  | Some _ => ret publicAPI
  | None =>
      cfg <- applyDefaults cfg0;;
      dev <- getOrCreateDeviceId;;
      sess <- loadOrCreateSession (sampleRate cfg) (sessionTtlMs cfg);;
      modify (set_current (Some
        {| config := cfg; deviceId := dev; sessionId := sess_id sess;
           sampled := sess_sampled sess; seq := 0; queue := []; queueBytes := 0;
           flushTimer := None; pageCtxExtra := ∅;
           user := if truthy_opt (userId cfg)
                   then (fun u => {[ "id" := u ]}) <$> userId cfg else None;
           unsubscribers := [] |}));;
      when (sess_sampled sess)
        (setupLifecycle;;
         when (captureErrors cfg) attachErrorHandlers;;
         when (captureFetch cfg) instrumentFetch;;
         when (captureXHR cfg) instrumentXHR;;
         when (captureResources cfg) (observeResources (maxResourceCount cfg));;
         when (captureLongTasks cfg) observeLongTasks;;
         when (enableWebVitals cfg) attachWebVitals);;
      scheduleFlush;;
      st <- current_;;
      when (sampled st && autoTrackInitialView (config st))
        (w1 <- get;;
         if routeManifestReady w1 || bool_decide (is_Some (getNormalizedPath (config st)))
         then trackPageView None None
         else (int <- setInterval InitialViewPoll;;
               _ <- setTimeout (InitialViewFallback int);;
               ret tt));;
      ret publicAPI
  end.

(* ===================== The browser calling back ===================== *)

Inductive EventDetail :=
  | NoDetail
  | ErrorDetail (err : ErrorArg) (filename : option string).

Definition runHandler (h : Handler) (d : EventDetail) : Js unit :=
  match h with
  | OnUnload => refreshSessionActivity;; flushQueue true
  | OnVisibilityChange =>
      w <- get;;
      if visibilityHidden (host w) then flushQueue true else ret tt
  | OnActivity => refreshSessionActivity
  | OnError =>
      match d with
      | ErrorDetail e f => trackError e f
      | NoDetail => trackError (ErrorString "") None
      end
  | OnRejection =>
      match d with
      | ErrorDetail e _ => trackError e (Some "unhandledrejection")
      | NoDetail => trackError (ErrorString "undefined") (Some "unhandledrejection")
      end
  end.

(** The browser delivers an event to the listeners registered for it, in
    registration order; a listener that raises does not stop the others. *)
Definition dispatchEvent (evt : string) (d : EventDetail) : Js unit :=
  w <- get;;
  forEach (filter (fun e => e.1 = evt) (listeners w))
    (fun e => try_catch (runHandler e.2 d) (ret tt)).

(** The two teardown signals of the page. *)
Definition unloadSignal : Js unit := dispatchEvent "beforeunload" NoDetail.

Definition setHidden (b : bool) (h : Host) : Host :=
  {| href := href h; pathname := pathname h; doc_title := doc_title h;
     doc_referrer := doc_referrer h; innerWidth := innerWidth h;
     innerHeight := innerHeight h; devicePixelRatio := devicePixelRatio h;
     nav_userAgent := nav_userAgent h; nav_language := nav_language h;
     intl_timeZone := intl_timeZone h; visibilityHidden := b;
     clock := clock h; getItemThrows := getItemThrows h;
     setItemThrows := setItemThrows h; hasSendBeacon := hasSendBeacon h;
     sendBeaconThrows := sendBeaconThrows h; fetchThrows := fetchThrows h;
     hasPerformanceObserver := hasPerformanceObserver h |}.

Definition pageHideSignal : Js unit :=
  modify (fun w => set_host (setHidden true (host w)) w);;
  dispatchEvent "visibilitychange" NoDetail.

(** A timer fires. *)
Definition runTimer (timer : nat) : Js unit :=
  w <- get;;
  match snd <$> list_find (fun e => e.1 = timer) (timers w) with
  | None => ret tt
  | Some (_, FlushTick) => flushQueue false
  | Some (_, InitialViewPoll) =>
      if routeManifestReady w && negb (hasSentInitialPV w)
      then (clearInterval timer;; trackPageView None None)
      else ret tt
  | Some (_, InitialViewFallback poll) =>
      clearInterval timer;;
      if negb (hasSentInitialPV w)
      then (clearInterval poll;; trackPageView None None)
      else ret tt
  | Some (_, ResourceSweep) => ret tt
  end.

(* ===================== A session lifetime ===================== *)

(** What can happen to a running pipeline between [startRum] and
    [shutdown]: the application calls the public API or a late-binding
    setter, a collector reports, the browser delivers an event or fires a
    timer, or the page and the browser themselves change (time passes, the
    network goes away). *)
Inductive Action :=
  | DoTrackPageView (extra_ : option JsRecord) (navType : option string)
  | DoTrackEvent (name : string) (data : option string)
  | DoTrackError (err : ErrorArg) (source : option string)
  | DoCollectorEmit (ty : RumEventType) (fields : JsRecord)
  | DoIdentify (userId_ : string) (traits : option JsRecord)
  | DoSetContext (extra_ : option JsRecord)
  | DoFlush
  | DoStartRum (cfg : RumConfig)
  | DoSetRouteManifest (routes : RouteManifest)
  | DoSetPathNormalizer (fn : PathNormalizer)
  | BrowserEvent (evt : string) (d : EventDetail)
  | PageHide
  | TimerFires (timer : nat)
  | HostChanges (h : Host).

Definition perform (a : Action) : Js unit :=
  match a with
  | DoTrackPageView x n => trackPageView x n
  | DoTrackEvent n d => trackEvent n d
  | DoTrackError e s => trackError e s
  | DoCollectorEmit ty f => collectorEmit ty f
  | DoIdentify u t => identify u t
  | DoSetContext x => setContext x
  | DoFlush => flush
  | DoStartRum cfg => (_ <- startRum cfg;; ret tt)
  | DoSetRouteManifest r => setRouteManifest r
  | DoSetPathNormalizer f => setPathNormalizer f
  | BrowserEvent evt d => dispatchEvent evt d
  | PageHide => pageHideSignal
  | TimerFires t => runTimer t
  | HostChanges h => modify (set_host h)
  end.

End Pipeline.

(* ===================== A concrete platform and page ===================== *)

(** A small codec standing for [JSON.stringify] / [JSON.parse] on session
    records: the sampled flag, the id up to a bar, the timestamp in unary. *)
Fixpoint splitBar (s : string) : option (string * string) :=
  match s with
  | EmptyString => None
  | String c rest =>
      if Ascii.eqb c "|"%char then Some (EmptyString, rest)
      else match splitBar rest with
           | Some (a, b) => Some (String c a, b)
           | None => None
           end
  end.

Fixpoint unary (n : nat) : string :=
  match n with
  | O => EmptyString
  | S k => String "x"%char (unary k)
  end.

Definition demoStringify (v : Session) : string :=
  String (if sess_sampled v then "T"%char else "F"%char)
         (sess_id v ++ "|" ++ unary (Z.to_nat (sess_last v))).

Definition demoParse (raw : string) : JsResult Parsed :=
  match raw with
  | EmptyString => Throws
  | String c rest =>
      if Ascii.eqb c "n"%char then Ret PNonObject
      else match splitBar rest with
           | Some (i, u) =>
               Ret (PSession {| sess_id := i;
                                sess_sampled := Ascii.eqb c "T"%char;
                                sess_last := Z.of_nat (String.length u) |})
           | None => Throws
           end
  end.

(** Sizes grow with the event name; [Math.random] yields 1/2, 1/3, 1/4, ... *)
Definition demoPlatform : Platform :=
  {| blobSize := fun e =>
       match ev_name e with
       | Some n => 100 * Z.of_nat (String.length n)
       | None => 120
       end;
     JSON_parse := demoParse;
     JSON_stringify := demoStringify;
     random_at := fun n => 1 # Z.to_pos (Z.of_nat n + 2);
     uuid_at := fun n => "uuid-" ++ unary n;
     errorStack := fun m => Some ("Error: " ++ m) |}.

Definition demoHost : Host :=
  {| href := "https://shop.example/cart?x=1"; pathname := "/cart";
     doc_title := "Cart"; doc_referrer := "";
     innerWidth := 1280; innerHeight := 720; devicePixelRatio := 2;
     nav_userAgent := "UA"; nav_language := "en-US";
     intl_timeZone := Ret "Europe/Paris";
     visibilityHidden := false; clock := 50;
     getItemThrows := false; setItemThrows := false;
     hasSendBeacon := true; sendBeaconThrows := false; fetchThrows := false;
     hasPerformanceObserver := true |}.

(** The page just loaded: nothing started, storage empty. *)
Definition freshWorld : World :=
  {| current := None; pendingRouteManifest := None;
     pendingPathNormalizer := None; hasSentInitialPV := false;
     routeManifestReady := false; host := demoHost; localStorage := ∅;
     randomCalls := 0; uuidCalls := 0; timers := []; nextTimer := 1;
     listeners := []; observers := []; patched := []; calls := [] |}.

(** [{ sampleRate, batchMax, maxQueueBytes, beforeSend }], the rest defaulted. *)
Definition configWith (rate : Q) (batch : option Z) (cap : option Z)
    (hook : option BeforeSend) : RumConfig :=
  {| cfg_endpoint := None; cfg_apiKey := None; cfg_app := None;
     cfg_environment := None; cfg_release := None; cfg_userId := None;
     cfg_sampleRate := Some rate; cfg_batchMax := batch; cfg_flushInterval := None;
     cfg_maxQueueBytes := cap; cfg_captureErrors := None;
     cfg_captureFetch := None; cfg_captureXHR := None;
     cfg_captureResources := None; cfg_maxResourceCount := None;
     cfg_captureLongTasks := None; cfg_enableWebVitals := None;
     cfg_ignoreSelfResources := None; cfg_sessionTtlMs := None;
     cfg_routeManifest := None; cfg_getNormalizedPath := None;
     cfg_autoTrackInitialView := None; cfg_beforeSend := hook |}.

(** Hooks an application may configure. *)
Definition throwingHook : BeforeSend := fun _ => Throws.

Definition dropDebugHook : BeforeSend :=
  fun ev =>
    match ev_type ev, ev_name ev with
    | custom, Some n => if String.prefix "debug_" n then Ret None else Ret (Some ev)
    | _, _ => Ret (Some ev)
    end.

Definition withHost (h : Host) (w : World) : World := set_host h w.

(** The demo page on a browser whose [sendBeacon] raises. *)
Definition beaconFailingHost : Host :=
  {| href := href demoHost; pathname := pathname demoHost;
     doc_title := doc_title demoHost; doc_referrer := doc_referrer demoHost;
     innerWidth := innerWidth demoHost; innerHeight := innerHeight demoHost;
     devicePixelRatio := devicePixelRatio demoHost;
     nav_userAgent := nav_userAgent demoHost; nav_language := nav_language demoHost;
     intl_timeZone := intl_timeZone demoHost; visibilityHidden := false;
     clock := clock demoHost; getItemThrows := false; setItemThrows := false;
     hasSendBeacon := true; sendBeaconThrows := true; fetchThrows := false;
     hasPerformanceObserver := true |}.

(** The same page ten milliseconds later. *)
Definition laterHost : Host :=
  {| href := href demoHost; pathname := pathname demoHost;
     doc_title := doc_title demoHost; doc_referrer := doc_referrer demoHost;
     innerWidth := innerWidth demoHost; innerHeight := innerHeight demoHost;
     devicePixelRatio := devicePixelRatio demoHost;
     nav_userAgent := nav_userAgent demoHost; nav_language := nav_language demoHost;
     intl_timeZone := intl_timeZone demoHost; visibilityHidden := false;
     clock := clock demoHost + 10; getItemThrows := false; setItemThrows := false;
     hasSendBeacon := true; sendBeaconThrows := false; fetchThrows := false;
     hasPerformanceObserver := true |}.

(** Started with every session sampled, then one custom event tracked. *)
Definition oneEventQueued (h : Host) : World :=
  exec (trackEvent (platform := demoPlatform) "a" None)
    (exec (startRum (platform := demoPlatform) (configWith 1 None None None))
       (withHost h freshWorld)).

(** Started with a [beforeSend] hook that raises on every event. *)
Definition startedWithThrowingHook : World :=
  exec (startRum (platform := demoPlatform) (configWith 1 None None (Some throwingHook)))
    freshWorld.

(* ===================== Vocabulary of the statements ===================== *)

(** Run [f] on each element in turn; an exception ends that call only, as
    the caller (the application or the browser's event loop) goes on. *)
Fixpoint execAll {A} (f : A -> Js unit) (l : list A) (w : World) : World :=
  match l with
  | [] => w
  | x :: l' => execAll f l' (exec (f x) w)
  end.

(** Total-correctness triple: from [P], [m] ends in [Q] when it returns and
    in [E] when it raises. *)
Definition triple {A} (P : World -> Prop) (m : Js A)
    (Q : A -> World -> Prop) (E : World -> Prop) : Prop :=
  forall w, P w ->
    match m w with
    | (Returned a, w') => Q a w'
    | (Thrown _, w') => E w'
    end.

Definition preserves {A} (I : World -> Prop) (m : Js A) : Prop :=
  triple I m (fun _ => I) I.

(** [m] always returns: no exception leaves it. *)
Definition returns {A} (m : Js A) : Prop :=
  forall w, exists a w', m w = (Returned a, w').

(** The pipeline is initialized: [current] is not null. *)
Definition started (w : World) : Prop := is_Some (current w).

(** The events a logged call handed to a channel: none when the call raised. *)
Definition delivered (c : LoggedCall) : list RumEvent :=
  if threw c then []
  else match call c with
       | CallSendBeacon _ p => p_events p
       | CallFetch _ p _ => p_events p
       | CallSetItem _ _ => []
       end.

(** Every event transported so far, in transport order. *)
Definition transported (w : World) : list RumEvent :=
  concat (map delivered (calls w)).

Definition isTransport (c : LoggedCall) : bool :=
  match call c with
  | CallSetItem _ _ => false
  | CallSendBeacon _ _ => true
  | CallFetch _ _ _ => true
  end.

(** The [sendBeacon] and [fetch] calls made so far. *)
Definition transports (w : World) : list LoggedCall :=
  List.filter isTransport (calls w).

(** [w] differs from [w0] at most in what the session and device functions
    touch: localStorage, the draws of [Math.random] and [uuid], and
    [setItem] entries of the call log. *)
Definition storageOnly (w0 w : World) : Prop :=
  current w = current w0 /\
  pendingRouteManifest w = pendingRouteManifest w0 /\
  pendingPathNormalizer w = pendingPathNormalizer w0 /\
  hasSentInitialPV w = hasSentInitialPV w0 /\
  routeManifestReady w = routeManifestReady w0 /\
  host w = host w0 /\
  timers w = timers w0 /\ nextTimer w = nextTimer w0 /\
  listeners w = listeners w0 /\ observers w = observers w0 /\
  patched w = patched w0 /\
  transports w = transports w0.

(** The bytes the queued events serialize to, summed. *)
Definition bufferedBytes {platform : Platform} (q : list RumEvent) : Z :=
  foldr (fun e acc => blobSize e + acc) 0 q.

(** The calls made since the log had [n] entries. *)
Definition callsSince (n : nat) (w : World) : list LoggedCall := drop n (calls w).







Definition isFetch (c : LoggedCall) : bool :=
  match call c with CallFetch _ _ _ => true | _ => false end.

Definition isSendBeacon (c : LoggedCall) : bool :=
  match call c with CallSendBeacon _ _ => true | _ => false end.

(** Three custom events, the second one dropped by the hook, then a flush. *)
Definition debugRun : World :=
  execAll (perform (platform := demoPlatform))
    [DoTrackEvent "a" None; DoTrackEvent "debug_x" None; DoTrackEvent "b" None; DoFlush]
    (exec (startRum (platform := demoPlatform)
             (configWith 1 None None (Some dropDebugHook)))
       freshWorld).

(* ===================== Further pages for the examples ===================== *)

(** The demo page on a browser whose localStorage raises on every access
    (storage disabled, private mode). *)
Definition storageFailingHost : Host :=
  {| href := href demoHost; pathname := pathname demoHost;
     doc_title := doc_title demoHost; doc_referrer := doc_referrer demoHost;
     innerWidth := innerWidth demoHost; innerHeight := innerHeight demoHost;
     devicePixelRatio := devicePixelRatio demoHost;
     nav_userAgent := nav_userAgent demoHost; nav_language := nav_language demoHost;
     intl_timeZone := intl_timeZone demoHost; visibilityHidden := false;
     clock := clock demoHost; getItemThrows := true; setItemThrows := true;
     hasSendBeacon := true; sendBeaconThrows := false; fetchThrows := false;
     hasPerformanceObserver := true |}.

(** A session record written long ago: its age at the demo clock is 50 ms. *)
Definition staleSession : Session :=
  {| sess_id := "old"; sess_sampled := true; sess_last := 0 |}.

(** The fresh page with [staleSession] in storage. *)
Definition returningWorld : World :=
  set_localStorage (<[LS_SESSION_KEY := demoStringify staleSession]> ∅) freshWorld.

(** The demo page with the network gone: [sendBeacon] and [fetch] raise. *)
Definition offlineHost : Host :=
  {| href := href demoHost; pathname := pathname demoHost;
     doc_title := doc_title demoHost; doc_referrer := doc_referrer demoHost;
     innerWidth := innerWidth demoHost; innerHeight := innerHeight demoHost;
     devicePixelRatio := devicePixelRatio demoHost;
     nav_userAgent := nav_userAgent demoHost; nav_language := nav_language demoHost;
     intl_timeZone := intl_timeZone demoHost; visibilityHidden := false;
     clock := clock demoHost; getItemThrows := false; setItemThrows := false;
     hasSendBeacon := true; sendBeaconThrows := true; fetchThrows := true;
     hasPerformanceObserver := true |}.

(** Started with every session sampled and the defaults, nothing tracked. *)
Definition startedWorld : World :=
  exec (startRum (platform := demoPlatform) (configWith 1 None None None)) freshWorld.

(* ===================== Vocabulary of the lifetime properties ===================== *)

(** The request body of a logged transport call. *)
Definition payloadOf (c : LoggedCall) : option Payload :=
  match call c with
  | CallSendBeacon _ p => Some p
  | CallFetch _ p _ => Some p
  | CallSetItem _ _ => None
  end.

(** A hook that leaves the session and device ids of the events it lets
    through. *)
Definition idsKept (hook : BeforeSend) : Prop :=
  forall e e', hook e = Ret (Some e') ->
    ev_sessionId e' = ev_sessionId e /\ ev_deviceId e' = ev_deviceId e.

(** [e] is stamped with the ids of the instance [st0]. *)
Definition ownEvent (st0 : InternalState) (e : RumEvent) : Prop :=
  ev_sessionId e = sessionId st0 /\ ev_deviceId e = deviceId st0.

(** The most events a request can carry: [batchMax], and one when
    [batchMax] is below one. *)
Definition batchLimit (st0 : InternalState) : Z := Z.max 1 (batchMax (config st0)).

(** What [startRum] fixes for the lifetime of an instance. *)
Definition sameInstance (st0 st : InternalState) : Prop :=
  sessionId st = sessionId st0 /\ deviceId st = deviceId st0 /\
  sampled st = sampled st0 /\
  batchMax (config st) = batchMax (config st0) /\
  maxQueueBytes (config st) = maxQueueBytes (config st0) /\
  beforeSend (config st) = beforeSend (config st0).

(** A logged call is a storage write, or a request of the sampled instance
    [st0]: a non-empty batch within the limit, under the instance's ids. *)
Definition ownBatch (tagged : bool) (st0 : InternalState) (c : LoggedCall) : Prop :=
  match payloadOf c with
  | None => True
  | Some p =>
      sampled st0 = true /\ p_events p <> [] /\
      Z.of_nat (length (p_events p)) <= batchLimit st0 /\
      p_sessionId p = sessionId st0 /\ p_deviceId p = deviceId st0 /\
      (tagged = true -> Forall (ownEvent st0) (p_events p))
  end.

(** Between two actions of the instance [st0], started when the call log had
    [n] entries.  [slack] is 1 between the append and the batch check of
    [enqueue], 0 elsewhere; [tagged] adds what holds when the hook keeps the
    ids. *)
Definition bufferInvariant {platform : Platform} (tagged : bool) (slack : Z)
    (n : nat) (st0 : InternalState) (w : World) : Prop :=
  exists st, current w = Some st /\
    sameInstance st0 st /\
    queueBytes st = bufferedBytes (queue st) /\
    (0 <= maxQueueBytes (config st0) -> queueBytes st <= maxQueueBytes (config st0)) /\
    Z.of_nat (length (queue st)) < batchLimit st0 + slack /\
    (sampled st0 = false -> queue st = [] /\ seq st = 0) /\
    (tagged = true ->
     (forall hook, beforeSend (config st0) = Some hook -> idsKept hook) /\
     Forall (ownEvent st0) (queue st)) /\
    Forall (ownBatch tagged st0) (callsSince n w).

(** Only storage writes were logged since the log had [n] entries, and
    nothing is started. *)
Definition storageCallsSince (n : nat) (w : World) : Prop :=
  current w = None /\ Forall (fun c => payloadOf c = None) (callsSince n w).

(** An instance started from the configuration [cfg] when the call log had
    [n] entries is running. *)
Definition runningFrom {platform : Platform} (tagged : bool) (n : nat)
    (cfg : RumConfig) (w : World) : Prop :=
  exists st0,
    bufferInvariant tagged 0 n st0 w /\
    batchMax (config st0) = nullish (cfg_batchMax cfg) DEFAULT_BATCH_MAX /\
    maxQueueBytes (config st0) = nullish (cfg_maxQueueBytes cfg) DEFAULT_MAX_QUEUE_BYTES.

(** The transport calls among the calls logged since the log had [n]
    entries. *)
Definition transportsSince (n : nat) (w : World) : list LoggedCall :=
  List.filter isTransport (callsSince n w).

(** A short session: two events with a batch limit of two, activity, the
    page being hidden. *)
Definition shortSession : list Action :=
  [DoTrackEvent "a" None; BrowserEvent "click" NoDetail; DoTrackEvent "b" None;
   DoTrackEvent "c" None; PageHide].

(* ===================== Vocabulary of the restart properties ===================== *)

(** The running instance normalizes paths with [f] (with nothing when [f]
    is [None]). *)
Definition normalizerIs (f : option PathNormalizer) (w : World) : Prop :=
  exists st, current w = Some st /\ getNormalizedPath (config st) = f.

Definition isVisibilityListener (e : string * Handler) : bool :=
  String.eqb e.1 "visibilitychange" &&
  match e.2 with OnVisibilityChange => true | _ => false end.

(** How many [visibilitychange] listeners of the SDK the window holds. *)
Definition visibilityListeners (w : World) : nat :=
  length (List.filter isVisibilityListener (listeners w)).

Definition removesVisibility (u : Unsubscriber) : bool :=
  match u with
  | RemoveListener evt h => isVisibilityListener (evt, h)
  | _ => false
  end.

(** A hook that returns for every event. *)
Definition neverRaises (hook : BeforeSend) : Prop := forall e, hook e <> Throws.

(** Actions in which neither the application nor a collector nor an error
    of the page asks for an event. *)
Definition isPassive (a : Action) : bool :=
  match a with
  | DoTrackPageView _ _ | DoTrackEvent _ _ | DoTrackError _ _
  | DoCollectorEmit _ _ | BrowserEvent _ _ | PageHide => false
  | _ => true
  end.

(** The hook of the running instance never raises and its sequence counter
    is at [n]. *)
Definition viewState (n : Z) (w : World) : Prop :=
  exists st, current w = Some st /\
    (forall hook, beforeSend (config st) = Some hook -> neverRaises hook) /\
    seq st = n.

(** The sequence counter tells whether the initial page view was sent: 1
    with the flag, 0 without. *)
Definition autoView (w : World) : Prop :=
  viewState (if hasSentInitialPV w then 1 else 0) w.

(** An instance with sampling decision [s] runs, no unsubscriber of it
    removes a [visibilitychange] listener, and the window holds [k] of
    them. *)
Definition visibilityInvariant (s : bool) (k : nat) (w : World) : Prop :=
  exists st, current w = Some st /\ sampled st = s /\
    existsb removesVisibility (unsubscribers st) = false /\
    visibilityListeners w = k.

(** The state a first [startRum] leaves on a window that held [k0]
    [visibilitychange] listeners. *)
Definition visibilityAfterStart (k0 : nat) (w : World) : Prop :=
  exists s, visibilityInvariant s (k0 + if s then 1 else 0)%nat w.

(** A normalizer that answers the route template of the product page. *)
Definition templateNormalizer : PathNormalizer := fun _ => Ret "/products/:id".

(** The running instance has the device id [dev] and the session [s], and
    storage and host are those of [w2]. *)
Definition instanceOf (dev : string) (s : Session) (w2 w : World) : Prop :=
  exists st, current w = Some st /\
    deviceId st = dev /\ sessionId st = sess_id s /\ sampled st = sess_sampled s /\
    localStorage w = localStorage w2 /\ host w = host w2.

(** How often [instrumentFetch] or [instrumentXHR] wrapped the function
    [name] of the window. *)
Definition timesPatched (name : string) (w : World) : nat :=
  length (List.filter (String.eqb name) (patched w)).

(** An instance with sampling decision [s] runs and [fetch] is wrapped [k]
    times. *)
Definition patchInvariant (s : bool) (k : nat) (w : World) : Prop :=
  exists st, current w = Some st /\ sampled st = s /\ timesPatched "fetch" w = k.

(** The state a first [startRum] with fetch capture [capture] leaves on a
    window whose [fetch] was wrapped [k0] times. *)
Definition patchedAfterStart (capture : bool) (k0 : nat) (w : World) : Prop :=
  exists s, patchInvariant s (k0 + if s && capture then 1 else 0)%nat w.

(* ===================== uuid, the implementation ===================== *)

(** What [globalThis.crypto] offers: [randomUUID], by the value it returns,
    and [getRandomValues], by the bytes it writes. *)
Record Crypto := {
  randomUUID : option string;
  getRandomValues : option (nat -> Z);
}.

Definition uuidTemplate : string := "xxxxxxxx-xxxx-4xxx-yxxx-xxxxxxxxxxxx".

Definition hexDigits : list ascii := String.list_ascii_of_string "0123456789abcdef".

(** [v.toString(16)] for [0 <= v < 16]. *)
Definition toString16 (v : Z) : ascii := nth (Z.to_nat v) hexDigits "0"%char.

(** [new Uint8Array(16)], filled by [getRandomValues] when there is one. *)
Definition randomBytes (crypto : option Crypto) : list Z :=
  match crypto ≫= getRandomValues with
  | Some fill => map (fun i => fill i mod 256) (List.seq 0 16)
  | None => repeat 0 16
  end.

(** [Math.floor] on a rational. *)
Definition Math_floor (q : Q) : Z := Qnum q / Z.pos (Qden q).

Definition isPlaceholder (c : ascii) : bool :=
  Ascii.eqb c "x" || Ascii.eqb c "y".

Section Uuid.

Context {platform : Platform}.

(** The callback of [replace(/[xy]/g, ...)] on one placeholder. *)
Definition replacement (rnd : list Z) (c : ascii) : Js ascii :=
  q <- Math_random;;
  let r := (nth (Z.to_nat (Math_floor (q * 16))) rnd 0) mod 16 in
  let v := if Ascii.eqb c "x" then r else Z.lor (Z.land r 3) 8 in
  ret (toString16 v).

Fixpoint replaceAll (rnd : list Z) (tpl : list ascii) : Js (list ascii) :=
  match tpl with
  | [] => ret []
  | c :: tpl' =>
      d <- (if isPlaceholder c then replacement rnd c else ret c);;
      rest <- replaceAll rnd tpl';;
      ret (d :: rest)
  end.

(* index.tsx, line 121 *)
Definition uuid_impl (crypto : option Crypto) : Js string :=
  match crypto ≫= randomUUID with
  | Some u => ret u
  | None =>
      l <- replaceAll (randomBytes crypto) (String.list_ascii_of_string uuidTemplate);;
      ret (String.string_of_list_ascii l)
  end.

End Uuid.

(** The shape of a version-4 identifier: a hexadecimal digit for each [x],
    one of 8, 9, a, b for the [y], the template's own character elsewhere. *)
Definition hexChar (c : ascii) : bool := existsb (Ascii.eqb c) hexDigits.

Definition variantChar (c : ascii) : bool :=
  existsb (Ascii.eqb c) (String.list_ascii_of_string "89ab").

Fixpoint matchesTemplate (tpl s : list ascii) : bool :=
  match tpl, s with
  | [], [] => true
  | t :: tpl', c :: s' =>
      (if Ascii.eqb t "x" then hexChar c
       else if Ascii.eqb t "y" then variantChar c
       else Ascii.eqb c t)
      && matchesTemplate tpl' s'
  | _, _ => false
  end.

Definition isUuidV4 (s : string) : bool :=
  matchesTemplate (String.list_ascii_of_string uuidTemplate) (String.list_ascii_of_string s).

(** A browser with [crypto.getRandomValues] but no [randomUUID]. *)
Definition oldCrypto : Crypto :=
  {| randomUUID := None; getRandomValues := Some (fun i => 7 * Z.of_nat i + 300) |}.

(* ===================== The collectors, in detail ===================== *)

(** The first argument of [fetch]: a URL string or a [Request]. *)
Inductive FetchInput :=
  | InputUrl (url : string)
  | InputRequest (url method : string).

(** The [args] of [maybeNetworkEvent]: those of the [fetch] call (possibly
    none at all), or the method and URL an [XMLHttpRequest] was opened with
    (undefined when it was not opened). *)
Inductive NetworkArgs :=
  | FetchArgs (input : option FetchInput) (init_method : option string)
  | XhrArgs (method url : option string).

Record NetworkResponse := {
  res_status : Z;
  res_ok : bool;
}.

(** The [data] of a network event. *)
Record NetworkData := {
  net_kind : string;
  net_url : string;
  net_method : string;
  net_status : option Z;
  net_ok : option bool;
  net_duration : Z;
}.

Record PerformanceResourceTiming := {
  r_name : string;
  r_initiatorType : string;
  r_duration : Q;
  r_transferSize : Z;
}.

(** [try { m } catch (err) { h err }] *)
Definition try_catch_with {A} (m : Js A) (h : JsError -> Js A) : Js A :=
  fun w =>
    match m w with
    | (Returned a, w') => (Returned a, w')
    | (Thrown e, w') => h e w'
    end.

(** [a || b] on a string that may be undefined. *)
Definition or_string (a : option string) (b : string) : string :=
  if truthy_opt a then default b a else b.

Definition startsWith (s affix : string) : bool := String.prefix affix s.

Definition endsWith (s affix : string) : bool :=
  String.prefix (String.rev affix) (String.rev s).

(** [filtered.sort((a, b) => (b.duration || 0) - (a.duration || 0))]: the
    built-in sort is stable; longest first. *)
Fixpoint insertByDuration (r : PerformanceResourceTiming)
    (l : list PerformanceResourceTiming) : list PerformanceResourceTiming :=
  match l with
  | [] => [r]
  | x :: l' =>
      if Qltb (r_duration r) (r_duration x) then x :: insertByDuration r l'
      else r :: l
  end.

Definition sortByDuration (l : list PerformanceResourceTiming)
    : list PerformanceResourceTiming :=
  foldr insertByDuration [] l.

(** [l.slice(0, e)]: a negative end counts from the end of the list. *)
Definition slice0 {A} (l : list A) (e : Z) : list A :=
  if (0 <=? e)%Z then take (Z.to_nat e) l
  else take (length l - Z.to_nat (- e)) l.

(* index.tsx, line 618: the normalizer [WatchlogRoutes] installs.
   [matchRoutes] answers null or the matches, each with the path of its
   route when it has one. *)
Definition routeTemplate
    (matchRoutes : string -> JsResult (option (list (option string))))
    (pathname : string) : string :=
  let literal := if truthy pathname then pathname else "/" in
  match matchRoutes pathname with
  | Throws => literal
  | Ret None => literal
  | Ret (Some matches) =>
      match last matches with
      | Some (Some tpl) =>
          if truthy tpl && negb (String.eqb tpl "*") && negb (String.eqb tpl "/*")
          then (if startsWith tpl "/" then tpl else "/" ++ tpl)
          else literal
      | _ => literal
      end
  end.

Section Collectors.

Context {platform : Platform}.

(** [originAndPath], the URL parser of the browser behind it; upper-casing;
    and the [data] objects of the events as the opaque records the pipeline
    carries. *)
Variable originAndPath : string -> string.
Variable toUpperCase : string -> string.
Variable networkFields : NetworkData -> JsRecord.
Variable resourceFields : PerformanceResourceTiming -> JsRecord.

(* index.tsx, line 457 *)
Definition maybeNetworkEvent (args : NetworkArgs) (res : option NetworkResponse)
    (started : Z) : Js unit :=
  w <- get;;
  match current w with
  | None => ret tt
  | Some st =>
      if negb (sampled st) then ret tt
      else if negb (captureFetch (config st)) && negb (captureXHR (config st)) then ret tt
      else
        try_catch
          (parsed <- match args with
                     | FetchArgs None _ => throw TypeError
                     | FetchArgs (Some (InputUrl u)) m =>
                         ret ("fetch", u, toUpperCase (or_string m "GET"))
                     | FetchArgs (Some (InputRequest u rm)) m =>
                         ret ("fetch", u,
                              toUpperCase (or_string m (or_string (Some rm) "GET")))
                     | XhrArgs m u =>
                         ret ("xhr", or_string u "", toUpperCase (or_string m "GET"))
                     end;;
           let '(kind, url_, method) := parsed in
           t1 <- now;;
           let duration := Z.max 0 (t1 - started) in
           t2 <- now;;
           s <- current_;;
           n <- nextSeq;;
           ctx <- baseContext;;
           dispatch {| ev_type := network; ts := t2; ev_sessionId := sessionId s;
                       ev_deviceId := deviceId s; ev_seq := n; context := ctx;
                       ev_name := None;
                       ev_data := CollectorData (networkFields
                         {| net_kind := kind; net_url := originAndPath url_;
                            net_method := method;
                            net_status := res_status <$> res;
                            net_ok := res_ok <$> res;
                            net_duration := duration |}) |})
          (ret tt)
  end.

(* index.tsx, line 440: the function [instrumentFetch] installs as
   [window.fetch], around the browser's own [origFetch]. *)
Definition instrumentedFetch (origFetch : Js NetworkResponse)
    (input : option FetchInput) (init_method : option string) : Js NetworkResponse :=
  w <- get;;
  match current w with
  | None => origFetch
  | Some st =>
      if negb (sampled st) then origFetch
      else
        started <- now;;
        try_catch_with
          (res <- origFetch;;
           maybeNetworkEvent (FetchArgs input init_method) (Some res) started;;
           ret res)
          (fun err =>
             maybeNetworkEvent (FetchArgs input init_method) None started;;
             throw err)
  end.

(** The filter of the resource sweep: beacons and requests to the endpoint
    itself are dropped. *)
Definition isNoise (st : InternalState) (r : PerformanceResourceTiming) : bool :=
  let epBase := originAndPath (requestTarget st) in
  let nameBase := originAndPath (r_name r) in
  let isBeacon := String.eqb (r_initiatorType r) "beacon" in
  let isSelf := startsWith nameBase epBase || endsWith nameBase "/rum" in
  isBeacon || isSelf.

(* index.tsx, lines 483-499: what a sweep reports of the entries observed
   since the last one. *)
Definition selectResources (st : InternalState) (maxCount : Z)
    (copy : list PerformanceResourceTiming) : list PerformanceResourceTiming :=
  let filtered := if ignoreSelfResources (config st)
                  then List.filter (fun r => negb (isNoise st r)) copy
                  else copy in
  slice0 (sortByDuration filtered) maxCount.

(* index.tsx, line 483: the interval callback of [observeResources]. *)
Definition resourceSweep (maxCount : Z) (entries : list PerformanceResourceTiming)
    : Js unit :=
  w <- get;;
  match current w with
  | None => ret tt
  | Some st =>
      if negb (sampled st) then ret tt
      else
        forEach (selectResources st maxCount entries)
          (fun r =>
             t <- now;;
             s <- current_;;
             n <- nextSeq;;
             ctx <- baseContext;;
             dispatch {| ev_type := resource; ts := t; ev_sessionId := sessionId s;
                         ev_deviceId := deviceId s; ev_seq := n; context := ctx;
                         ev_name := None;
                         ev_data := CollectorData (resourceFields
                           {| r_name := originAndPath (r_name r);
                              r_initiatorType := r_initiatorType r;
                              r_duration := r_duration r;
                              r_transferSize := r_transferSize r |}) |})
  end.

End Collectors.

(** The choices made for the examples. *)
Definition demoOriginAndPath (u : string) : string := u.
Definition demoFields {A} (_ : A) : JsRecord := ∅.

Definition upperAscii (c : ascii) : ascii :=
  let n := nat_of_ascii c in
  if ((97 <=? n) && (n <=? 122))%nat then ascii_of_nat (n - 32) else c.

Fixpoint demoToUpperCase (s : string) : string :=
  match s with
  | EmptyString => EmptyString
  | String c s' => String (upperAscii c) (demoToUpperCase s')
  end.


Definition demoEntries : list PerformanceResourceTiming :=
  [ {| r_name := "https://cdn.example/a.js"; r_initiatorType := "script";
       r_duration := 12; r_transferSize := 100 |};
    {| r_name := "https://api.watchlog.io/rum"; r_initiatorType := "fetch";
       r_duration := 90; r_transferSize := 10 |};
    {| r_name := "https://cdn.example/b.png"; r_initiatorType := "img";
       r_duration := 40; r_transferSize := 300 |};
    {| r_name := "https://cdn.example/c.css"; r_initiatorType := "link";
       r_duration := 25; r_transferSize := 50 |} ].

(** A router that knows the product page. *)
Definition demoMatchRoutes (pathname : string)
    : JsResult (option (list (option string))) :=
  if String.prefix "/products/" pathname
  then Ret (Some [None; Some "products/:id"])
  else Ret (Some [Some "*"]).

(** Fetch capture on, no automatic page view, and a hook that raises on
    every event. *)
Definition capturingConfig : RumConfig :=
  {| cfg_endpoint := None; cfg_apiKey := None; cfg_app := None;
     cfg_environment := None; cfg_release := None; cfg_userId := None;
     cfg_sampleRate := Some 1%Q; cfg_batchMax := None; cfg_flushInterval := None;
     cfg_maxQueueBytes := None; cfg_captureErrors := None;
     cfg_captureFetch := Some true; cfg_captureXHR := None;
     cfg_captureResources := None; cfg_maxResourceCount := None;
     cfg_captureLongTasks := None; cfg_enableWebVitals := None;
     cfg_ignoreSelfResources := None; cfg_sessionTtlMs := None;
     cfg_routeManifest := None; cfg_getNormalizedPath := None;
     cfg_autoTrackInitialView := Some false;
     cfg_beforeSend := Some throwingHook |}.

Definition capturingWithThrowingHook : World :=
  exec (startRum (platform := demoPlatform) capturingConfig) freshWorld.

(** The running demo instance after [WatchlogRoutes] installed its
    normalizer. *)
Definition routedWorld : World :=
  exec (setPathNormalizer (fun p => Ret (routeTemplate demoMatchRoutes p))) startedWorld.

(* ===================== The event of a custom call ===================== *)

(** The event object [trackEvent(name, data)] builds when called at [w]
    (index.tsx, line 407): the time, the ids of the instance, the number
    [nextSeq] hands out and the context [baseContext] returns once the
    counter is advanced.  [None] when nothing is started. *)
Definition customEventAt (w : World) (name : string) (data : option string) :
    option RumEvent :=
  match current w with
  | Some st =>
      match outcome baseContext (set_current (Some (set_seq (seq st + 1) st)) w) with
      | Returned c =>
          Some {| ev_type := custom; ts := clock (host w);
                  ev_sessionId := sessionId st; ev_deviceId := deviceId st;
                  ev_seq := seq st + 1; context := c;
                  ev_name := Some name; ev_data := CustomData data |}
      | Thrown _ => None
      end
  | None => None
  end.

(* ===================== Vocabulary of the teardown signals ===================== *)

(** The listeners the window holds for the event [evt], in registration
    order: those [dispatchEvent] runs. *)
Definition listenersFor (evt : string) (w : World) : list (string * Handler) :=
  filter (fun e => e.1 = evt) (listeners w).

(** The call [refreshSessionActivity] logs at [w] (index.tsx, line 237): the
    write of the stored session with [last] set to now; nothing when the
    record cannot be read, is missing or empty, or does not parse. *)
Definition refreshWrites {platform : Platform} (w : World) : list LoggedCall :=
  if getItemThrows (host w) then []
  else
    match localStorage w !! LS_SESSION_KEY with
    | None => []
    | Some raw =>
        if negb (truthy raw) then []
        else
          match JSON_parse raw with
          | Ret (PSession v) =>
              [{| call := CallSetItem LS_SESSION_KEY
                            (JSON_stringify (with_last (clock (host w)) v));
                  threw := setItemThrows (host w) |}]
          | _ => []
          end
    end.

(** The calls [flushQueue(true)] logs for the instance [st] on the host [h]
    (index.tsx, line 348): nothing for an empty queue; else [sendBeacon]
    with the batch, followed by [fetch] when [sendBeacon] raises, and
    [fetch] alone when the browser has no [sendBeacon]. *)
Definition beaconFlushCalls (st : InternalState) (h : Host) : list LoggedCall :=
  match queue st with
  | [] => []
  | _ :: _ =>
      let body := makePayload st (clock h) in
      let beacon t := {| call := CallSendBeacon (requestTarget st) body; threw := t |} in
      let request :=
        {| call := CallFetch (requestTarget st) body (requestHeaders st);
           threw := fetchThrows h |} in
      if hasSendBeacon h
      then if sendBeaconThrows h then [beacon true; request] else [beacon false]
      else [request]
  end.

(** An instance with sampling decision [s] runs; the window holds the
    [beforeunload] listeners [unload] and [k] [visibilitychange] listeners,
    all of them the page-hide handler of [setupLifecycle]. *)
Definition lifecycleListeners (s : bool) (unload : list (string * Handler)) (k : nat)
    (w : World) : Prop :=
  exists st, current w = Some st /\ sampled st = s /\
    listenersFor "beforeunload" w = unload /\
    listenersFor "visibilitychange" w
      = repeat ("visibilitychange", OnVisibilityChange) k.

(** The page after an instance was started on it and shut down. *)
Definition stoppedWorld : World := exec shutdown startedWorld.

(* ===================== Properties ===================== *)

Section Properties.

Context {platform : Platform}.

#[local] Open Scope list_scope.

(* ---- the monad ---- *)

Lemma triple_ret {A} (P : World -> Prop) (a : A) (Q : A -> World -> Prop) E :
  (forall w, P w -> Q a w) -> triple P (ret a) Q E.
Proof. intros H w Hw. simpl. auto. Qed.

Lemma triple_throw {A} (P : World -> Prop) e (Q : A -> World -> Prop) (E : World -> Prop) :
  (forall w, P w -> E w) -> triple P (throw e) Q E.
Proof. intros H w Hw. simpl. auto. Qed.

Lemma triple_bind {A B} P (m : Js A) (k : A -> Js B) R Q E :
  triple P m R E -> (forall a, triple (R a) (k a) Q E) ->
  triple P (bind m k) Q E.
Proof.
  intros Hm Hk w Hw. unfold bind. specialize (Hm w Hw).
  destruct (m w) as [[a|e] w']; [apply (Hk a w' Hm) | exact Hm].
Qed.

Lemma triple_try_catch {A} P (m h : Js A) Q E E' :
  triple P m Q E' -> triple E' h Q E -> triple P (try_catch m h) Q E.
Proof.
  intros Hm Hh w Hw. unfold try_catch. specialize (Hm w Hw).
  destruct (m w) as [[a|e] w']; [exact Hm | apply (Hh w' Hm)].
Qed.

Lemma triple_get P E : triple P get (fun a w => a = w /\ P w) E.
Proof. intros w Hw. simpl. auto. Qed.

Lemma triple_modify P f (Q : unit -> World -> Prop) E :
  (forall w, P w -> Q tt (f w)) -> triple P (modify f) Q E.
Proof. intros H w Hw. simpl. auto. Qed.

Lemma triple_conseq {A} (P P' : World -> Prop) (m : Js A) (Q Q' : A -> World -> Prop)
    (E E' : World -> Prop) :
  triple P' m Q' E' ->
  (forall w, P w -> P' w) -> (forall a w, Q' a w -> Q a w) ->
  (forall w, E' w -> E w) ->
  triple P m Q E.
Proof.
  intros Hm HP HQ HE w Hw. specialize (Hm w (HP w Hw)).
  destruct (m w) as [[a|e] w']; auto.
Qed.

Lemma preserves_ret {A} I (a : A) : preserves I (ret a).
Proof. apply triple_ret. auto. Qed.

Lemma preserves_throw {A} I e : preserves I (@throw A e).
Proof. apply triple_throw. auto. Qed.

Lemma preserves_bind {A B} I (m : Js A) (k : A -> Js B) :
  preserves I m -> (forall a, preserves I (k a)) -> preserves I (bind m k).
Proof. intros Hm Hk. eapply triple_bind; [exact Hm | exact Hk]. Qed.

Lemma preserves_try_catch {A} I (m h : Js A) :
  preserves I m -> preserves I h -> preserves I (try_catch m h).
Proof. intros Hm Hh. eapply triple_try_catch; [exact Hm | exact Hh]. Qed.

Lemma preserves_get I : preserves I get.
Proof. intros w Hw. exact Hw. Qed.

Lemma preserves_modify I f : (forall w, I w -> I (f w)) -> preserves I (modify f).
Proof. intros H. apply triple_modify. exact H. Qed.

Lemma preserves_forEach {A} I (l : list A) (f : A -> Js unit) :
  (forall x, preserves I (f x)) -> preserves I (forEach l f).
Proof.
  intros Hf. induction l as [|x l IH]; simpl.
  - apply preserves_ret.
  - apply preserves_bind; [apply Hf | intros _; exact IH].
Qed.

Lemma preserves_exec {A} I (m : Js A) w : preserves I m -> I w -> I (exec m w).
Proof.
  intros Hm Hw. unfold exec. specialize (Hm w Hw).
  destruct (m w) as [[a|e] w']; exact Hm.
Qed.

Lemma preserves_execAll {A} I (f : A -> Js unit) (l : list A) :
  (forall x, preserves I (f x)) -> forall w, I w -> I (execAll f l w).
Proof.
  intros Hf. induction l as [|x l IH]; simpl; intros w Hw; [exact Hw|].
  apply IH. apply preserves_exec; auto.
Qed.

Lemma returns_ret {A} (a : A) : returns (ret a).
Proof. intros w. simpl. eauto. Qed.

Lemma returns_get : returns get.
Proof. intros w. simpl. eauto. Qed.

Lemma returns_modify f : returns (modify f).
Proof. intros w. simpl. eauto. Qed.

Lemma returns_bind {A B} (m : Js A) (k : A -> Js B) :
  returns m -> (forall a, returns (k a)) -> returns (bind m k).
Proof.
  intros Hm Hk w. unfold bind. destruct (Hm w) as (a & w' & ->). apply Hk.
Qed.

(** A handler that returns makes the whole [try] return. *)
Lemma returns_try_catch {A} (m h : Js A) : returns h -> returns (try_catch m h).
Proof.
  intros Hh w. unfold try_catch. destruct (m w) as [[a|e] w']; eauto.
Qed.

Lemma returns_forEach {A} (l : list A) (f : A -> Js unit) :
  (forall x, returns (f x)) -> returns (forEach l f).
Proof.
  intros Hf. induction l as [|x l IH]; simpl.
  - apply returns_ret.
  - apply returns_bind; [apply Hf | intros _; exact IH].
Qed.

Lemma triple_of_returns {A} (P : World -> Prop) (m : Js A) (E : World -> Prop) :
  returns m -> triple P m (fun _ _ => True) E.
Proof. intros Hm w _. destruct (Hm w) as (a & w' & ->). exact I. Qed.

Ltac returns_step :=
  lazymatch goal with
  | |- returns (bind _ _) => apply returns_bind; [ | intro ]
  | |- returns (try_catch _ _) => apply returns_try_catch
  | |- returns (ret _) => apply returns_ret
  | |- returns get => apply returns_get
  | |- returns (modify _) => apply returns_modify
  | |- returns (forEach _ _) => apply returns_forEach; intro
  | |- returns (match ?x with _ => _ end) => destruct x
  end.

Create HintDb js discriminated.
Create HintDb js_emit discriminated.

#[local] Hint Unfold
  uuid Math_random now log_call localStorage_getItem localStorage_setItem
  navigator_sendBeacon fetch setInterval setTimeout clearInterval
  addEventListener removeEventListener current_ update_current applyDefaults
  getOrCreateDeviceId renewSession createSession loadOrCreateSession
  refreshSessionActivity
  computeNormalizedPath setRouteManifest setPathNormalizer safeLocationHref
  tryIntlTimeZone baseContext safeJsonSize scheduleFlush push_unsubscriber
  setupLifecycle identify setContext runUnsubscriber attachErrorHandlers
  instrumentFetch instrumentXHR observeResources observeLongTasks
  attachWebVitals when : js.

#[local] Hint Unfold
  nextSeq flushQueue enqueue dispatch trackPageView trackEvent trackError
  collectorEmit flush : js_emit.

(** One structural step of a preservation proof. *)
Ltac pres_step :=
  lazymatch goal with
  | |- preserves _ (bind _ _) => apply preserves_bind; [ | intro ]
  | |- preserves _ (try_catch _ _) => apply preserves_try_catch
  | |- preserves _ (ret _) => apply preserves_ret
  | |- preserves _ (throw _) => apply preserves_throw
  | |- preserves _ get => apply preserves_get
  | |- preserves _ (forEach _ _) => apply preserves_forEach; intro
  | |- preserves _ (modify _) => apply preserves_modify; intros ? ?
  | |- preserves _ (match ?x with _ => _ end) => destruct x
  end.

(* ---- small facts about worlds ---- *)

Lemma set_current_same w : set_current (current w) w = w.
Proof. destruct w; reflexivity. Qed.

Lemma set_current_None w : current w = None -> set_current None w = w.
Proof. intros H. rewrite <- H. apply set_current_same. Qed.

(* ===================== Path normalization ===================== *)

Lemma computeNormalizedPath_pure pathname w :
  exists p, computeNormalizedPath pathname w = (Returned p, w).
Proof.
  unfold computeNormalizedPath, bind, get, try_catch, ret, throw. simpl.
  destruct (current w) as [st|]; simpl; eauto.
  destruct (getNormalizedPath (config st)) as [f|]; simpl; eauto.
  destruct (f pathname); simpl; eauto.
Qed.

(** C9. [computeNormalizedPath] never raises and never touches the world;
    with a normalizer configured that returns normally the result is the
    normalizer's, and when none is configured (or the pipeline is not
    started) or the normalizer raises, the result is the literal pathname,
    ["/"] for the empty one. *)
Theorem computeNormalizedPath_result (pathname : string) (w : World) :
  exists p,
    computeNormalizedPath pathname w = (Returned p, w) /\
    let literal := if decide (pathname = "") then "/" else pathname in
    match st ← current w; getNormalizedPath (config st) with
    | Some normalizer =>
        match normalizer pathname with
        | Ret q => p = q
        | Throws => p = literal
        end
    | None => p = literal
    end.
Proof.
  assert (Hlit : (if truthy pathname then pathname else "/")
                 = (if decide (pathname = "") then "/" else pathname)).
  { unfold truthy. destruct (String.eqb_spec pathname "") as [->|Hne]; simpl.
    - reflexivity.
    - destruct (decide (pathname = "")); [contradiction | reflexivity]. }
  unfold computeNormalizedPath, bind, get, try_catch, ret, throw. simpl.
  destruct (current w) as [st|]; simpl.
  - destruct (getNormalizedPath (config st)) as [f|]; simpl.
    + destruct (f pathname) as [q|]; simpl; eexists; split; eauto.
    + eexists; split; eauto.
  - eexists; split; eauto.
Qed.

(* ===================== Public API without an instance ===================== *)

(** C10. With no current instance (never started, or after shutdown) every
    operation of the public API returns normally and leaves the whole world,
    module variables included, as it was; [getSessionInfo] answers null. *)
Theorem publicAPI_without_instance (w : World) :
  current w = None ->
  (forall extra_ navType, trackPageView extra_ navType w = (Returned tt, w)) /\
  (forall name data, trackEvent name data w = (Returned tt, w)) /\
  (forall userId_ traits, identify userId_ traits w = (Returned tt, w)) /\
  (forall extra_, setContext extra_ w = (Returned tt, w)) /\
  (forall err source, trackError err source w = (Returned tt, w)) /\
  flush w = (Returned tt, w) /\
  shutdown w = (Returned tt, w) /\
  getSessionInfo w = (Returned None, w).
Proof.
  intros Hcur.
  repeat split; intros;
    unfold trackPageView, trackEvent, identify, setContext, trackError, flush,
      flushQueue, shutdown, getSessionInfo, bind, get, try_catch, ret, modify;
    simpl; rewrite ?Hcur; simpl; rewrite ?set_current_None by exact Hcur;
    reflexivity.
Qed.

(* ===================== Idempotent start ===================== *)

Ltac started_leaf :=
  match goal with
  | H : started ?w |- started _ =>
      unfold started in *; simpl; destruct (current w); simpl in *;
      solve [eauto | inversion H; discriminate]
  end.

Lemma started_trackPageView extra_ navType :
  preserves started (trackPageView extra_ navType).
Proof.
  autounfold with js js_emit. repeat pres_step; started_leaf.
Qed.

Lemma returns_getOrCreateDeviceId : returns getOrCreateDeviceId.
Proof. autounfold with js. repeat returns_step. Qed.

Lemma returns_loadOrCreateSession rate ttl : returns (loadOrCreateSession rate ttl).
Proof. autounfold with js. repeat returns_step. Qed.

Lemma returns_applyDefaults cfg : returns (applyDefaults cfg).
Proof. autounfold with js. repeat returns_step. Qed.

Lemma startRum_starts cfg w : started (exec (startRum cfg) w).
Proof.
  assert (H : triple (fun _ => True) (startRum cfg) (fun _ => started) started).
  { unfold startRum.
    eapply triple_bind; [apply triple_get | intros a; simpl].
    destruct (current a) as [st|] eqn:Hcur.
    - apply triple_ret. intros w' [<- _]. unfold started. rewrite Hcur. eauto.
    - eapply triple_bind; [apply triple_of_returns, returns_applyDefaults | intros c].
      eapply triple_bind; [apply triple_of_returns, returns_getOrCreateDeviceId | intros d].
      eapply triple_bind; [apply triple_of_returns, returns_loadOrCreateSession | intros s].
      eapply triple_bind with (R := fun _ => started).
      { apply triple_modify. intros w' _. unfold started. simpl. eauto. }
      intros _.
      match goal with |- triple ?P ?m _ _ => change (preserves P m) end.
      pose proof started_trackPageView as Hpv.
      autounfold with js. repeat pres_step; try started_leaf; try apply Hpv. }
  unfold exec. specialize (H w I). destruct (startRum cfg w) as [[a|e] w']; exact H.
Qed.

(** C8. After a first call of [startRum], whatever its configuration and the
    world it ran in, the pipeline is initialized, and a second call returns
    the public handle and leaves the whole world unchanged: timers, session
    storage, the draws of [Math.random] and [uuid], and [current] itself. *)
Theorem startRum_idempotent (cfg1 cfg2 : RumConfig) (w : World) :
  let w1 := exec (startRum cfg1) w in
  started w1 /\ startRum cfg2 w1 = (Returned publicAPI, w1).
Proof.
  intros w1. pose proof (startRum_starts cfg1 w) as Hs. fold w1 in Hs.
  split; [exact Hs|].
  destruct Hs as [st Hst].
  unfold startRum, bind, get. simpl. rewrite Hst. reflexivity.
Qed.

(* ===================== Flush and transport ===================== *)

Lemma returns_unit (m : Js unit) w : returns m -> m w = (Returned tt, exec m w).
Proof.
  intros Hm. unfold exec. destruct (Hm w) as ([] & w' & ->). reflexivity.
Qed.

Lemma returns_flushQueue b : returns (flushQueue b).
Proof. unfold flushQueue. autounfold with js. repeat returns_step. Qed.

Lemma flushQueue_noop b w :
  (forall st, current w = Some st -> queue st = []) ->
  flushQueue b w = (Returned tt, w).
Proof.
  intros H. unfold flushQueue, bind, get. simpl.
  destruct (current w) as [st|]; [rewrite (H st eq_refl)|]; reflexivity.
Qed.

(** What a flush of a non-empty queue does: the queue and its byte counter
    are reset, then the transport calls are made, by the host's answers. *)
Lemma flushQueue_drains b w st :
  current w = Some st -> queue st <> [] ->
  let body := makePayload st (clock (host w)) in
  let beacon t := {| call := CallSendBeacon (requestTarget st) body; threw := t |} in
  let request :=
    {| call := CallFetch (requestTarget st) body (requestHeaders st);
       threw := fetchThrows (host w) |} in
  flushQueue b w =
    (Returned tt,
     set_calls
       (calls w ++
          (if b && hasSendBeacon (host w)
           then if sendBeaconThrows (host w) then [beacon true; request]
                else [beacon false]
           else [request]))
       (set_current (Some (set_queue [] 0 st)) w)).
Proof.
  intros Hcur Hq body beacon request.
  unfold flushQueue, bind, get. simpl. rewrite Hcur.
  destruct (queue st) as [|e q] eqn:Hqueue; [contradiction|].
  unfold now, update_current, navigator_sendBeacon, fetch, log_call, bind, get,
    modify, try_catch, ret, throw. simpl. rewrite Hcur. simpl.
  subst body beacon request.
  destruct b; simpl;
    destruct (hasSendBeacon (host w)); simpl;
    destruct (sendBeaconThrows (host w)); simpl;
    destruct (fetchThrows (host w)); simpl;
    rewrite <- ?app_assoc; reflexivity.
Qed.

Lemma drop_calls_app (l new : list LoggedCall) : drop (length l) (l ++ new) = new.
Proof. apply drop_app_length. Qed.

(** C2, as amended.  A flush in beacon mode, with [sendBeacon] available and
    a non-empty queue, never raises and drains the queue; it calls
    [sendBeacon] once with the batch, and when that call returns nothing else
    is attempted, but when it raises the exception is swallowed and the same
    batch is handed to the keep-alive [fetch]. *)
Theorem flushQueue_beacon_mode (w : World) (st : InternalState) :
  current w = Some st -> queue st <> [] -> hasSendBeacon (host w) = true ->
  let body := makePayload st (clock (host w)) in
  let beacon t := {| call := CallSendBeacon (requestTarget st) body; threw := t |} in
  let request :=
    {| call := CallFetch (requestTarget st) body (requestHeaders st);
       threw := fetchThrows (host w) |} in
  exists w',
    flushQueue true w = (Returned tt, w') /\
    current w' = Some (set_queue [] 0 st) /\
    p_events body = queue st /\
    callsSince (length (calls w)) w' =
      if sendBeaconThrows (host w) then [beacon true; request] else [beacon false].
Proof.
  intros Hcur Hq Hb body beacon request.
  eexists. split; [apply (flushQueue_drains true w st Hcur Hq)|].
  rewrite Hb. simpl. split; [reflexivity|]. split; [reflexivity|].
  unfold callsSince. simpl. rewrite drop_calls_app. reflexivity.
Qed.

(* ===================== The beforeSend hook ===================== *)

Lemma baseContext_pure w : exists c, baseContext w = (Returned c, w).
Proof.
  unfold baseContext, safeLocationHref, tryIntlTimeZone, bind, get, try_catch,
    ret, throw. simpl.
  destruct (truthy (pathname (host w))); simpl.
  - destruct (computeNormalizedPath_pure (pathname (host w)) w) as (p & ->).
    destruct (intl_timeZone (host w)); simpl; eauto.
  - destruct (intl_timeZone (host w)); simpl; eauto.
Qed.

Lemma nextSeq_started w st :
  current w = Some st ->
  nextSeq w = (Returned (seq st + 1), set_current (Some (set_seq (seq st + 1) st)) w).
Proof.
  intros Hcur. unfold nextSeq, update_current, bind, get, modify, ret. simpl.
  rewrite Hcur. simpl. rewrite Hcur. reflexivity.
Qed.

(** C1, what the code does instead: an exception raised by [beforeSend] is
    not caught in [dispatch]; the event is not enqueued, and the exception
    leaves [dispatch] and then [trackEvent], [trackPageView] and
    [trackError], reaching their caller. *)
Theorem beforeSend_exception_escapes (w : World) (st : InternalState) (hook : BeforeSend) :
  current w = Some st -> sampled st = true ->
  beforeSend (config st) = Some hook -> (forall ev, hook ev = Throws) ->
  (forall ev, dispatch ev w = (Thrown CallbackError, w)) /\
  (forall name data, outcome (trackEvent name data) w = Thrown CallbackError) /\
  (forall extra_ navType, outcome (trackPageView extra_ navType) w = Thrown CallbackError) /\
  (forall err source, outcome (trackError err source) w = Thrown CallbackError).
Proof.
  intros Hcur Hs Hhook Hthrows.
  assert (Hd : forall ev w', current w' = Some (set_seq (seq st + 1) st) ->
             dispatch ev w' = (Thrown CallbackError, w')).
  { intros ev w' Hw'. unfold dispatch, bind, get, throw. simpl.
    rewrite Hw'. simpl. rewrite Hhook, Hthrows. reflexivity. }
  repeat split.
  - intros ev. unfold dispatch, bind, get, throw. simpl.
    rewrite Hcur, Hhook, Hthrows. reflexivity.
  - intros name data. unfold outcome, trackEvent, now, current_, bind, get, ret. simpl.
    rewrite Hcur, Hs. simpl. rewrite Hcur. rewrite (nextSeq_started w st Hcur).
    destruct (baseContext_pure (set_current (Some (set_seq (seq st + 1) st)) w))
      as (c & ->).
    rewrite Hd by reflexivity. reflexivity.
  - intros extra_ navType.
    unfold outcome, trackPageView, now, current_, bind, get, ret. simpl.
    rewrite Hcur, Hs. simpl.
    destruct (baseContext_pure w) as (c & ->). rewrite Hcur.
    rewrite (nextSeq_started w st Hcur).
    rewrite Hd by reflexivity. reflexivity.
  - intros err source.
    unfold outcome, trackError, now, current_, bind, get, ret. simpl.
    rewrite Hcur, Hs. simpl. destruct err; simpl; rewrite Hcur;
      rewrite (nextSeq_started w st Hcur);
      destruct (baseContext_pure (set_current (Some (set_seq (seq st + 1) st)) w))
        as (c & ->);
      rewrite Hd by reflexivity; reflexivity.
Qed.

(* ===================== Session ===================== *)

Lemma truthy_nonempty (s : string) : truthy s = true <-> s <> "".
Proof.
  unfold truthy. destruct (String.eqb_spec s "") as [->|Hne]; simpl; split;
    intros; congruence.
Qed.

Ltac new_session w0 :=
  match goal with
  | Hnew : forall (P : Prop) (w : World), _
    |- exists s w', _ = _ /\ (_ \/ (~ ?P /\ _)) =>
      let s := fresh "s" in
      let w' := fresh "w'" in
      let Hrun := fresh "Hrun" in
      let Hres := fresh "Hres" in
      destruct (Hnew P w0) as (s & w' & Hrun & Hres);
      [ | reflexivity | reflexivity | reflexivity
        | exists s, w'; split; [exact Hrun | right; exact Hres] ]
  end.

Lemma createSession_run rate t w :
  createSession rate t w =
    let v := {| sess_id := uuid_at (uuidCalls w);
                sess_sampled := Qltb (random_at (randomCalls w)) rate;
                sess_last := t |} in
    let w1 :=
      set_calls
        (calls w ++ [{| call := CallSetItem LS_SESSION_KEY (JSON_stringify v);
                        threw := setItemThrows (host w) |}])
        (set_randomCalls (S (randomCalls w)) (set_uuidCalls (S (uuidCalls w)) w)) in
    if setItemThrows (host w) then (Thrown StorageError, w1)
    else (Returned v,
          set_localStorage (<[LS_SESSION_KEY := JSON_stringify v]> (localStorage w)) w1).
Proof.
  unfold createSession, localStorage_setItem, log_call, uuid, Math_random,
    bind, get, modify, ret, throw. simpl.
  destruct (setItemThrows (host w)); reflexivity.
Qed.

(** C5. [loadOrCreateSession] always returns.  When storage answers, the
    stored string is non-empty and parses to a session record younger than
    the TTL, and the write-back succeeds, the result is that record with only
    [last] set to now, and neither [Math.random] nor [uuid] is called.  In
    every other case (nothing stored, expired, unparseable, not an object, or
    storage raising on read or write) the result carries an id and a
    sampling draw both made during this call. *)
Theorem loadOrCreateSession_result (rate : Q) (ttl : Z) (w : World) :
  let live raw v :=
    getItemThrows (host w) = false /\ setItemThrows (host w) = false /\
    localStorage w !! LS_SESSION_KEY = Some raw /\ raw <> "" /\
    JSON_parse raw = Ret (PSession v) /\ clock (host w) - sess_last v < ttl in
  exists s w',
    loadOrCreateSession rate ttl w = (Returned s, w') /\
    ((exists raw v, live raw v /\
        s = {| sess_id := sess_id v; sess_sampled := sess_sampled v;
               sess_last := clock (host w) |} /\
        randomCalls w' = randomCalls w /\ uuidCalls w' = uuidCalls w /\
        localStorage w' !! LS_SESSION_KEY = Some (JSON_stringify s))
     \/
     (~ (exists raw v, live raw v) /\
      exists i r,
        (uuidCalls w <= i)%nat /\ uuidCalls w' = S i /\
        (randomCalls w <= r)%nat /\ randomCalls w' = S r /\
        s = {| sess_id := uuid_at i;
               sess_sampled := Qltb (random_at r) rate;
               sess_last := clock (host w) |})).
Proof.
  intros live. subst live.
  unfold loadOrCreateSession, renewSession, localStorage_getItem,
    localStorage_setItem, log_call, uuid, Math_random, now, with_last,
    bind, get, modify, try_catch, ret, throw.
  simpl.
  destruct (getItemThrows (host w)) eqn:Hget; simpl.
  { do 2 eexists. split; [reflexivity|]. right. split.
    - intros (raw & v & Hg & _). congruence.
    - exists (uuidCalls w), (randomCalls w). repeat split; lia. }
  (* the cases that end in a new session: one draw when the write succeeds,
     a second one in the outer handler when it raises *)
  assert (Hnew : forall (P : Prop) w0,
            ~ P -> host w0 = host w ->
            uuidCalls w0 = uuidCalls w -> randomCalls w0 = randomCalls w ->
            exists s w',
              (let (o, w') := createSession rate (clock (host w)) w0 in
               match o with
               | Returned a => (Returned a, w')
               | Thrown _ =>
                   (Returned
                      {| sess_id := uuid_at (uuidCalls w');
                         sess_sampled := Qltb (random_at (randomCalls w')) rate;
                         sess_last := clock (host w') |},
                    set_randomCalls (S (randomCalls w'))
                      (set_uuidCalls (S (uuidCalls w')) w'))
               end) = (Returned s, w') /\
              (~ P /\
               exists i r,
                 (uuidCalls w <= i)%nat /\ uuidCalls w' = S i /\
                 (randomCalls w <= r)%nat /\ randomCalls w' = S r /\
                 s = {| sess_id := uuid_at i;
                        sess_sampled := Qltb (random_at r) rate;
                        sess_last := clock (host w) |})).
  { intros P w0 HP Hh Hu Hr. rewrite createSession_run. simpl. rewrite Hh, Hu, Hr.
    destruct (setItemThrows (host w)); simpl; rewrite ?Hh;
      do 2 eexists; (split; [reflexivity|]); (split; [exact HP|]); simpl.
    - exists (S (uuidCalls w)), (S (randomCalls w)). repeat split; lia.
    - exists (uuidCalls w), (randomCalls w). repeat split; lia. }
  destruct (localStorage w !! LS_SESSION_KEY) as [raw|] eqn:Hraw; simpl.
  2:{ new_session w.
      intros (raw & v & _ & _ & Hl & _). congruence. }
  destruct (truthy raw) eqn:Htruthy; simpl.
  2:{ new_session w.
      intros (raw' & v & _ & _ & Hl & Hne & _).
      injection Hl as <-. apply truthy_nonempty in Hne. congruence. }
  apply truthy_nonempty in Htruthy.
  destruct (JSON_parse raw) as [[v|]|] eqn:Hparse; simpl.
  - destruct (clock (host w) - sess_last v <? ttl)%Z eqn:Hage; simpl.
    + destruct (setItemThrows (host w)) eqn:Hset; simpl.
      * match goal with
        | |- context [createSession _ _ ?w0] => new_session w0
        end.
        intros (raw' & v' & _ & Hs & _). congruence.
      * do 2 eexists. split; [reflexivity|]. left.
        exists raw, v. simpl. rewrite lookup_insert_eq.
        apply Z.ltb_lt in Hage. repeat split; auto.
    + apply Z.ltb_ge in Hage.
      new_session w.
      intros (raw' & v' & _ & _ & Hl & _ & Hp & Hlt).
      injection Hl as <-. rewrite Hparse in Hp. injection Hp as <-. lia.
  - new_session w.
    intros (raw' & v' & _ & _ & Hl & _ & Hp & _).
    injection Hl as <-. rewrite Hparse in Hp. discriminate.
  - new_session w.
    intros (raw' & v' & _ & _ & Hl & _ & Hp & _).
    injection Hl as <-. rewrite Hparse in Hp. discriminate.
Qed.

(* ===================== Queue and backpressure ===================== *)

Lemma flushQueue_current b w st :
  current w = Some st ->
  current (exec (flushQueue b) w) =
    Some (match queue st with [] => st | _ :: _ => set_queue [] 0 st end).
Proof.
  intros Hcur. unfold exec.
  destruct (queue st) as [|e q] eqn:Hq.
  - rewrite flushQueue_noop; [exact Hcur|].
    intros st' Hst'. congruence.
  - rewrite (flushQueue_drains b w st Hcur) by congruence. reflexivity.
Qed.

Lemma flushQueue_current_set b w st :
  current (exec (flushQueue b) (set_current (Some st) w)) =
    Some (match queue st with [] => st | _ :: _ => set_queue [] 0 st end).
Proof. apply flushQueue_current. reflexivity. Qed.

(** [enqueue] on a started, sampled pipeline, as one expression: the flush
    before the event when it does not fit, the drop when it still does not,
    the append, and the flush after it when the batch is full. *)
Lemma enqueue_run e w st :
  current w = Some st -> sampled st = true ->
  let bytes := blobSize e in
  let cap := maxQueueBytes (config st) in
  let fits := (queueBytes st + bytes <=? cap)%Z in
  let w1 := if fits then w else exec (flushQueue false) w in
  let st1 := if fits then st
             else match queue st with [] => st | _ :: _ => set_queue [] 0 st end in
  enqueue e w =
    (Returned tt,
     if (queueBytes st1 + bytes <=? cap)%Z then
       let st2 := set_queue (queue st1 ++ [e]) (queueBytes st1 + bytes) st1 in
       let w2 := set_current (Some st2) w1 in
       if (Z.of_nat (length (queue st2)) >=? batchMax (config st2))%Z
       then exec (flushQueue false) w2 else w2
     else w1).
Proof.
  intros Hcur Hs bytes cap fits w1 st1.
  assert (Hcur1 : current w1 = Some st1).
  { subst w1 st1. destruct fits; [exact Hcur | apply flushQueue_current, Hcur]. }
  assert (Hcap1 : maxQueueBytes (config st1) = cap).
  { subst st1 cap. destruct fits; [reflexivity|]. destruct (queue st); reflexivity. }
  assert (Hstep : (if negb fits
                   then (flushQueue false;;
                         st1 <- current_;; safeJsonSize (queueBytes st1 + bytes))
                   else ret true) w
                  = (Returned (if fits then true
                               else (queueBytes st1 + bytes <=? cap)%Z), w1)).
  { subst w1. destruct fits eqn:Hfits; simpl; [reflexivity|].
    unfold bind at 1. rewrite (returns_unit _ _ (returns_flushQueue false)).
    unfold current_, safeJsonSize, bind, get, ret. simpl.
    rewrite Hcur1. simpl. rewrite Hcur1, Hcap1. reflexivity. }
  unfold enqueue. unfold bind at 1. unfold get at 1. rewrite Hcur, Hs. simpl.
  unfold bind at 1. unfold safeJsonSize at 1. unfold bind at 1, get at 1, ret at 1.
  rewrite Hcur. fold bytes cap fits.
  unfold bind at 1. rewrite Hstep.
  assert (Hroom : (if fits then true else (queueBytes st1 + bytes <=? cap)%Z)
                  = (queueBytes st1 + bytes <=? cap)%Z).
  { subst st1. destruct fits eqn:Hfits; [symmetry; exact Hfits | reflexivity]. }
  rewrite Hroom.
  destruct (queueBytes st1 + bytes <=? cap)%Z eqn:Hfit1; simpl; [|reflexivity].
  unfold update_current, current_, bind, get, modify, ret. simpl.
  rewrite Hcur1. simpl.
  destruct (Z.of_nat (length (queue st1 ++ [e])%list) >=? batchMax (config st1))%Z;
    [|reflexivity].
  rewrite (returns_unit _ _ (returns_flushQueue false)). reflexivity.
Qed.

Lemma returns_enqueue e : returns (enqueue e).
Proof.
  intros w. destruct (current w) as [st|] eqn:Hcur.
  - destruct (sampled st) eqn:Hs.
    + rewrite (enqueue_run e w st Hcur Hs). eauto.
    + unfold enqueue, bind, get, ret. simpl. rewrite Hcur, Hs. simpl. eauto.
  - unfold enqueue, bind, get, ret. simpl. rewrite Hcur. eauto.
Qed.

Lemma bufferedBytes_snoc q e : bufferedBytes (q ++ [e]) = bufferedBytes q + blobSize e.
Proof.
  unfold bufferedBytes. induction q as [|x q IH]; simpl; [lia|]. rewrite IH. lia.
Qed.

(** Between two calls the byte counter is the size of what is queued, it is
    within the cap, and the cap is the one the pipeline was started with. *)
Lemma enqueue_keeps_cap cap e :
  0 <= cap ->
  preserves (fun w => exists st, current w = Some st /\
                                 maxQueueBytes (config st) = cap /\
                                 queueBytes st = bufferedBytes (queue st) /\
                                 queueBytes st <= cap)
            (enqueue e).
Proof.
  intros Hcap w (st & Hcur & Hcfg & Hsum & Hle).
  destruct (sampled st) eqn:Hs.
  2:{ unfold enqueue, bind, get, ret. simpl. rewrite Hcur, Hs. simpl. eauto. }
  rewrite (enqueue_run e w st Hcur Hs). cbv zeta.
  rewrite Hcfg.
  destruct (queueBytes st + blobSize e <=? cap)%Z eqn:Hfits.
  - rewrite Hfits. simpl.
    apply Z.leb_le in Hfits.
    destruct (Z.of_nat (length (queue st ++ [e])%list) >=? batchMax (config st))%Z.
    + eexists. split; [apply flushQueue_current_set|]. simpl.
      destruct (queue st ++ [e])%list eqn:Hq;
        [destruct (queue st); discriminate|].
      simpl. repeat split; auto.
    + simpl. eexists. split; [reflexivity|]. simpl.
      rewrite bufferedBytes_snoc. repeat split; auto; lia.
  - pose proof (flushQueue_current false w st Hcur) as Hfl.
    destruct (queue st) as [|e0 q] eqn:Hq; simpl.
    + rewrite Hfits. exists st. rewrite Hq. auto.
    + destruct (0 + blobSize e <=? cap)%Z eqn:Hfit1.
      * apply Z.leb_le in Hfit1.
        match goal with |- context [if ?c then _ else _] => destruct c end.
        -- eexists. split; [apply flushQueue_current_set|]. simpl. auto.
        -- simpl. eexists. split; [reflexivity|]. simpl.
           unfold bufferedBytes. simpl. repeat split; auto; lia.
      * rewrite Hfl. eexists. split; [reflexivity|]. simpl. auto.
Qed.

(** C3. On a started pipeline with a non-negative byte cap whose counter is
    the size of what is queued and within the cap (as it is after startup),
    however many events are enqueued one after the other, each call returns
    and after the last one, hence after each of them, the bytes buffered are
    what the counter says and at most the cap.  An event that would exceed
    the cap makes [enqueue] flush first and try again on the flushed queue;
    if it would still exceed the cap, the call ends there and the event is
    not appended. *)
Theorem enqueue_within_byte_cap (w : World) (st : InternalState) :
  current w = Some st ->
  0 <= maxQueueBytes (config st) ->
  queueBytes st = bufferedBytes (queue st) ->
  queueBytes st <= maxQueueBytes (config st) ->
  (forall e, returns (enqueue e)) /\
  (forall evs, exists st',
      current (execAll enqueue evs w) = Some st' /\
      maxQueueBytes (config st') = maxQueueBytes (config st) /\
      bufferedBytes (queue st') = queueBytes st' /\
      queueBytes st' <= maxQueueBytes (config st')) /\
  (forall e, sampled st = true ->
      maxQueueBytes (config st) < queueBytes st + blobSize e ->
      let w1 := exec (flushQueue false) w in
      exists st1,
        current w1 = Some st1 /\ queue st1 = [] /\
        enqueue e w =
          if (queueBytes st1 + blobSize e <=? maxQueueBytes (config st))%Z
          then enqueue e w1
          else (Returned tt, w1)).
Proof.
  intros Hcur Hcap Hsum Hle. split; [exact returns_enqueue|]. split.
  - intros evs.
    destruct (preserves_execAll _ enqueue evs
                (fun e => enqueue_keeps_cap (maxQueueBytes (config st)) e Hcap) w)
      as (st' & Hcur' & Hcfg' & Hsum' & Hle').
    { exists st. auto. }
    exists st'. rewrite Hcfg'. auto.
  - intros e Hs Hover w1.
    pose proof (flushQueue_current false w st Hcur) as Hcur1. fold w1 in Hcur1.
    eexists. split; [exact Hcur1|]. split.
    { destruct (queue st) eqn:Hq; [exact Hq | reflexivity]. }
    rewrite (enqueue_run e w st Hcur Hs). cbv zeta.
    assert (Hfits : (queueBytes st + blobSize e <=? maxQueueBytes (config st))%Z = false)
      by (apply Z.leb_gt; lia).
    rewrite Hfits. fold w1.
    set (st1 := match queue st with [] => st | _ :: _ => set_queue [] 0 st end) in *.
    assert (Hcfg1 : config st1 = config st) by (subst st1; destruct (queue st); reflexivity).
    assert (Hs1 : sampled st1 = true) by (subst st1; destruct (queue st); exact Hs).
    destruct (queueBytes st1 + blobSize e <=? maxQueueBytes (config st))%Z eqn:Hfit1;
      [|reflexivity].
    rewrite (enqueue_run e w1 st1 Hcur1 Hs1). cbv zeta.
    rewrite Hcfg1, Hfit1. simpl. rewrite Hfit1. reflexivity.
Qed.

(* ===================== Startup, then a batch of two ===================== *)

Lemma transports_app w l :
  transports (set_calls (calls w ++ l) w) = (transports w ++ List.filter isTransport l)%list.
Proof. unfold transports. simpl. apply List.filter_app. Qed.

Lemma isFetch_isTransport c : isFetch c = true -> isTransport c = true.
Proof. unfold isFetch, isTransport. destruct (call c); auto. Qed.

Ltac storage_leaf :=
  match goal with
  | H : storageOnly ?w0 ?w |- storageOnly ?w0 _ =>
      unfold storageOnly in *; simpl;
      rewrite ?transports_app; simpl; rewrite ?app_nil_r;
      unfold transports in *; simpl; tauto
  end.

Lemma storageOnly_refl w : storageOnly w w.
Proof. unfold storageOnly. tauto. Qed.

Lemma storageOnly_getOrCreateDeviceId w0 : preserves (storageOnly w0) getOrCreateDeviceId.
Proof. autounfold with js. repeat pres_step; storage_leaf. Qed.

Lemma storageOnly_loadOrCreateSession w0 rate ttl :
  preserves (storageOnly w0) (loadOrCreateSession rate ttl).
Proof. autounfold with js. repeat pres_step; storage_leaf. Qed.

Lemma storageOnly_refreshSessionActivity w0 : preserves (storageOnly w0) refreshSessionActivity.
Proof. autounfold with js. repeat pres_step; storage_leaf. Qed.

Lemma no_session_getOrCreateDeviceId :
  preserves (fun w => localStorage w !! LS_SESSION_KEY = None) getOrCreateDeviceId.
Proof.
  autounfold with js. repeat pres_step; simpl; try assumption.
  all: rewrite lookup_insert_ne by discriminate; assumption.
Qed.

(** With nothing stored under the session key, the session is a new one and
    its flag is the outcome of a draw against the sample rate. *)
Lemma loadOrCreateSession_absent rate ttl w :
  localStorage w !! LS_SESSION_KEY = None ->
  exists s w' r,
    loadOrCreateSession rate ttl w = (Returned s, w') /\
    sess_sampled s = Qltb (random_at r) rate.
Proof.
  intros Hnone.
  unfold loadOrCreateSession, localStorage_getItem, uuid, Math_random, now,
    bind, get, modify, try_catch, ret, throw. simpl.
  destruct (getItemThrows (host w)); simpl; [eauto 6|].
  rewrite Hnone. simpl. rewrite createSession_run. simpl.
  destruct (setItemThrows (host w)); simpl; eauto 6.
Qed.

Lemma triple_conj {A} (P1 P2 : World -> Prop) (m : Js A) Q1 Q2 E1 E2 :
  triple P1 m Q1 E1 -> triple P2 m Q2 E2 ->
  triple (fun w => P1 w /\ P2 w) m
    (fun a w => Q1 a w /\ Q2 a w) (fun w => E1 w /\ E2 w).
Proof.
  intros H1 H2 w [Hw1 Hw2]. specialize (H1 w Hw1). specialize (H2 w Hw2).
  destruct (m w) as [[a|e] w']; auto.
Qed.

Lemma triple_at {A} (m : Js A) (Q : A -> World -> Prop) (E : World -> Prop) w0 :
  triple (eq w0) m Q E ->
  match m w0 with (Returned a, w') => Q a w' | (Thrown _, w') => E w' end.
Proof. intros H. exact (H w0 eq_refl). Qed.

Lemma triple_preserves_returns {A} (I : World -> Prop) (m : Js A) :
  preserves I m -> returns m -> triple I m (fun _ => I) (fun _ => False).
Proof.
  intros Hp Hr w Hw. specialize (Hp w Hw).
  destruct (Hr w) as (a & w' & Hrun). rewrite Hrun in *. exact Hp.
Qed.

Ltac idle_leaf :=
  match goal with
  | H : exists st, current ?w = Some st /\ _ |- exists st', current _ = Some st' /\ _ =>
      let st := fresh "st" in
      let Hc := fresh "Hc" in
      let Hrest := fresh "Hrest" in
      destruct H as (st & Hc & Hrest); unfold transports in *; simpl;
      rewrite ?Hc; simpl; eexists; (split; [reflexivity|]); simpl;
      rewrite ?List.filter_app; simpl; rewrite ?app_nil_r; tauto
  end.

(** What [startRum] leaves when nothing was started, no session is stored,
    no route manifest or normalizer is known yet, and every draw of
    [Math.random] falls below the sample rate: a sampled pipeline with an
    empty queue, the counter at zero, and nothing transported. *)
Lemma startRum_sampled_idle (rate : Q) (batch cap : option Z) (hook : option BeforeSend) w0 :
  current w0 = None -> routeManifestReady w0 = false ->
  pendingPathNormalizer w0 = None ->
  localStorage w0 !! LS_SESSION_KEY = None ->
  (forall n, Qltb (random_at n) rate = true) ->
  exists w1 st,
    startRum (configWith rate batch cap hook) w0 = (Returned publicAPI, w1) /\
    current w1 = Some st /\
    (sampled st = true /\ seq st = 0 /\ queue st = [] /\ queueBytes st = 0 /\
     batchMax (config st) = nullish batch DEFAULT_BATCH_MAX /\
     maxQueueBytes (config st) = nullish cap DEFAULT_MAX_QUEUE_BYTES /\
     beforeSend (config st) = hook /\ getNormalizedPath (config st) = None /\
     autoTrackInitialView (config st) = true) /\
    routeManifestReady w1 = false /\
    transports w1 = transports w0 /\ host w1 = host w0.
Proof.
  intros Hcur Hready Hnorm Hnone Hdraw.
  set (K := fun w : World =>
    exists st, current w = Some st /\
      (sampled st = true /\ seq st = 0 /\ queue st = [] /\ queueBytes st = 0 /\
       batchMax (config st) = nullish batch DEFAULT_BATCH_MAX /\
       maxQueueBytes (config st) = nullish cap DEFAULT_MAX_QUEUE_BYTES /\
       beforeSend (config st) = hook /\ getNormalizedPath (config st) = None /\
       autoTrackInitialView (config st) = true) /\
      routeManifestReady w = false /\
      transports w = transports w0 /\ host w = host w0).
  assert (H : triple (eq w0) (startRum (configWith rate batch cap hook))
                (fun _ => K) (fun _ => False)).
  { unfold startRum. intros w <-. unfold bind at 1, get at 1. rewrite Hcur.
    apply triple_at.
    eapply triple_bind with
      (R := fun c w => w = w0 /\
              sampleRate c = rate /\
              batchMax c = nullish batch DEFAULT_BATCH_MAX /\
              maxQueueBytes c = nullish cap DEFAULT_MAX_QUEUE_BYTES /\
              beforeSend c = hook /\ getNormalizedPath c = None /\
              autoTrackInitialView c = true).
    { intros w <-. unfold applyDefaults, bind, get, ret. simpl.
      rewrite Hnorm. tauto. }
    intros c.
    eapply triple_bind with
      (R := fun _ w => (storageOnly w0 w /\ localStorage w !! LS_SESSION_KEY = None) /\
              sampleRate c = rate /\
              batchMax c = nullish batch DEFAULT_BATCH_MAX /\
              maxQueueBytes c = nullish cap DEFAULT_MAX_QUEUE_BYTES /\
              beforeSend c = hook /\ getNormalizedPath c = None /\
              autoTrackInitialView c = true).
    { intros w (-> & Hc).
      pose proof (triple_conj _ _ _ _ _ _ _
                    (triple_preserves_returns _ _ (storageOnly_getOrCreateDeviceId w0)
                       returns_getOrCreateDeviceId)
                    no_session_getOrCreateDeviceId w0
                    (conj (storageOnly_refl w0) Hnone)) as Ht.
      destruct (getOrCreateDeviceId w0) as [[a|e] w']; tauto. }
    intros dev.
    eapply triple_bind with
      (R := fun s w => storageOnly w0 w /\ sess_sampled s = true /\
              batchMax c = nullish batch DEFAULT_BATCH_MAX /\
              maxQueueBytes c = nullish cap DEFAULT_MAX_QUEUE_BYTES /\
              beforeSend c = hook /\ getNormalizedPath c = None /\
              autoTrackInitialView c = true).
    { intros w ((Hst & Hls) & Hrate & Hc).
      pose proof (storageOnly_loadOrCreateSession w0 (sampleRate c) (sessionTtlMs c) w Hst) as Hp.
      destruct (loadOrCreateSession_absent (sampleRate c) (sessionTtlMs c) w Hls)
        as (s & w' & r & Hrun & Hsam).
      rewrite Hrun in *. rewrite Hsam, Hrate, Hdraw. tauto. }
    intros sess.
    eapply triple_bind with (R := fun _ w => K w /\ sess_sampled sess = true).
    { apply triple_modify. intros w (Hst & Hsam & Hc). split; [|exact Hsam].
      unfold K, storageOnly in *. simpl. eexists. split; [reflexivity|]. simpl.
      unfold transports in *. simpl. rewrite Hready in Hst. tauto. }
    intros _.
    eapply triple_bind with (R := fun _ => K).
    { intros w (HK & Hsam). rewrite Hsam. unfold when.
      assert (Hp : preserves K
                (setupLifecycle;;
                 (if captureErrors c then attachErrorHandlers else ret ());;
                 (if captureFetch c then instrumentFetch else ret ());;
                 (if captureXHR c then instrumentXHR else ret ());;
                 (if captureResources c then observeResources (maxResourceCount c) else ret ());;
                 (if captureLongTasks c then observeLongTasks else ret ());;
                 (if enableWebVitals c then attachWebVitals else ret ()))).
      { subst K. autounfold with js. repeat pres_step; idle_leaf. }
      assert (Hr : returns
                (setupLifecycle;;
                 (if captureErrors c then attachErrorHandlers else ret ());;
                 (if captureFetch c then instrumentFetch else ret ());;
                 (if captureXHR c then instrumentXHR else ret ());;
                 (if captureResources c then observeResources (maxResourceCount c) else ret ());;
                 (if captureLongTasks c then observeLongTasks else ret ());;
                 (if enableWebVitals c then attachWebVitals else ret ()))).
      { autounfold with js. repeat returns_step. }
      exact (triple_preserves_returns _ _ Hp Hr w HK). }
    intros _.
    eapply triple_bind with (R := fun _ => K).
    { apply triple_preserves_returns.
      - subst K. autounfold with js. repeat pres_step; idle_leaf.
      - autounfold with js. repeat returns_step. }
    intros _.
    eapply triple_bind with (R := fun st w => K w /\ current w = Some st).
    { intros w HK. unfold current_, bind, get, ret. simpl.
      destruct HK as (st & Hc & Hrest). rewrite Hc. simpl.
      split; [exists st; auto | exact Hc]. }
    intros st w (HK & Hc).
    destruct HK as (st' & Hc' & Hcore & Hr & Ht & Hh).
    assert (st' = st) as -> by congruence.
    destruct Hcore as (Hs & Hseq & Hq & Hqb & Hbm & Hmq & Hbs & Hgn & Hat).
    unfold when, setInterval, setTimeout, bind, get, modify, ret. simpl.
    rewrite Hs, Hat. simpl. rewrite Hr, Hgn. simpl.
    exists st. unfold transports in *. simpl. tauto. }
  specialize (H w0 eq_refl).
  destruct (startRum (configWith rate batch cap hook) w0) as [[[]|e] w1];
    [|contradiction].
  destruct H as (st & Hst). exists w1, st. split; [reflexivity | exact Hst].
Qed.


Lemma trackEvent_built name data w st :
  current w = Some st -> sampled st = true ->
  exists c,
    let e := {| ev_type := custom; ts := clock (host w);
                ev_sessionId := sessionId st; ev_deviceId := deviceId st;
                ev_seq := seq st + 1; context := c;
                ev_name := Some name; ev_data := CustomData data |} in
    customEventAt w name data = Some e /\
    trackEvent name data w =
      dispatch e (set_current (Some (set_seq (seq st + 1) st)) w).
Proof.
  intros Hcur Hs.
  destruct (baseContext_pure (set_current (Some (set_seq (seq st + 1) st)) w))
    as (c & Hc).
  exists c. cbv zeta. split.
  - unfold customEventAt, outcome. rewrite Hcur, Hc. reflexivity.
  - unfold trackEvent, now, current_, bind, get, ret. simpl.
    rewrite Hcur, Hs. simpl. rewrite Hcur. rewrite (nextSeq_started w st Hcur).
    rewrite Hc. reflexivity.
Qed.

Lemma dispatch_no_hook ev w st :
  current w = Some st -> beforeSend (config st) = None ->
  dispatch ev w = enqueue ev w.
Proof.
  intros Hcur Hhook. unfold dispatch, bind, get, ret. simpl.
  rewrite Hcur, Hhook. reflexivity.
Qed.

Lemma Qltb_lt (x y : Q) : (x < y)%Q -> Qltb x y = true.
Proof.
  intros H. unfold Qltb. destruct (Qle_bool y x) eqn:Hle; [|reflexivity].
  apply Qle_bool_iff in Hle. exfalso. exact (Qlt_not_le _ _ H Hle).
Qed.

(** C6. On a page where nothing is started yet, no session is stored and no
    route manifest or path normalizer is known (so the initial page view is
    deferred to a timer), with [Math.random] in [0,1) and the two events
    the calls build small enough for the default byte cap (the first one
    alone, and the two together): after
    [startRum({sampleRate: 1.0, batchMax: 2})] and [trackEvent("a")] nothing
    has been transported; [trackEvent("b")] then makes exactly one transport
    call, a [fetch] whose payload holds the two events in the order a, b,
    and leaves the queue empty with its byte counter at zero. *)
Theorem batch_of_two_flushes_once (w0 : World) :
  let w1 := exec (startRum (configWith 1 (Some 2) None None)) w0 in
  let w2 := exec (trackEvent "a" None) w1 in
  let w3 := exec (trackEvent "b" None) w2 in
  current w0 = None -> routeManifestReady w0 = false ->
  pendingPathNormalizer w0 = None ->
  localStorage w0 !! LS_SESSION_KEY = None ->
  (forall n, (random_at n < 1)%Q) ->
  (forall ea, customEventAt w1 "a" None = Some ea ->
     blobSize ea <= DEFAULT_MAX_QUEUE_BYTES) ->
  (forall ea eb,
     customEventAt w1 "a" None = Some ea -> customEventAt w2 "b" None = Some eb ->
     blobSize ea + blobSize eb <= DEFAULT_MAX_QUEUE_BYTES) ->
  outcome (trackEvent "a" None) w1 = Returned tt /\
  outcome (trackEvent "b" None) w2 = Returned tt /\
  transports w2 = transports w0 /\
  exists st3 request ea eb,
    calls w3 = (calls w2 ++ [request])%list /\
    isFetch request = true /\
    delivered request = (if threw request then [] else [ea; eb]) /\
    match call request with
    | CallFetch _ body _ => p_events body = [ea; eb]
    | _ => False
    end /\
    (ev_type ea = custom /\ ev_name ea = Some "a" /\ ev_seq ea = 1) /\
    (ev_type eb = custom /\ ev_name eb = Some "b" /\ ev_seq eb = 2) /\
    current w3 = Some st3 /\ queue st3 = [] /\ queueBytes st3 = 0.
Proof.
  intros w1 w2 w3 Hcur Hready Hnorm Hnone Hdraw Hsize1 Hsize2.
  destruct (startRum_sampled_idle 1 (Some 2) None None w0 Hcur Hready Hnorm Hnone
              (fun n => Qltb_lt _ _ (Hdraw n)))
    as (w1' & st1 & Hrun & Hcur1 & Hcore & _ & Htr1 & _).
  assert (Hw1 : w1 = w1') by (subst w1; unfold exec; rewrite Hrun; reflexivity).
  clearbody w1. subst w1'. clear Hrun.
  destruct Hcore as (Hs & Hseq & Hq & Hqb & Hbm & Hmq & Hbs & Hgn & Hat).
  simpl in Hbm, Hmq.
  (* the first event is appended and stays in the queue *)
  destruct (trackEvent_built "a" None w1 st1 Hcur1 Hs) as (ca & Hba & Ha).
  cbv zeta in Hba, Ha.
  set (ea := {| ev_type := custom; ts := clock (host w1);
                ev_sessionId := sessionId st1; ev_deviceId := deviceId st1;
                ev_seq := seq st1 + 1; context := ca;
                ev_name := Some "a"; ev_data := CustomData None |}) in *.
  assert (Hfit1 : (0 + blobSize ea <=? 250 * 1024)%Z = true).
  { apply Z.leb_le. pose proof (Hsize1 ea Hba).
    unfold DEFAULT_MAX_QUEUE_BYTES in *. lia. }
  set (st2 := set_queue [ea] (0 + blobSize ea) (set_seq (seq st1 + 1) st1)).
  assert (Hrun2 : trackEvent "a" None w1 = (Returned tt, set_current (Some st2) w1)).
  { rewrite Ha. rewrite (dispatch_no_hook _ _ (set_seq (seq st1 + 1) st1)) by auto.
    rewrite (enqueue_run ea _ (set_seq (seq st1 + 1) st1)) by auto.
    cbv zeta.
    cbn [queueBytes queue config seq sampled set_seq set_queue app length].
    rewrite Hmq, Hqb. unfold DEFAULT_MAX_QUEUE_BYTES. rewrite !Hfit1.
    cbn [queueBytes queue config seq sampled set_seq set_queue app length].
    rewrite Hqb, Hq, Hbm, !Hfit1. reflexivity. }
  assert (Hw2 : w2 = set_current (Some st2) w1)
    by (subst w2; unfold exec; rewrite Hrun2; reflexivity).
  clearbody w2. subst w2.
  (* the second one fills the batch, which is flushed *)
  assert (Hcur2 : current (set_current (Some st2) w1) = Some st2) by reflexivity.
  destruct (trackEvent_built "b" None _ st2 Hcur2 Hs) as (cb & Hbb & Hb).
  cbv zeta in Hbb, Hb.
  set (eb := {| ev_type := custom; ts := clock (host (set_current (Some st2) w1));
                ev_sessionId := sessionId st2; ev_deviceId := deviceId st2;
                ev_seq := seq st2 + 1; context := cb;
                ev_name := Some "b"; ev_data := CustomData None |}) in *.
  assert (Hfit2 : (0 + blobSize ea + blobSize eb <=? 250 * 1024)%Z = true).
  { apply Z.leb_le. pose proof (Hsize2 ea eb Hba Hbb).
    unfold DEFAULT_MAX_QUEUE_BYTES in *. lia. }
  set (st3 := set_queue [ea; eb] (0 + blobSize ea + blobSize eb)
                (set_seq (seq st2 + 1) st2)).
  assert (Hrun3 : trackEvent "b" None (set_current (Some st2) w1) =
            flushQueue false (set_current (Some st3) w1)).
  { rewrite Hb. rewrite (dispatch_no_hook _ _ (set_seq (seq st2 + 1) st2)) by auto.
    rewrite (enqueue_run eb _ (set_seq (seq st2 + 1) st2)) by auto.
    cbv zeta.
    cbn [queueBytes queue config seq sampled set_seq set_queue app length st2].
    rewrite Hmq. unfold DEFAULT_MAX_QUEUE_BYTES. rewrite !Hfit2.
    cbn [queueBytes queue config seq sampled set_seq set_queue app length st2].
    rewrite Hbm, ?Hfit2. simpl.
    rewrite (returns_unit (flushQueue false) _ (returns_flushQueue false)).
    reflexivity. }
  assert (Hdrain := flushQueue_drains false (set_current (Some st3) w1) st3 eq_refl).
  cbv zeta in Hdrain. simpl in Hdrain.
  assert (Hw3 : w3 = _) by (subst w3; unfold exec; rewrite Hrun3, Hdrain by discriminate; reflexivity).
  clearbody w3. subst w3.
  unfold outcome. rewrite Hrun2, Hrun3, Hdrain by discriminate. simpl.
  split; [reflexivity|]. split; [reflexivity|]. split; [exact Htr1|].
  eexists _, _, ea, eb. split; [reflexivity|]. simpl.
  split; [reflexivity|]. split; [unfold delivered; simpl; reflexivity|].
  split; [reflexivity|].
  subst ea eb st2. simpl. rewrite Hseq. repeat split; reflexivity.
Qed.

(* ===================== Unload and page hide ===================== *)

Lemma refreshSessionActivity_run w raw v :
  getItemThrows (host w) = false ->
  localStorage w !! LS_SESSION_KEY = Some raw -> raw <> "" ->
  JSON_parse raw = Ret (PSession v) ->
  let fresh := JSON_stringify (with_last (clock (host w)) v) in
  let w1 :=
    set_calls (calls w ++ [{| call := CallSetItem LS_SESSION_KEY fresh;
                              threw := setItemThrows (host w) |}]) w in
  refreshSessionActivity w =
    (Returned tt,
     if setItemThrows (host w) then w1
     else set_localStorage (<[LS_SESSION_KEY := fresh]> (localStorage w)) w1).
Proof.
  intros Hget Hraw Hne Hparse fresh w1.
  apply truthy_nonempty in Hne.
  unfold refreshSessionActivity, localStorage_getItem, localStorage_setItem,
    log_call, now, bind, get, modify, try_catch, ret, throw. simpl.
  rewrite Hget. simpl. rewrite Hraw, Hne. simpl. rewrite Hparse. simpl.
  destruct (setItemThrows (host w)); reflexivity.
Qed.


(* ===================== Sequence numbers ===================== *)

Lemma StronglySorted_sublist {A} (R : relation A) (l1 l2 : list A) :
  l1 `sublist_of` l2 -> StronglySorted R l2 -> StronglySorted R l1.
Proof.
  induction 1 as [|x l1 l2 Hsub IH|x l1 l2 Hsub IH]; intros Hs.
  - constructor.
  - inversion Hs as [|? ? Hs' Hall]; subst. constructor; [auto|].
    rewrite Forall_forall in *. intros y Hy. apply Hall.
    eapply elem_of_sublist; eauto.
  - inversion Hs; subst. auto.
Qed.














Lemma trackPageView_run extra_ navType w st :
  current w = Some st -> sampled st = true ->
  exists e,
    ev_seq e = seq st + 1 /\
    trackPageView extra_ navType w =
      (dispatch e;; modify (set_hasSentInitialPV true))
        (set_current (Some (set_seq (seq st + 1) st)) w).
Proof.
  intros Hcur Hs.
  destruct (baseContext_pure w) as (c & Hc).
  unfold trackPageView, now, current_, bind, get, ret. simpl.
  rewrite Hcur, Hs. simpl. rewrite Hc. rewrite Hcur.
  rewrite (nextSeq_started w st Hcur).
  eexists. split; [|reflexivity]. reflexivity.
Qed.



















Lemma transported_transports w : transported w = concat (map delivered (transports w)).
Proof.
  unfold transported, transports. induction (calls w) as [|c l IH]; simpl; [reflexivity|].
  destruct (isTransport c) eqn:Hc; simpl; rewrite IH; [reflexivity|].
  unfold isTransport in Hc. unfold delivered.
  destruct c as [[k v|t b|t b h] thr]; simpl in *; try discriminate.
  destruct thr; reflexivity.
Qed.

Lemma triple_returns_any {A} (P : World -> Prop) (m : Js A) Q (E : World -> Prop) :
  triple P m Q (fun _ => False) -> triple P m Q E.
Proof. intros H. eapply triple_conseq; [exact H | auto | auto | intros ? []]. Qed.







(* ===================== Device id and session, beyond the claims ===================== *)

(** X1. With a working localStorage and a [uuid] that never yields the empty
    string, [getOrCreateDeviceId] returns an id that a second call returns
    again without drawing, writing or changing anything. *)
Theorem deviceId_stable (w : World) :
  getItemThrows (host w) = false -> setItemThrows (host w) = false ->
  (forall n, uuid_at n <> "") ->
  exists d w1,
    getOrCreateDeviceId w = (Returned d, w1) /\
    localStorage w1 !! LS_DEVICE_KEY = Some d /\
    getOrCreateDeviceId w1 = (Returned d, w1).
Proof.
  intros Hget Hset Hne.
  assert (Hstored : forall w' d, getItemThrows (host w') = false ->
            localStorage w' !! LS_DEVICE_KEY = Some d -> d <> "" ->
            getOrCreateDeviceId w' = (Returned d, w')).
  { intros w' d Hg Hl Hd. apply truthy_nonempty in Hd.
    unfold getOrCreateDeviceId, localStorage_getItem, bind, get, try_catch, ret.
    simpl. rewrite Hg. simpl. rewrite Hl, Hd. reflexivity. }
  destruct (localStorage w !! LS_DEVICE_KEY) as [d|] eqn:Hl.
  - destruct (truthy d) eqn:Hd.
    + apply truthy_nonempty in Hd. exists d, w. auto.
    + eexists _, _. split; [|split].
      * unfold getOrCreateDeviceId, localStorage_getItem, localStorage_setItem,
          log_call, uuid, bind, get, modify, try_catch, ret, throw. simpl.
        rewrite Hget. simpl. rewrite Hl, Hd. simpl. rewrite Hset. reflexivity.
      * simpl. apply lookup_insert_eq.
      * apply Hstored; simpl; [exact Hget | apply lookup_insert_eq | apply Hne].
  - eexists _, _. split; [|split].
    + unfold getOrCreateDeviceId, localStorage_getItem, localStorage_setItem,
        log_call, uuid, bind, get, modify, try_catch, ret, throw. simpl.
      rewrite Hget. simpl. rewrite Hl. simpl. rewrite Hset. reflexivity.
    + simpl. apply lookup_insert_eq.
    + apply Hstored; simpl; [exact Hget | apply lookup_insert_eq | apply Hne].
Qed.

(** X2. When localStorage raises, on the read or on the write of a missing
    id, [getOrCreateDeviceId] still returns: the id is one drawn from [uuid]
    during the call, and localStorage is left as it was. *)
Theorem deviceId_storage_failure (w : World) :
  getItemThrows (host w) = true \/
  (setItemThrows (host w) = true /\ localStorage w !! LS_DEVICE_KEY = None) ->
  exists i w1,
    getOrCreateDeviceId w = (Returned (uuid_at i), w1) /\
    (uuidCalls w <= i < uuidCalls w1)%nat /\
    localStorage w1 = localStorage w.
Proof.
  intros [Hget | [Hset Hl]].
  - exists (uuidCalls w). eexists. split; [|split].
    + unfold getOrCreateDeviceId, localStorage_getItem, uuid, bind, get, modify,
        try_catch, ret, throw. simpl. rewrite Hget. reflexivity.
    + simpl. lia.
    + reflexivity.
  - destruct (getItemThrows (host w)) eqn:Hget.
    + exists (uuidCalls w). eexists. split; [|split].
      * unfold getOrCreateDeviceId, localStorage_getItem, uuid, bind, get, modify,
          try_catch, ret, throw. simpl. rewrite Hget. reflexivity.
      * simpl. lia.
      * reflexivity.
    + exists (S (uuidCalls w)). eexists. split; [|split].
      * unfold getOrCreateDeviceId, localStorage_getItem, localStorage_setItem,
          log_call, uuid, bind, get, modify, try_catch, ret, throw. simpl.
        rewrite Hget. simpl. rewrite Hl. simpl. rewrite Hset. reflexivity.
      * simpl. lia.
      * reflexivity.
Qed.

Lemma loadOrCreateSession_live rate ttl w raw v :
  getItemThrows (host w) = false -> setItemThrows (host w) = false ->
  localStorage w !! LS_SESSION_KEY = Some raw -> raw <> "" ->
  JSON_parse raw = Ret (PSession v) -> clock (host w) - sess_last v < ttl ->
  exists w',
    loadOrCreateSession rate ttl w = (Returned (with_last (clock (host w)) v), w') /\
    randomCalls w' = randomCalls w /\ uuidCalls w' = uuidCalls w /\
    host w' = host w /\
    localStorage w' !! LS_SESSION_KEY
      = Some (JSON_stringify (with_last (clock (host w)) v)).
Proof.
  intros Hget Hset Hraw Hne Hparse Hage.
  apply truthy_nonempty in Hne. apply Z.ltb_lt in Hage.
  eexists. split.
  - unfold loadOrCreateSession, renewSession, localStorage_getItem,
      localStorage_setItem, log_call, now, bind, get, modify, try_catch, ret, throw.
    simpl. rewrite Hget. simpl. rewrite Hraw, Hne. simpl. rewrite Hparse. simpl.
    rewrite Hage. simpl. rewrite Hset. reflexivity.
  - simpl. rewrite lookup_insert_eq. auto.
Qed.

(** With a working localStorage the session returned is the one left in
    storage, stamped with the current time. *)
Lemma loadOrCreateSession_persists rate ttl w :
  getItemThrows (host w) = false -> setItemThrows (host w) = false ->
  exists s w',
    loadOrCreateSession rate ttl w = (Returned s, w') /\
    host w' = host w /\ sess_last s = clock (host w) /\
    localStorage w' !! LS_SESSION_KEY = Some (JSON_stringify s).
Proof.
  intros Hget Hset.
  assert (Hnew : forall w0, host w0 = host w ->
            exists s w',
              (let (o, w') := createSession rate (clock (host w)) w0 in
               match o with
               | Returned a => (Returned a, w')
               | Thrown _ =>
                   (Returned
                      {| sess_id := uuid_at (uuidCalls w');
                         sess_sampled := Qltb (random_at (randomCalls w')) rate;
                         sess_last := clock (host w') |},
                    set_randomCalls (S (randomCalls w'))
                      (set_uuidCalls (S (uuidCalls w')) w'))
               end) = (Returned s, w') /\
              host w' = host w /\ sess_last s = clock (host w) /\
              localStorage w' !! LS_SESSION_KEY = Some (JSON_stringify s)).
  { intros w0 Hh. rewrite createSession_run. simpl. rewrite Hh, Hset.
    eexists _, _. split; [reflexivity|]. simpl. rewrite lookup_insert_eq. auto. }
  unfold loadOrCreateSession, renewSession, localStorage_getItem,
    localStorage_setItem, log_call, now, with_last, bind, get, modify,
    try_catch, ret, throw.
  simpl. rewrite Hget. simpl.
  destruct (localStorage w !! LS_SESSION_KEY) as [raw|]; simpl; [|apply Hnew; reflexivity].
  destruct (truthy raw); simpl; [|apply Hnew; reflexivity].
  destruct (JSON_parse raw) as [[v|]|]; simpl; try (apply Hnew; reflexivity).
  destruct (clock (host w) - sess_last v <? ttl)%Z; simpl; [|apply Hnew; reflexivity].
  rewrite Hset. simpl. eexists _, _. split; [reflexivity|]. simpl.
  rewrite lookup_insert_eq. auto.
Qed.

(** X3. The sampling decision is made once.  After [loadOrCreateSession]
    returned a session [s] on a working localStorage, a later call made less
    than the TTL after it (on a page whose storage still works, and given
    that the stored string parses back to the record) returns the same id
    and the same sampled flag whatever sample rate it is given, and calls
    neither [uuid] nor [Math.random]. *)
Theorem session_survives_reload (rate rate' : Q) (ttl ttl' : Z) (w w1 : World)
    (s : Session) (later : Host) :
  getItemThrows (host w) = false -> setItemThrows (host w) = false ->
  loadOrCreateSession rate ttl w = (Returned s, w1) ->
  getItemThrows later = false -> setItemThrows later = false ->
  clock later - clock (host w) < ttl' ->
  JSON_stringify s <> "" -> JSON_parse (JSON_stringify s) = Ret (PSession s) ->
  exists s' w2,
    loadOrCreateSession rate' ttl' (set_host later w1) = (Returned s', w2) /\
    sess_id s' = sess_id s /\ sess_sampled s' = sess_sampled s /\
    sess_last s' = clock later /\
    randomCalls w2 = randomCalls w1 /\ uuidCalls w2 = uuidCalls w1.
Proof.
  intros Hget Hset Hrun Hget' Hset' Hage Hne Hparse.
  destruct (loadOrCreateSession_persists rate ttl w Hget Hset)
    as (s0 & w0 & Hrun0 & Hh & Hlast & Hls).
  rewrite Hrun in Hrun0. injection Hrun0 as <- <-.
  destruct (loadOrCreateSession_live rate' ttl' (set_host later w1)
              (JSON_stringify s) s) as (w2 & Hrun2 & Hr & Hu & _ & _);
    simpl; auto.
  { rewrite Hlast. exact Hage. }
  exists (with_last (clock later) s), w2.
  split; [exact Hrun2|]. simpl in *. auto.
Qed.

(** X4. Activity extends a session.  With a session record in storage,
    however old, [refreshSessionActivity] on a working localStorage stamps it
    with the current time, so that a [loadOrCreateSession] made less than the
    TTL later returns the same id and sampled flag. *)
Theorem activity_extends_session (rate : Q) (ttl : Z) (w : World) (raw : string)
    (v : Session) (later : Host) :
  getItemThrows (host w) = false -> setItemThrows (host w) = false ->
  localStorage w !! LS_SESSION_KEY = Some raw -> raw <> "" ->
  JSON_parse raw = Ret (PSession v) ->
  getItemThrows later = false -> setItemThrows later = false ->
  clock later - clock (host w) < ttl ->
  JSON_stringify (with_last (clock (host w)) v) <> "" ->
  JSON_parse (JSON_stringify (with_last (clock (host w)) v))
    = Ret (PSession (with_last (clock (host w)) v)) ->
  exists w2,
    loadOrCreateSession rate ttl (set_host later (exec refreshSessionActivity w))
      = (Returned {| sess_id := sess_id v; sess_sampled := sess_sampled v;
                     sess_last := clock later |}, w2).
Proof.
  intros Hget Hset Hraw Hne Hparse Hget' Hset' Hage Hne' Hparse'.
  unfold exec. rewrite (refreshSessionActivity_run w raw v Hget Hraw Hne Hparse).
  cbv zeta. rewrite Hset. simpl.
  destruct (loadOrCreateSession_live rate ttl
              (set_host later
                 (set_localStorage
                    (<[LS_SESSION_KEY:=JSON_stringify (with_last (clock (host w)) v)]>
                       (localStorage w))
                    (set_calls
                       (calls w ++
                        [{| call := CallSetItem LS_SESSION_KEY
                                      (JSON_stringify (with_last (clock (host w)) v));
                            threw := false |}]) w)))
              (JSON_stringify (with_last (clock (host w)) v))
              (with_last (clock (host w)) v))
    as (w2 & Hrun2 & _); simpl; auto.
  { apply lookup_insert_eq. }
  exists w2. exact Hrun2.
Qed.

(* ===================== The buffer over a lifetime ===================== *)

Lemma batchLimit_pos st0 : 1 <= batchLimit st0.
Proof. unfold batchLimit. lia. Qed.

Lemma bufferInvariant_loosen t n st0 w :
  bufferInvariant t 0 n st0 w -> bufferInvariant t 1 n st0 w.
Proof.
  intros (st & Hcur & Hsame & Hqb & Hcap & Hlen & Hrest).
  exists st. repeat (split; [assumption|]). split; [lia | exact Hrest].
Qed.

(** Closes the goals left by a step that touches neither the queue, its
    counter, the ids, the limits nor the transports. *)
Ltac buffer_leaf :=
  match goal with
  | H : bufferInvariant ?t ?k ?n ?st0 ?w |- bufferInvariant ?t ?k ?n ?st0 _ =>
      let st := fresh "st" in
      let Hc := fresh "Hc" in
      let Hrest := fresh "Hrest" in
      destruct H as (st & Hc & Hrest);
      unfold bufferInvariant, sameInstance, callsSince in *;
      simpl; rewrite ?Hc; simpl;
      eexists; (split; [reflexivity|]); simpl;
      first [ exact Hrest
            | destruct Hrest as (? & ? & ? & ? & ? & ? & ?);
              repeat (split; [assumption|]);
              rewrite skipn_app; apply Forall_app; split; [assumption|];
              apply Forall_drop; repeat constructor ]
  end.

(** A flush sends the queue as one batch, or nothing when it is empty. *)
Lemma flushQueue_buffer t n st0 b :
  triple (bufferInvariant t 1 n st0) (flushQueue b)
    (fun _ => bufferInvariant t 0 n st0) (bufferInvariant t 0 n st0).
Proof.
  intros w (st & Hcur & Hsame & Hqb & Hcap & Hlen & Hun & Htag & Hcalls).
  pose proof (batchLimit_pos st0) as Hpos.
  destruct (queue st) as [|e q] eqn:Hq.
  - rewrite flushQueue_noop by (intros; congruence).
    exists st. rewrite Hq. repeat (split; [assumption|]).
    split; [simpl; lia|]. repeat (split; [assumption|]). exact Hcalls.
  - rewrite (flushQueue_drains b w st Hcur) by congruence. cbv zeta.
    assert (Hsam : sampled st0 = true).
    { destruct (sampled st0); [reflexivity|].
      destruct (Hun eq_refl) as [Hnil _]. discriminate. }
    assert (Hown : forall c, payloadOf c = Some (makePayload st (clock (host w))) ->
                     ownBatch t st0 c).
    { intros c Hc. unfold ownBatch. rewrite Hc. simpl. rewrite Hq.
      destruct Hsame as (Hsid & Hdid & _).
      split; [exact Hsam|]. split; [discriminate|].
      split; [lia|]. split; [exact Hsid|]. split; [exact Hdid|].
      intros Ht. apply Htag, Ht. }
    eexists. split; [reflexivity|]. simpl.
    split; [exact Hsame|]. split; [reflexivity|]. split; [intros H0; exact H0|].
    split; [lia|]. split; [intros Hs0; congruence|].
    split; [intros Ht; destruct (Htag Ht); split; [assumption | constructor]|].
    unfold callsSince in *. simpl. rewrite skipn_app.
    apply Forall_app. split; [exact Hcalls|]. apply Forall_drop.
    destruct (b && hasSendBeacon (host w)); [destruct (sendBeaconThrows (host w))|];
      repeat (apply List.Forall_cons; [apply Hown; reflexivity|]); apply List.Forall_nil.
Qed.

Lemma flushQueue_buffer0 t n st0 b : preserves (bufferInvariant t 0 n st0) (flushQueue b).
Proof.
  intros w Hw. apply (flushQueue_buffer t n st0 b w).
  apply bufferInvariant_loosen, Hw.
Qed.

(** The append of [enqueue], before its batch check. *)
Lemma append_buffer t n st0 e w st :
  current w = Some st -> bufferInvariant t 0 n st0 w -> sampled st = true ->
  (t = true -> ownEvent st0 e) ->
  queueBytes st + blobSize e <= maxQueueBytes (config st) ->
  bufferInvariant t 1 n st0
    (set_current (Some (set_queue (queue st ++ [e]) (queueBytes st + blobSize e) st)) w).
Proof.
  intros Hcur (st' & Hcur' & Hsame & Hqb & Hcap & Hlen & Hun & Htag & Hcalls) Hs He Hfit.
  assert (st' = st) as -> by congruence.
  pose proof Hsame as (_ & _ & Hsam & _ & Hmq & _).
  eexists. split; [reflexivity|]. simpl.
  split; [exact Hsame|].
  split; [rewrite bufferedBytes_snoc, Hqb; reflexivity|].
  split; [intros _; rewrite <- Hmq; exact Hfit|].
  split; [rewrite length_app; simpl; lia|].
  split; [intros Hs0; congruence|].
  split; [|exact Hcalls].
  intros Ht. destruct (Htag Ht) as (Hhook & Hq). split; [exact Hhook|].
  apply Forall_app. split; [exact Hq|]. constructor; [auto | constructor].
Qed.

Lemma enqueue_tail_buffer t n st0 e w1 st1 :
  current w1 = Some st1 -> bufferInvariant t 0 n st0 w1 -> sampled st1 = true ->
  (t = true -> ownEvent st0 e) ->
  bufferInvariant t 0 n st0
    (if (queueBytes st1 + blobSize e <=? maxQueueBytes (config st1))%Z then
       let st2 := set_queue (queue st1 ++ [e]) (queueBytes st1 + blobSize e) st1 in
       let w2 := set_current (Some st2) w1 in
       if (Z.of_nat (length (queue st2)) >=? batchMax (config st2))%Z
       then exec (flushQueue false) w2 else w2
     else w1).
Proof.
  intros Hcur Hinv Hs He.
  destruct (queueBytes st1 + blobSize e <=? maxQueueBytes (config st1))%Z eqn:Hfit;
    [|exact Hinv].
  apply Z.leb_le in Hfit. cbv zeta.
  pose proof (append_buffer t n st0 e w1 st1 Hcur Hinv Hs He Hfit) as Happ.
  match goal with |- context [if ?c then _ else _] => destruct c eqn:Hfull end.
  - unfold exec.
    pose proof (flushQueue_buffer t n st0 false _ Happ) as Hfl.
    match goal with
    | |- context [flushQueue false ?x] => destruct (flushQueue false x) as [[a|err] w']
    end; exact Hfl.
  - destruct Happ as (st2 & Hcur2 & Hsame & Hqb & Hcap & Hlen & Hrest).
    injection Hcur2 as <-.
    eexists. split; [reflexivity|]. split; [exact Hsame|]. split; [exact Hqb|].
    split; [exact Hcap|]. split; [|exact Hrest].
    destruct Hsame as (_ & _ & _ & Hbm & _). simpl in Hbm.
    rewrite Z.geb_leb in Hfull. apply Z.leb_gt in Hfull. simpl in Hfull |- *.
    unfold batchLimit. rewrite <- Hbm. lia.
Qed.

Lemma enqueue_buffer t n st0 e :
  (t = true -> ownEvent st0 e) -> preserves (bufferInvariant t 0 n st0) (enqueue e).
Proof.
  intros He w Hinv. pose proof Hinv as (st & Hcur & Hsame & _).
  destruct (sampled st) eqn:Hs.
  - rewrite (enqueue_run e w st Hcur Hs). cbv zeta.
    destruct (queueBytes st + blobSize e <=? maxQueueBytes (config st))%Z eqn:Hfits.
    + pose proof (enqueue_tail_buffer t n st0 e w st Hcur Hinv Hs He) as Htail.
      rewrite Hfits in Htail. cbv zeta in Htail. rewrite Hfits. exact Htail.
    + pose proof (preserves_exec _ _ w (flushQueue_buffer0 t n st0 false) Hinv) as Hinv1.
      pose proof (flushQueue_current false w st Hcur) as Hcur1.
      set (w1 := exec (flushQueue false) w) in *.
      set (st1 := match queue st with [] => st | _ :: _ => set_queue [] 0 st end) in *.
      assert (Hs1 : sampled st1 = true) by (subst st1; destruct (queue st); exact Hs).
      assert (Hcfg1 : config st1 = config st) by (subst st1; destruct (queue st); reflexivity).
      pose proof (enqueue_tail_buffer t n st0 e w1 st1 Hcur1 Hinv1 Hs1 He) as Htail.
      rewrite Hcfg1 in Htail. exact Htail.
  - unfold enqueue, bind, get, ret. simpl. rewrite Hcur, Hs. exact Hinv.
Qed.

Lemma dispatch_buffer t n st0 e :
  (t = true -> ownEvent st0 e) -> preserves (bufferInvariant t 0 n st0) (dispatch e).
Proof.
  intros He w Hinv.
  pose proof Hinv as (st & Hcur & Hsame & _ & _ & _ & _ & Htag & _).
  unfold dispatch. unfold bind at 1, get at 1. rewrite Hcur.
  destruct (beforeSend (config st)) as [hook|] eqn:Hbs.
  - destruct (hook e) as [[e'|]|] eqn:Hhk; unfold bind, ret, throw; simpl; try exact Hinv.
    apply (enqueue_buffer t n st0 e'); [|exact Hinv].
    intros Ht. destruct (Htag Ht) as (Hhook & _).
    destruct Hsame as (_ & _ & _ & _ & _ & Hbs0). rewrite Hbs in Hbs0.
    destruct (Hhook hook (eq_sym Hbs0) e e' Hhk) as (H1 & H2).
    destruct (He Ht) as (H3 & H4). split; congruence.
  - unfold bind, ret. simpl. apply (enqueue_buffer t n st0 e He w Hinv).
Qed.

Lemma buffer_after_nextSeq t n st0 w st :
  bufferInvariant t 0 n st0 w -> current w = Some st -> sampled st = true ->
  bufferInvariant t 0 n st0 (set_current (Some (set_seq (seq st + 1) st)) w).
Proof.
  intros (st' & Hcur' & Hsame & Hqb & Hcap & Hlen & Hun & Hrest) Hcur Hs.
  assert (st' = st) as -> by congruence.
  eexists. split; [reflexivity|]. simpl.
  repeat (split; [assumption|]). split; [|exact Hrest].
  intros Hs0. destruct Hsame as (_ & _ & Hsam & _). congruence.
Qed.

Lemma trackEvent_own name data w st :
  current w = Some st -> sampled st = true ->
  exists e,
    ev_sessionId e = sessionId st /\ ev_deviceId e = deviceId st /\
    trackEvent name data w =
      dispatch e (set_current (Some (set_seq (seq st + 1) st)) w).
Proof.
  intros Hcur Hs.
  destruct (baseContext_pure (set_current (Some (set_seq (seq st + 1) st)) w))
    as (c & Hc).
  unfold trackEvent, now, current_, bind, get, ret. simpl.
  rewrite Hcur, Hs. simpl. rewrite Hcur. rewrite (nextSeq_started w st Hcur).
  rewrite Hc. eexists. split; [|split; [|reflexivity]]; reflexivity.
Qed.

Lemma trackError_own err source w st :
  current w = Some st -> sampled st = true ->
  exists e,
    ev_sessionId e = sessionId st /\ ev_deviceId e = deviceId st /\
    trackError err source w =
      dispatch e (set_current (Some (set_seq (seq st + 1) st)) w).
Proof.
  intros Hcur Hs.
  destruct (baseContext_pure (set_current (Some (set_seq (seq st + 1) st)) w))
    as (c & Hc).
  unfold trackError, now, current_, bind, get, ret. simpl.
  rewrite Hcur, Hs. simpl.
  destruct err; simpl; rewrite Hcur; rewrite (nextSeq_started w st Hcur);
    rewrite Hc; eexists; (split; [|split; [|reflexivity]]); reflexivity.
Qed.

Lemma collectorEmit_own ty fields w st :
  current w = Some st -> sampled st = true ->
  exists e,
    ev_sessionId e = sessionId st /\ ev_deviceId e = deviceId st /\
    collectorEmit ty fields w =
      dispatch e (set_current (Some (set_seq (seq st + 1) st)) w).
Proof.
  intros Hcur Hs.
  destruct (baseContext_pure (set_current (Some (set_seq (seq st + 1) st)) w))
    as (c & Hc).
  unfold collectorEmit, now, current_, bind, get, ret. simpl.
  rewrite Hcur, Hs. simpl. rewrite Hcur. rewrite (nextSeq_started w st Hcur).
  rewrite Hc. eexists. split; [|split; [|reflexivity]]; reflexivity.
Qed.

Lemma trackPageView_own extra_ navType w st :
  current w = Some st -> sampled st = true ->
  exists e,
    ev_sessionId e = sessionId st /\ ev_deviceId e = deviceId st /\
    trackPageView extra_ navType w =
      (dispatch e;; modify (set_hasSentInitialPV true))
        (set_current (Some (set_seq (seq st + 1) st)) w).
Proof.
  intros Hcur Hs.
  destruct (baseContext_pure w) as (c & Hc).
  unfold trackPageView, now, current_, bind, get, ret. simpl.
  rewrite Hcur, Hs. simpl. rewrite Hc. rewrite Hcur.
  rewrite (nextSeq_started w st Hcur).
  eexists. split; [|split; [|reflexivity]]; reflexivity.
Qed.

Lemma own_of_same t st0 st e :
  sameInstance st0 st -> ev_sessionId e = sessionId st -> ev_deviceId e = deviceId st ->
  t = true -> ownEvent st0 e.
Proof. intros (H1 & H2 & _) H3 H4 _. split; congruence. Qed.

Lemma trackEvent_buffer t n st0 name data :
  preserves (bufferInvariant t 0 n st0) (trackEvent name data).
Proof.
  intros w Hinv. pose proof Hinv as (st & Hcur & Hsame & _).
  destruct (sampled st) eqn:Hs.
  - destruct (trackEvent_own name data w st Hcur Hs) as (e & H1 & H2 & ->).
    apply dispatch_buffer; [eapply own_of_same; eauto|].
    apply buffer_after_nextSeq; auto.
  - unfold trackEvent, bind, get, ret. simpl. rewrite Hcur, Hs. exact Hinv.
Qed.

Lemma trackError_buffer t n st0 err source :
  preserves (bufferInvariant t 0 n st0) (trackError err source).
Proof.
  intros w Hinv. pose proof Hinv as (st & Hcur & Hsame & _).
  destruct (sampled st) eqn:Hs.
  - destruct (trackError_own err source w st Hcur Hs) as (e & H1 & H2 & ->).
    apply dispatch_buffer; [eapply own_of_same; eauto|].
    apply buffer_after_nextSeq; auto.
  - unfold trackError, bind, get, ret. simpl. rewrite Hcur, Hs. exact Hinv.
Qed.

Lemma collectorEmit_buffer t n st0 ty fields :
  preserves (bufferInvariant t 0 n st0) (collectorEmit ty fields).
Proof.
  intros w Hinv. pose proof Hinv as (st & Hcur & Hsame & _).
  destruct (sampled st) eqn:Hs.
  - destruct (collectorEmit_own ty fields w st Hcur Hs) as (e & H1 & H2 & ->).
    apply dispatch_buffer; [eapply own_of_same; eauto|].
    apply buffer_after_nextSeq; auto.
  - unfold collectorEmit, bind, get, ret. simpl. rewrite Hcur, Hs. exact Hinv.
Qed.

Lemma trackPageView_buffer t n st0 extra_ navType :
  preserves (bufferInvariant t 0 n st0) (trackPageView extra_ navType).
Proof.
  intros w Hinv. pose proof Hinv as (st & Hcur & Hsame & _).
  destruct (sampled st) eqn:Hs.
  - destruct (trackPageView_own extra_ navType w st Hcur Hs) as (e & H1 & H2 & ->).
    assert (Ht : preserves (bufferInvariant t 0 n st0)
                   (dispatch e;; modify (set_hasSentInitialPV true))).
    { apply preserves_bind; [apply dispatch_buffer; eapply own_of_same; eauto|].
      intros u. apply preserves_modify. intros w' Hw'. buffer_leaf. }
    apply Ht. apply buffer_after_nextSeq; auto.
  - unfold trackPageView, bind, get, ret. simpl. rewrite Hcur, Hs. exact Hinv.
Qed.

Lemma refreshSessionActivity_buffer t n st0 :
  preserves (bufferInvariant t 0 n st0) refreshSessionActivity.
Proof. autounfold with js. repeat pres_step; buffer_leaf. Qed.

Lemma clearInterval_buffer t n st0 i : preserves (bufferInvariant t 0 n st0) (clearInterval i).
Proof. autounfold with js. repeat pres_step; buffer_leaf. Qed.

Lemma identify_buffer t n st0 u tr : preserves (bufferInvariant t 0 n st0) (identify u tr).
Proof. autounfold with js. repeat pres_step; buffer_leaf. Qed.

Lemma setContext_buffer t n st0 x : preserves (bufferInvariant t 0 n st0) (setContext x).
Proof. autounfold with js. repeat pres_step; buffer_leaf. Qed.

Lemma setRouteManifest_buffer t n st0 r :
  preserves (bufferInvariant t 0 n st0) (setRouteManifest r).
Proof. autounfold with js. repeat pres_step; buffer_leaf. Qed.

Lemma setPathNormalizer_buffer t n st0 f :
  preserves (bufferInvariant t 0 n st0) (setPathNormalizer f).
Proof. autounfold with js. repeat pres_step; buffer_leaf. Qed.

Lemma runHandler_buffer t n st0 h d : preserves (bufferInvariant t 0 n st0) (runHandler h d).
Proof.
  destruct h; simpl.
  - apply preserves_bind; [apply refreshSessionActivity_buffer|].
    intros _. apply flushQueue_buffer0.
  - apply preserves_bind; [apply preserves_get | intros w].
    destruct (visibilityHidden (host w));
      [apply flushQueue_buffer0 | apply preserves_ret].
  - apply refreshSessionActivity_buffer.
  - destruct d; apply trackError_buffer.
  - destruct d; apply trackError_buffer.
Qed.

Lemma dispatchEvent_buffer t n st0 evt d :
  preserves (bufferInvariant t 0 n st0) (dispatchEvent evt d).
Proof.
  unfold dispatchEvent. apply preserves_bind; [apply preserves_get | intros w].
  apply preserves_forEach. intros e.
  apply preserves_try_catch; [apply runHandler_buffer | apply preserves_ret].
Qed.

Lemma pageHideSignal_buffer t n st0 : preserves (bufferInvariant t 0 n st0) pageHideSignal.
Proof.
  unfold pageHideSignal. apply preserves_bind; [|intros _; apply dispatchEvent_buffer].
  apply preserves_modify. intros w Hw. buffer_leaf.
Qed.

Lemma runTimer_buffer t n st0 i : preserves (bufferInvariant t 0 n st0) (runTimer i).
Proof.
  unfold runTimer. apply preserves_bind; [apply preserves_get | intros w].
  destruct (snd <$> list_find (fun e => e.1 = i) (timers w)) as [[j []]|].
  - apply flushQueue_buffer0.
  - destruct (routeManifestReady w && negb (hasSentInitialPV w));
      [|apply preserves_ret].
    apply preserves_bind; [apply clearInterval_buffer | intros _].
    apply trackPageView_buffer.
  - apply preserves_bind; [apply clearInterval_buffer | intros _].
    destruct (negb (hasSentInitialPV w)); [|apply preserves_ret].
    apply preserves_bind; [apply clearInterval_buffer | intros _].
    apply trackPageView_buffer.
  - apply preserves_ret.
  - apply preserves_ret.
Qed.

Lemma perform_buffer t n st0 a : preserves (bufferInvariant t 0 n st0) (perform a).
Proof.
  destruct a; simpl.
  - apply trackPageView_buffer.
  - apply trackEvent_buffer.
  - apply trackError_buffer.
  - apply collectorEmit_buffer.
  - apply identify_buffer.
  - apply setContext_buffer.
  - apply flushQueue_buffer0.
  - intros w Hinv. pose proof Hinv as (st & Hcur & _).
    unfold startRum, bind, get, ret. simpl. rewrite Hcur. exact Hinv.
  - apply setRouteManifest_buffer.
  - apply setPathNormalizer_buffer.
  - apply dispatchEvent_buffer.
  - apply pageHideSignal_buffer.
  - apply runTimer_buffer.
  - apply preserves_modify. intros w Hw. buffer_leaf.
Qed.

Lemma run_buffer t n st0 actions w :
  bufferInvariant t 0 n st0 w -> bufferInvariant t 0 n st0 (execAll perform actions w).
Proof. apply preserves_execAll. intros a. apply perform_buffer. Qed.

(* ===================== From startup on ===================== *)

Ltac quiet_leaf :=
  match goal with
  | H : storageCallsSince ?n ?w |- storageCallsSince ?n _ =>
      unfold storageCallsSince, callsSince in *; simpl;
      destruct H as [? ?]; split; [assumption|];
      first [ assumption
            | rewrite skipn_app; apply Forall_app; split; [assumption|];
              apply Forall_drop; repeat constructor ]
  end.

Lemma quiet_getOrCreateDeviceId n : preserves (storageCallsSince n) getOrCreateDeviceId.
Proof. autounfold with js. repeat pres_step; quiet_leaf. Qed.

Lemma quiet_loadOrCreateSession n rate ttl :
  preserves (storageCallsSince n) (loadOrCreateSession rate ttl).
Proof. autounfold with js. repeat pres_step; quiet_leaf. Qed.

Lemma preserves_running t n cfg {A} (m : Js A) :
  (forall st0, preserves (bufferInvariant t 0 n st0) m) ->
  preserves (runningFrom t n cfg) m.
Proof.
  intros Hm w (st0 & Hinv & Hf). specialize (Hm st0 w Hinv).
  destruct (m w) as [[a|e] w']; exists st0; auto.
Qed.

Ltac running_leaf :=
  match goal with
  | H : runningFrom ?t ?n ?cfg ?w |- runningFrom ?t ?n ?cfg _ =>
      let st0 := fresh "st0" in
      let Hi := fresh "Hi" in
      let Hf := fresh "Hf" in
      destruct H as (st0 & Hi & Hf); exists st0; split; [buffer_leaf | exact Hf]
  end.

(** A first [startRum] sets up the invariant, whatever is stored and
    whatever the configuration. *)
Lemma startRum_running t cfg w0 :
  current w0 = None ->
  (t = true -> forall hook, cfg_beforeSend cfg = Some hook -> idsKept hook) ->
  runningFrom t (length (calls w0)) cfg (exec (startRum cfg) w0).
Proof.
  intros Hcur Hhook. set (n := length (calls w0)).
  assert (Hquiet : storageCallsSince n w0).
  { split; [exact Hcur|]. unfold callsSince, n. rewrite drop_all. constructor. }
  assert (H : triple (eq w0) (startRum cfg)
                (fun _ => runningFrom t n cfg) (runningFrom t n cfg)).
  { unfold startRum. intros w <-. unfold bind at 1, get at 1. rewrite Hcur.
    apply triple_at.
    eapply triple_bind with
      (R := fun c w => w = w0 /\ beforeSend c = cfg_beforeSend cfg /\
              batchMax c = nullish (cfg_batchMax cfg) DEFAULT_BATCH_MAX /\
              maxQueueBytes c = nullish (cfg_maxQueueBytes cfg) DEFAULT_MAX_QUEUE_BYTES).
    { intros w <-. unfold applyDefaults, bind, get, ret. simpl. auto. }
    intros c.
    eapply triple_bind with
      (R := fun _ w => storageCallsSince n w /\ beforeSend c = cfg_beforeSend cfg /\
              batchMax c = nullish (cfg_batchMax cfg) DEFAULT_BATCH_MAX /\
              maxQueueBytes c = nullish (cfg_maxQueueBytes cfg) DEFAULT_MAX_QUEUE_BYTES).
    { apply triple_returns_any. intros w (-> & Hc).
      pose proof (triple_preserves_returns _ _ (quiet_getOrCreateDeviceId n)
                    returns_getOrCreateDeviceId w0 Hquiet) as Ht.
      destruct (getOrCreateDeviceId w0) as [[a|e] w']; tauto. }
    intros dev.
    eapply triple_bind with
      (R := fun _ w => storageCallsSince n w /\ beforeSend c = cfg_beforeSend cfg /\
              batchMax c = nullish (cfg_batchMax cfg) DEFAULT_BATCH_MAX /\
              maxQueueBytes c = nullish (cfg_maxQueueBytes cfg) DEFAULT_MAX_QUEUE_BYTES).
    { apply triple_returns_any. intros w (Hst & Hc).
      pose proof (triple_preserves_returns _ _
                    (quiet_loadOrCreateSession n (sampleRate c) (sessionTtlMs c))
                    (returns_loadOrCreateSession _ _) w Hst) as Ht.
      destruct (loadOrCreateSession (sampleRate c) (sessionTtlMs c) w) as [[a|e] w'];
        tauto. }
    intros sess.
    eapply triple_bind with (R := fun _ => runningFrom t n cfg).
    { apply triple_modify. intros w ((_ & Hcalls) & Hbs & Hbm & Hmq).
      eexists. split.
      { eexists. split; [reflexivity|].
        split; [unfold sameInstance; repeat split; reflexivity|]. simpl.
        split; [reflexivity|].
        split; [intros H0; exact H0|].
        split; [unfold batchLimit; lia|]. split; [auto|].
        split.
        { intros Ht. split; [|constructor]. simpl. rewrite Hbs. exact (Hhook Ht). }
        unfold callsSince in *. simpl.
        eapply Forall_impl; [exact Hcalls|].
        intros x Hx. unfold ownBatch. rewrite Hx. exact I. }
      simpl. split; [exact Hbm | exact Hmq]. }
    intros u.
    match goal with |- triple ?P ?m _ _ => change (preserves P m) end.
    autounfold with js.
    repeat (first [ apply preserves_running; intros; apply trackPageView_buffer
                  | pres_step ]); running_leaf. }
  unfold exec. specialize (H w0 eq_refl).
  destruct (startRum cfg w0) as [[a|e] w']; exact H.
Qed.

(** The instance created by a first [startRum], and the invariant it keeps
    whatever happens next. *)
Lemma lifetime_buffer t cfg actions w0 :
  current w0 = None ->
  (t = true -> forall hook, cfg_beforeSend cfg = Some hook -> idsKept hook) ->
  exists st0,
    bufferInvariant t 0 (length (calls w0)) st0 (exec (startRum cfg) w0) /\
    bufferInvariant t 0 (length (calls w0)) st0
      (execAll perform actions (exec (startRum cfg) w0)) /\
    batchMax (config st0) = nullish (cfg_batchMax cfg) DEFAULT_BATCH_MAX /\
    maxQueueBytes (config st0) = nullish (cfg_maxQueueBytes cfg) DEFAULT_MAX_QUEUE_BYTES.
Proof.
  intros Hcur Hhook.
  destruct (startRum_running t cfg w0 Hcur Hhook) as (st0 & Hinv & Hbm & Hmq).
  exists st0. split; [exact Hinv|]. split; [apply run_buffer, Hinv|]. auto.
Qed.

Lemma getSessionInfo_started w st :
  current w = Some st ->
  getSessionInfo w =
    (Returned (Some {| si_sessionId := sessionId st; si_deviceId := deviceId st;
                       si_sampled := sampled st |}), w).
Proof. intros Hcur. unfold getSessionInfo, bind, get, ret. simpl. rewrite Hcur. reflexivity. Qed.

(** X5. From a first [startRum] on, whatever happens (API calls, collectors,
    browser events, timers, a changing host), between two actions the byte
    counter is the serialized size of the queued events, that size is within
    [maxQueueBytes] when the cap is not negative, and the queue holds fewer
    events than [batchMax] (fewer than one, that is none, when [batchMax] is
    below one). *)
Theorem queue_bounds_over_lifetime (cfg : RumConfig) (actions : list Action) (w0 : World) :
  current w0 = None ->
  let cap := nullish (cfg_maxQueueBytes cfg) DEFAULT_MAX_QUEUE_BYTES in
  let limit := Z.max 1 (nullish (cfg_batchMax cfg) DEFAULT_BATCH_MAX) in
  exists st,
    current (execAll perform actions (exec (startRum cfg) w0)) = Some st /\
    queueBytes st = bufferedBytes (queue st) /\
    (0 <= cap -> bufferedBytes (queue st) <= cap) /\
    Z.of_nat (length (queue st)) < limit.
Proof.
  intros Hcur cap limit.
  destruct (lifetime_buffer false cfg actions w0 Hcur) as (st0 & _ & Hinv & Hbm & Hmq);
    [discriminate|].
  destruct Hinv as (st & Hst & _ & Hqb & Hcap & Hlen & _).
  exists st. split; [exact Hst|]. split; [exact Hqb|].
  unfold batchLimit in Hlen. rewrite Hbm in Hlen. rewrite Hmq in Hcap.
  split; [rewrite <- Hqb; exact Hcap | subst limit; lia].
Qed.

(** X6. Every request made since a first [startRum], by [sendBeacon] or by
    [fetch], carries at least one event and at most [batchMax] events (one
    when [batchMax] is below one): no empty request is sent, and no batch
    outgrows the limit whatever triggered the flush. *)
Theorem requests_are_bounded_batches (cfg : RumConfig) (actions : list Action)
    (w0 : World) :
  current w0 = None ->
  let limit := Z.max 1 (nullish (cfg_batchMax cfg) DEFAULT_BATCH_MAX) in
  Forall (fun c => forall p, payloadOf c = Some p ->
            p_events p <> [] /\ Z.of_nat (length (p_events p)) <= limit)
    (callsSince (length (calls w0))
       (execAll perform actions (exec (startRum cfg) w0))).
Proof.
  intros Hcur limit.
  destruct (lifetime_buffer false cfg actions w0 Hcur) as (st0 & _ & Hinv & Hbm & Hmq);
    [discriminate|].
  destruct Hinv as (st & _ & _ & _ & _ & _ & _ & _ & Hcalls).
  eapply Forall_impl; [exact Hcalls|].
  intros c Hc p Hp. unfold ownBatch in Hc. rewrite Hp in Hc.
  destruct Hc as (_ & Hne & Hlen & _). split; [exact Hne|].
  unfold batchLimit in Hlen. rewrite Hbm in Hlen. exact Hlen.
Qed.

(** X7. What [getSessionInfo] answers right after a first [startRum] is
    what it answers for the rest of the lifetime: nothing that can happen
    changes the session id, the device id or the sampling decision of a
    running instance (a session that expires in storage meanwhile is not
    picked up). *)
Theorem session_info_stable (cfg : RumConfig) (actions : list Action) (w0 : World) :
  current w0 = None ->
  exists info,
    outcome getSessionInfo (exec (startRum cfg) w0) = Returned (Some info) /\
    outcome getSessionInfo (execAll perform actions (exec (startRum cfg) w0))
      = Returned (Some info).
Proof.
  intros Hcur.
  destruct (lifetime_buffer false cfg actions w0 Hcur) as (st0 & Hinv1 & Hinv & _);
    [discriminate|].
  destruct Hinv1 as (st1 & Hst1 & (H1 & H2 & H3 & _) & _).
  destruct Hinv as (st & Hst & (H4 & H5 & H6 & _) & _).
  unfold outcome.
  rewrite (getSessionInfo_started _ st1 Hst1), (getSessionInfo_started _ st Hst).
  eexists. split; [reflexivity|]. simpl. congruence.
Qed.

(** X8. With a [beforeSend] hook that is absent or keeps the session and
    device ids of the events it returns, every request made since a first
    [startRum] is sent under the ids [getSessionInfo] reports, and every
    event in those requests and in the queue is stamped with the same ids. *)
Theorem requests_carry_instance_ids (cfg : RumConfig) (actions : list Action)
    (w0 : World) :
  current w0 = None ->
  (forall hook, cfg_beforeSend cfg = Some hook -> idsKept hook) ->
  let w := execAll perform actions (exec (startRum cfg) w0) in
  exists info st,
    outcome getSessionInfo w = Returned (Some info) /\ current w = Some st /\
    let own e := ev_sessionId e = si_sessionId info /\ ev_deviceId e = si_deviceId info in
    Forall own (queue st) /\
    Forall (fun c => forall p, payloadOf c = Some p ->
              p_sessionId p = si_sessionId info /\ p_deviceId p = si_deviceId info /\
              Forall own (p_events p))
      (callsSince (length (calls w0)) w).
Proof.
  intros Hcur Hhook w.
  destruct (lifetime_buffer true cfg actions w0 Hcur) as (st0 & _ & Hinv & _);
    [intros _; exact Hhook|].
  destruct Hinv as (st & Hst & (H1 & H2 & _) & _ & _ & _ & _ & Htag & Hcalls).
  destruct (Htag eq_refl) as (_ & Hq).
  fold w in Hst, Hcalls.
  eexists _, st. unfold outcome. rewrite (getSessionInfo_started _ st Hst).
  split; [reflexivity|]. split; [exact Hst|]. simpl.
  assert (Hown : forall l, Forall (ownEvent st0) l ->
            Forall (fun e => ev_sessionId e = sessionId st /\ ev_deviceId e = deviceId st) l).
  { intros l Hl. eapply Forall_impl; [exact Hl|].
    intros e (H3 & H4). split; congruence. }
  split; [apply Hown, Hq|].
  eapply Forall_impl; [exact Hcalls|].
  intros c Hc p Hp. unfold ownBatch in Hc. rewrite Hp in Hc.
  destruct Hc as (_ & _ & _ & H3 & H4 & H5).
  split; [congruence|]. split; [congruence|]. apply Hown, H5. reflexivity.
Qed.

(** X9. An instance whose session is not sampled stays inert: whatever is
    called and whatever the browser delivers afterwards, its queue stays
    empty, its sequence counter stays at zero and it makes no request. *)
Theorem unsampled_session_is_inert (cfg : RumConfig) (actions : list Action)
    (w0 : World) (info : SessionInfo) :
  current w0 = None ->
  outcome getSessionInfo (exec (startRum cfg) w0) = Returned (Some info) ->
  si_sampled info = false ->
  let w := execAll perform actions (exec (startRum cfg) w0) in
  exists st,
    current w = Some st /\ queue st = [] /\ queueBytes st = 0 /\ seq st = 0 /\
    transportsSince (length (calls w0)) w = [].
Proof.
  intros Hcur Hinfo Hs w.
  destruct (lifetime_buffer false cfg actions w0 Hcur) as (st0 & Hinv1 & Hinv & _);
    [discriminate|].
  destruct Hinv1 as (st1 & Hst1 & (_ & _ & H3 & _) & _).
  unfold outcome in Hinfo. rewrite (getSessionInfo_started _ st1 Hst1) in Hinfo.
  simpl in Hinfo. injection Hinfo as <-. simpl in Hs.
  assert (Hs0 : sampled st0 = false) by congruence.
  destruct Hinv as (st & Hst & _ & Hqb & _ & _ & Hun & _ & Hcalls).
  destruct (Hun Hs0) as (Hq & Hseq).
  exists st. split; [exact Hst|]. split; [exact Hq|].
  split; [rewrite Hqb, Hq; reflexivity|]. split; [exact Hseq|].
  unfold transportsSince. fold w in Hcalls.
  induction Hcalls as [|c l Hc _ IH]; [reflexivity|]. simpl.
  unfold ownBatch in Hc. unfold isTransport. unfold payloadOf in Hc.
  destruct (call c); [exact IH| |]; destruct Hc as (Hc & _); congruence.
Qed.

(* ===================== Transport failure; shutdown ===================== *)

(** X10. A flush never retries and never keeps what it could not send: when
    every transport call it makes raises ([fetch] raises, and so does
    [sendBeacon] where it is used), [flushQueue] still returns, the queue is
    empty afterwards and nothing was delivered: the events are lost. *)
Theorem flush_failure_loses_events (b : bool) (w : World) (st : InternalState) :
  current w = Some st -> fetchThrows (host w) = true ->
  (b && hasSendBeacon (host w) = true -> sendBeaconThrows (host w) = true) ->
  exists st',
    flushQueue b w = (Returned tt, exec (flushQueue b) w) /\
    current (exec (flushQueue b) w) = Some st' /\
    queue st' = [] /\ seq st' = seq st /\
    transported (exec (flushQueue b) w) = transported w.
Proof.
  intros Hcur Hf Hb.
  split with (match queue st with [] => st | _ :: _ => set_queue [] 0 st end).
  split; [apply returns_unit, returns_flushQueue|].
  split; [apply flushQueue_current, Hcur|].
  destruct (queue st) as [|e q] eqn:Hq.
  - split; [exact Hq|]. split; [reflexivity|].
    unfold exec. rewrite flushQueue_noop by (intros; congruence). reflexivity.
  - split; [reflexivity|]. split; [reflexivity|].
    unfold exec. rewrite (flushQueue_drains b w st Hcur) by congruence. cbv zeta.
    unfold transported. simpl. rewrite map_app, concat_app.
    rewrite Hf. destruct (b && hasSendBeacon (host w)).
    + rewrite (Hb eq_refl). simpl. rewrite app_nil_r. reflexivity.
    + simpl. rewrite app_nil_r. reflexivity.
Qed.

Ltac calls_leaf :=
  match goal with
  | H : calls ?w = ?c /\ localStorage ?w = ?l |- calls _ = ?c /\ localStorage _ = ?l =>
      simpl; exact H
  end.

Lemma returns_runUnsubscriber u : returns (runUnsubscriber u).
Proof. destruct u; simpl; autounfold with js; repeat returns_step. Qed.

Lemma shutdown_run c l :
  triple (fun w => calls w = c /\ localStorage w = l) shutdown
    (fun _ w => (calls w = c /\ localStorage w = l) /\ current w = None)
    (fun _ => False).
Proof.
  unfold shutdown.
  eapply triple_bind; [apply triple_get|]. intros w0.
  eapply triple_bind with (R := fun _ w => calls w = c /\ localStorage w = l).
  { eapply triple_conseq;
      [apply triple_preserves_returns
         with (I := fun w => calls w = c /\ localStorage w = l)
      | intros w [_ H]; exact H | auto | auto].
    - autounfold with js. repeat pres_step; calls_leaf.
    - autounfold with js. repeat returns_step. }
  intros u.
  eapply triple_bind with (R := fun _ w => calls w = c /\ localStorage w = l).
  { apply triple_preserves_returns.
    - destruct (current w0) as [st|]; [|apply preserves_ret].
      apply preserves_forEach. intros x. apply preserves_try_catch; [|apply preserves_ret].
      destruct x; simpl; autounfold with js; repeat pres_step; calls_leaf.
    - destruct (current w0) as [st|]; [|apply returns_ret].
      apply returns_forEach. intros x. apply returns_try_catch, returns_ret. }
  intros u'. apply triple_modify. intros w H. simpl. auto.
Qed.

(** X11. [shutdown] does not flush: it never raises, it ends with no
    instance, and it makes no request and no storage write, so the events
    still queued are discarded with the instance. *)
Theorem shutdown_discards_queue (w : World) :
  exists w',
    shutdown w = (Returned tt, w') /\ current w' = None /\
    calls w' = calls w /\ localStorage w' = localStorage w /\
    transported w' = transported w.
Proof.
  pose proof (shutdown_run (calls w) (localStorage w) w (conj eq_refl eq_refl)) as H.
  destruct (shutdown w) as [[[]|e] w']; [|contradiction].
  destruct H as ((Hc & Hl) & Hcur).
  exists w'. unfold transported. rewrite Hc. auto.
Qed.

(* ===================== User and page context ===================== *)

Lemma baseContext_fields w st :
  current w = Some st ->
  exists c,
    baseContext w = (Returned c, w) /\
    ctx_user c = user st /\ extra c = Some (pageCtxExtra st).
Proof.
  intros Hcur.
  unfold baseContext, safeLocationHref, tryIntlTimeZone, bind, get, try_catch,
    ret, throw. simpl. rewrite Hcur.
  destruct (truthy (pathname (host w))); simpl.
  - destruct (computeNormalizedPath_pure (pathname (host w)) w) as (p & ->).
    destruct (intl_timeZone (host w)); simpl; eauto.
  - destruct (intl_timeZone (host w)); simpl; eauto.
Qed.

Lemma identify_run u traits w st :
  current w = Some st ->
  identify u traits w =
    (Returned tt,
     set_current (Some (set_user (Some (default ∅ traits ∪ {[ "id" := u ]})) st)) w).
Proof.
  intros Hcur. unfold identify, update_current, bind, get, modify, ret. simpl.
  rewrite Hcur. simpl. rewrite Hcur. reflexivity.
Qed.

Lemma setContext_run x w st :
  current w = Some st ->
  setContext x w =
    (Returned tt,
     set_current (Some (set_pageCtxExtra (default ∅ x ∪ pageCtxExtra st) st)) w).
Proof.
  intros Hcur. unfold setContext, update_current, bind, get, modify, ret. simpl.
  rewrite Hcur. simpl. rewrite Hcur. reflexivity.
Qed.

(** X12. [identify] replaces the user of the instance, and an event tracked
    afterwards carries it: its [id] is the [id] of the traits when they have
    one, [userId] otherwise, and every other key is a trait; nothing of the
    previous user is kept. *)
Theorem identify_reaches_next_event (u : string) (traits : option JsRecord)
    (name : string) (data : option string) (w : World) (st : InternalState) :
  current w = Some st -> sampled st = true ->
  exists e w2 usr,
    trackEvent name data (exec (identify u traits) w) = dispatch e w2 /\
    ev_name e = Some name /\
    ctx_user (context e) = Some usr /\
    usr !! "id" = Some (default u (traits ≫= (fun t => t !! "id"))) /\
    (forall k, k <> "id" -> usr !! k = traits ≫= (fun t => t !! k)).
Proof.
  intros Hcur Hs. unfold exec. rewrite (identify_run u traits w st Hcur). simpl.
  set (usr := default ∅ traits ∪ {[ "id" := u ]}).
  set (st1 := set_user (Some usr) st).
  set (w1 := set_current (Some st1) w).
  destruct (baseContext_fields (set_current (Some (set_seq (seq st + 1) st1)) w1)
              (set_seq (seq st + 1) st1) eq_refl) as (c & Hc & Hu & _).
  eexists _, _, usr. split.
  { unfold trackEvent, now, current_, bind, get, ret. simpl. rewrite Hs. simpl.
    rewrite Hc. reflexivity. }
  split; [reflexivity|]. split; [exact Hu|].
  subst usr. split.
  - rewrite lookup_union. destruct traits as [t|]; simpl.
    + destruct (t !! "id"); simpl; [reflexivity|].
      rewrite lookup_singleton_eq. reflexivity.
    + rewrite lookup_empty, lookup_singleton_eq. reflexivity.
  - intros k Hk. rewrite lookup_union, lookup_singleton_ne by congruence.
    destruct traits as [t|]; simpl.
    + destruct (t !! k); reflexivity.
    + rewrite lookup_empty. reflexivity.
Qed.

(** X13. [setContext] merges into the page context of the instance, the new
    keys winning; the [extra] argument of [trackPageView] is merged over
    that context for the one page view it builds, and is not kept. *)
Theorem pageView_extra_over_context (x : option JsRecord) (y : JsRecord)
    (navType : option string) (w : World) (st : InternalState) :
  current w = Some st -> sampled st = true ->
  exists e w2 st2,
    trackPageView (Some y) navType (exec (setContext x) w)
      = (dispatch e;; modify (set_hasSentInitialPV true)) w2 /\
    extra (context e) = Some (y ∪ (default ∅ x ∪ pageCtxExtra st)) /\
    current w2 = Some st2 /\
    pageCtxExtra st2 = default ∅ x ∪ pageCtxExtra st.
Proof.
  intros Hcur Hs. unfold exec. rewrite (setContext_run x w st Hcur). simpl.
  set (st1 := set_pageCtxExtra (default ∅ x ∪ pageCtxExtra st) st).
  set (w1 := set_current (Some st1) w).
  destruct (baseContext_fields w1 st1 eq_refl) as (c & Hc & _ & Hx).
  eexists _, _, _. split.
  { unfold trackPageView, now, current_, bind, get, ret. simpl. rewrite Hs. simpl.
    rewrite Hc. reflexivity. }
  simpl. rewrite Hx. simpl. auto.
Qed.

(* ===================== Late binding and restarts ===================== *)

Ltac pending_leaf :=
  match goal with
  | H : _ /\ started ?w |- _ /\ started _ =>
      let Hp := fresh "Hp" in
      let Hs := fresh "Hs" in
      destruct H as [Hp Hs]; unfold started in *; simpl;
      split; [exact Hp|];
      destruct (current w); simpl; [eauto | destruct Hs; discriminate]
  end.

(** While an instance runs nothing touches the pending normalizer. *)
Lemma perform_pending p a :
  preserves (fun w => pendingPathNormalizer w = p /\ started w) (perform a).
Proof.
  destruct a; simpl;
    lazymatch goal with
    | |- preserves _ (setPathNormalizer _) => idtac
    | |- _ =>
        unfold startRum, pageHideSignal, dispatchEvent, runTimer, runHandler;
        autounfold with js js_emit;
        repeat pres_step; pending_leaf
    end.
  intros w [Hp [st Hst]].
  unfold setPathNormalizer, update_current, bind, get, modify. simpl.
  rewrite Hst. simpl. rewrite Hst. simpl. split; [exact Hp | eexists; reflexivity].
Qed.

Lemma run_pending p actions w :
  pendingPathNormalizer w = p -> started w ->
  pendingPathNormalizer (execAll perform actions w) = p.
Proof.
  intros Hp Hs.
  apply (preserves_execAll (fun w => pendingPathNormalizer w = p /\ started w)
           perform actions (perform_pending p) w (conj Hp Hs)).
Qed.

Lemma shutdown_pending p : preserves (fun w => pendingPathNormalizer w = p) shutdown.
Proof.
  unfold shutdown. autounfold with js.
  repeat pres_step; simpl; assumption.
Qed.

Ltac norm_leaf :=
  match goal with
  | H : normalizerIs ?X ?w /\ pendingPathNormalizer ?w = ?P
    |- normalizerIs ?X _ /\ _ =>
      let st := fresh "st" in
      let Hc := fresh "Hc" in
      let Hn := fresh "Hn" in
      let Hp := fresh "Hp" in
      destruct H as ((st & Hc & Hn) & Hp); unfold normalizerIs; simpl;
      rewrite ?Hc; simpl;
      split; [eexists; split; [reflexivity | simpl; exact Hn] | exact Hp]
  end.

Lemma pending_getOrCreateDeviceId p :
  preserves (fun w => pendingPathNormalizer w = p) getOrCreateDeviceId.
Proof. autounfold with js. repeat pres_step; simpl; assumption. Qed.

Lemma pending_loadOrCreateSession p rate ttl :
  preserves (fun w => pendingPathNormalizer w = p) (loadOrCreateSession rate ttl).
Proof. autounfold with js. repeat pres_step; simpl; assumption. Qed.

(** The normalizer of a new instance: the configuration's own, else the
    pending one; the pending one stays. *)
Lemma startRum_normalizer cfg w0 :
  current w0 = None ->
  let f0 := match cfg_getNormalizedPath cfg with
            | Some f => Some f
            | None => pendingPathNormalizer w0
            end in
  normalizerIs f0 (exec (startRum cfg) w0) /\
  pendingPathNormalizer (exec (startRum cfg) w0) = pendingPathNormalizer w0.
Proof.
  intros Hcur f0. set (p := pendingPathNormalizer w0).
  set (J := fun w => normalizerIs f0 w /\ pendingPathNormalizer w = p).
  assert (H : triple (eq w0) (startRum cfg) (fun _ => J) J).
  { unfold startRum. intros w <-. unfold bind at 1, get at 1. rewrite Hcur.
    apply triple_at.
    eapply triple_bind with (R := fun c w => w = w0 /\ getNormalizedPath c = f0).
    { intros w <-. unfold applyDefaults, bind, get, ret. simpl. auto. }
    intros c.
    eapply triple_bind with
      (R := fun _ w => pendingPathNormalizer w = p /\ getNormalizedPath c = f0).
    { apply triple_returns_any. intros w (-> & Hc).
      pose proof (triple_preserves_returns _ _ (pending_getOrCreateDeviceId p)
                    returns_getOrCreateDeviceId w0 eq_refl) as Ht.
      destruct (getOrCreateDeviceId w0) as [[a|e] w']; tauto. }
    intros dev.
    eapply triple_bind with
      (R := fun _ w => pendingPathNormalizer w = p /\ getNormalizedPath c = f0).
    { apply triple_returns_any. intros w (Hp & Hc).
      pose proof (triple_preserves_returns _ _
                    (pending_loadOrCreateSession p (sampleRate c) (sessionTtlMs c))
                    (returns_loadOrCreateSession _ _) w Hp) as Ht.
      destruct (loadOrCreateSession (sampleRate c) (sessionTtlMs c) w) as [[a|e] w'];
        tauto. }
    intros sess.
    eapply triple_bind with (R := fun _ => J).
    { apply triple_modify. intros w (Hp & Hc). split; [|exact Hp].
      eexists. split; [reflexivity|]. exact Hc. }
    intros u.
    match goal with |- triple ?P ?m _ _ => change (preserves P m) end.
    subst J. autounfold with js js_emit.
    repeat pres_step; norm_leaf. }
  unfold exec. specialize (H w0 eq_refl).
  destruct (startRum cfg w0) as [[a|e] w']; exact H.
Qed.

Lemma shutdown_stops w : current (exec shutdown w) = None.
Proof.
  pose proof (shutdown_run (calls w) (localStorage w) w (conj eq_refl eq_refl)) as H.
  unfold exec. destruct (shutdown w) as [[[]|e] w']; [|contradiction]. apply H.
Qed.

(** X14. A normalizer given to [setPathNormalizer] before [startRum] is
    pending for good: it is the normalizer of the instance started next
    when the configuration has none of its own, and, whatever happens to
    that instance, also of an instance started after its [shutdown]. *)
Theorem pending_normalizer_outlives_restart (f : PathNormalizer) (cfg1 cfg2 : RumConfig)
    (actions : list Action) (w : World) :
  current w = None ->
  cfg_getNormalizedPath cfg1 = None -> cfg_getNormalizedPath cfg2 = None ->
  let w1 := exec (startRum cfg1) (exec (setPathNormalizer f) w) in
  let w2 := exec shutdown (execAll perform actions w1) in
  normalizerIs (Some f) w1 /\ normalizerIs (Some f) (exec (startRum cfg2) w2).
Proof.
  intros Hcur Hc1 Hc2 w1 w2.
  assert (Hset : exec (setPathNormalizer f) w = set_pendingPathNormalizer (Some f) w).
  { unfold exec, setPathNormalizer, bind, get, modify. simpl. rewrite Hcur. reflexivity. }
  assert (Hpend0 : pendingPathNormalizer (exec (setPathNormalizer f) w) = Some f)
    by (rewrite Hset; reflexivity).
  destruct (startRum_normalizer cfg1 (exec (setPathNormalizer f) w)) as (Hn1 & Hp1).
  { rewrite Hset. exact Hcur. }
  rewrite Hc1, Hpend0 in Hn1. rewrite Hpend0 in Hp1. fold w1 in Hn1, Hp1.
  split; [exact Hn1|].
  assert (Hp2 : pendingPathNormalizer w2 = Some f).
  { subst w2. apply (preserves_exec (fun w => pendingPathNormalizer w = Some f)).
    - apply shutdown_pending.
    - apply run_pending; [exact Hp1|]. destruct Hn1 as (st & Hst & _).
      exists st. exact Hst. }
  destruct (startRum_normalizer cfg2 w2) as (Hn2 & _).
  { apply shutdown_stops. }
  rewrite Hc2, Hp2 in Hn2. exact Hn2.
Qed.

(** X15. A normalizer given to [setPathNormalizer] while an instance runs
    belongs to that instance only: it is used from then on, and after
    [shutdown] an instance started without a normalizer of its own gets the
    pending one of before (or none), not this one. *)
Theorem running_normalizer_lost_on_restart (f : PathNormalizer) (cfg : RumConfig)
    (w : World) (st : InternalState) :
  current w = Some st -> cfg_getNormalizedPath cfg = None ->
  let w1 := exec (setPathNormalizer f) w in
  normalizerIs (Some f) w1 /\
  normalizerIs (pendingPathNormalizer w) (exec (startRum cfg) (exec shutdown w1)).
Proof.
  intros Hcur Hc w1.
  assert (Hset : w1 = set_current
                        (Some (set_config (set_getNormalizedPath (Some f) (config st)) st)) w).
  { subst w1. unfold exec, setPathNormalizer, update_current, bind, get, modify. simpl.
    rewrite Hcur. simpl. rewrite Hcur. reflexivity. }
  split; [rewrite Hset; eexists; split; reflexivity|].
  assert (Hp : pendingPathNormalizer (exec shutdown w1) = pendingPathNormalizer w).
  { apply (preserves_exec (fun w' => pendingPathNormalizer w' = pendingPathNormalizer w)).
    - apply shutdown_pending.
    - rewrite Hset. reflexivity. }
  destruct (startRum_normalizer cfg (exec shutdown w1)) as (Hn & _).
  { apply shutdown_stops. }
  rewrite Hc, Hp in Hn. exact Hn.
Qed.

(* ===================== The automatic initial page view ===================== *)

Ltac view_leaf :=
  match goal with
  | H : viewState ?n ?w |- viewState ?n _ =>
      let st := fresh "st" in
      let Hc := fresh "Hc" in
      let Hrest := fresh "Hrest" in
      destruct H as (st & Hc & Hrest); unfold viewState in *; simpl;
      rewrite ?Hc; simpl; eexists; (split; [reflexivity|]); simpl; exact Hrest
  end.

Ltac auto_leaf :=
  match goal with
  | H : autoView ?w |- autoView _ =>
      unfold autoView in *; simpl; view_leaf
  | H : autoView ?w /\ hasSentInitialPV ?w = false
    |- autoView _ /\ hasSentInitialPV _ = false =>
      let Hv := fresh "Hv" in
      let Hf := fresh "Hf" in
      destruct H as (Hv & Hf); split; [unfold autoView in *; simpl; view_leaf | exact Hf]
  end.

Lemma enqueue_view n e : preserves (viewState n) (enqueue e).
Proof. autounfold with js js_emit. repeat pres_step; view_leaf. Qed.

Lemma flushQueue_auto b : preserves autoView (flushQueue b).
Proof. autounfold with js js_emit. repeat pres_step; auto_leaf. Qed.

Lemma clearInterval_auto t :
  preserves (fun w => autoView w /\ hasSentInitialPV w = false) (clearInterval t).
Proof. autounfold with js. repeat pres_step; auto_leaf. Qed.

(** With a hook that never raises [dispatch] returns. *)
Lemma dispatch_view n e :
  triple (viewState n) (dispatch e) (fun _ => viewState n) (fun _ => False).
Proof.
  intros w Hinv. pose proof Hinv as (st & Hcur & Hhook & _).
  unfold dispatch. unfold bind at 1, get at 1. rewrite Hcur.
  destruct (beforeSend (config st)) as [hook|] eqn:Hbs.
  - destruct (hook e) as [[e'|]|] eqn:Hhk; unfold bind, ret, throw; simpl.
    + apply (triple_preserves_returns _ _ (enqueue_view n e') (returns_enqueue e') w Hinv).
    + exact Hinv.
    + exact (Hhook hook eq_refl e Hhk).
  - unfold bind, ret; simpl.
    apply (triple_preserves_returns _ _ (enqueue_view n e) (returns_enqueue e) w Hinv).
Qed.

(** The first page view of an instance sets the flag and takes number 1;
    in a session that is not sampled nothing happens. *)
Lemma trackPageView_auto extra_ navType :
  triple (fun w => autoView w /\ hasSentInitialPV w = false)
    (trackPageView extra_ navType) (fun _ => autoView) autoView.
Proof.
  intros w (Hinv & Hflag). pose proof Hinv as (st & Hcur & Hhook & Hseq).
  rewrite Hflag in Hseq.
  destruct (sampled st) eqn:Hs.
  - destruct (trackPageView_run extra_ navType w st Hcur Hs) as (e & He & ->).
    assert (Ht : triple (viewState 1)
                   (dispatch e;; modify (set_hasSentInitialPV true))
                   (fun _ => autoView) (fun _ => False)).
    { eapply triple_bind; [apply dispatch_view|].
      intros u. apply triple_modify. intros w' Hw'.
      unfold autoView. simpl. view_leaf. }
    assert (Hpre : viewState 1 (set_current (Some (set_seq (seq st + 1) st)) w)).
    { eexists. split; [reflexivity|]. simpl. split; [exact Hhook | lia]. }
    specialize (Ht _ Hpre).
    match goal with
    | |- match ?m with _ => _ end => destruct m as [[a|err] w']
    end; [exact Ht | contradiction].
  - unfold trackPageView, bind, get, ret. simpl. rewrite Hcur, Hs. exact Hinv.
Qed.

Lemma runTimer_auto t : preserves autoView (runTimer t).
Proof.
  intros w Hinv. unfold runTimer. unfold bind at 1, get at 1.
  destruct (snd <$> list_find (fun e => e.1 = t) (timers w)) as [[i [| |poll|]]|].
  - apply flushQueue_auto, Hinv.
  - destruct (hasSentInitialPV w) eqn:Hflag;
      [rewrite andb_false_r; exact Hinv|].
    destruct (routeManifestReady w); simpl; [|exact Hinv].
    assert (Ht : triple (fun w => autoView w /\ hasSentInitialPV w = false)
                   (clearInterval t;; trackPageView None None)
                   (fun _ => autoView) autoView).
    { eapply triple_bind; [|intros u; apply trackPageView_auto].
      eapply triple_conseq; [apply clearInterval_auto | auto | auto | intros ? [? _]; auto]. }
    apply Ht. auto.
  - destruct (hasSentInitialPV w) eqn:Hflag; simpl.
    + assert (Ht : preserves autoView (clearInterval t;; ret tt)).
      { autounfold with js. repeat pres_step; auto_leaf. }
      apply Ht, Hinv.
    + assert (Ht : triple (fun w => autoView w /\ hasSentInitialPV w = false)
                     (clearInterval t;; clearInterval poll;; trackPageView None None)
                     (fun _ => autoView) autoView).
      { eapply triple_bind with
          (R := fun _ w => autoView w /\ hasSentInitialPV w = false).
        { eapply triple_conseq;
            [apply clearInterval_auto | auto | auto | intros ? [? _]; auto]. }
        intros u.
        eapply triple_bind; [|intros u'; apply trackPageView_auto].
        eapply triple_conseq;
          [apply clearInterval_auto | auto | auto | intros ? [? _]; auto]. }
      apply Ht. auto.
  - exact Hinv.
  - exact Hinv.
Qed.

Lemma perform_auto a : isPassive a = true -> preserves autoView (perform a).
Proof.
  destruct a; simpl; try discriminate; intros _.
  - autounfold with js. repeat pres_step; auto_leaf.
  - autounfold with js. repeat pres_step; auto_leaf.
  - apply flushQueue_auto.
  - intros w Hinv. pose proof Hinv as (st & Hcur & _).
    unfold startRum, bind, get, ret. simpl. rewrite Hcur. exact Hinv.
  - autounfold with js. repeat pres_step; auto_leaf.
  - autounfold with js. repeat pres_step; auto_leaf.
  - apply runTimer_auto.
  - apply preserves_modify. intros w Hw. auto_leaf.
Qed.

Lemma run_auto actions w :
  forallb isPassive actions = true -> autoView w ->
  autoView (execAll perform actions w).
Proof.
  revert w. induction actions as [|a actions IH]; simpl; intros w Hp Hinv;
    [exact Hinv|].
  apply andb_true_iff in Hp as [Ha Hp].
  apply IH; [exact Hp|]. apply preserves_exec; [apply perform_auto, Ha | exact Hinv].
Qed.

Lemma unsent_getOrCreateDeviceId :
  preserves (fun w => hasSentInitialPV w = false) getOrCreateDeviceId.
Proof. autounfold with js. repeat pres_step; simpl; assumption. Qed.

Lemma unsent_loadOrCreateSession rate ttl :
  preserves (fun w => hasSentInitialPV w = false) (loadOrCreateSession rate ttl).
Proof. autounfold with js. repeat pres_step; simpl; assumption. Qed.

Lemma unsent_weaken {A} (m : Js A) :
  preserves (fun w => autoView w /\ hasSentInitialPV w = false) m ->
  triple (fun w => autoView w /\ hasSentInitialPV w = false) m
    (fun _ w => autoView w /\ hasSentInitialPV w = false) autoView.
Proof. intros H. eapply triple_conseq; [exact H | auto | auto | intros ? [? _]; auto]. Qed.

Lemma unsent_finish {A} (m : Js A) :
  preserves (fun w => autoView w /\ hasSentInitialPV w = false) m ->
  triple (fun w => autoView w /\ hasSentInitialPV w = false) m
    (fun _ => autoView) autoView.
Proof.
  intros H. eapply triple_conseq;
    [exact H | auto | intros ? ? [? _]; auto | intros ? [? _]; auto].
Qed.

Lemma startRum_auto cfg w0 :
  current w0 = None -> hasSentInitialPV w0 = false ->
  (forall hook, cfg_beforeSend cfg = Some hook -> neverRaises hook) ->
  autoView (exec (startRum cfg) w0).
Proof.
  intros Hcur Hflag Hhook.
  assert (H : triple (eq w0) (startRum cfg) (fun _ => autoView) autoView).
  { unfold startRum. intros w <-. unfold bind at 1, get at 1. rewrite Hcur.
    apply triple_at.
    eapply triple_bind with
      (R := fun c w => w = w0 /\ beforeSend c = cfg_beforeSend cfg).
    { intros w <-. unfold applyDefaults, bind, get, ret. simpl. auto. }
    intros c.
    eapply triple_bind with
      (R := fun _ w => hasSentInitialPV w = false /\ beforeSend c = cfg_beforeSend cfg).
    { apply triple_returns_any. intros w (-> & Hc).
      pose proof (triple_preserves_returns _ _ unsent_getOrCreateDeviceId
                    returns_getOrCreateDeviceId w0 Hflag) as Ht.
      destruct (getOrCreateDeviceId w0) as [[a|e] w']; tauto. }
    intros dev.
    eapply triple_bind with
      (R := fun _ w => hasSentInitialPV w = false /\ beforeSend c = cfg_beforeSend cfg).
    { apply triple_returns_any. intros w (Hp & Hc).
      pose proof (triple_preserves_returns _ _
                    (unsent_loadOrCreateSession (sampleRate c) (sessionTtlMs c))
                    (returns_loadOrCreateSession _ _) w Hp) as Ht.
      destruct (loadOrCreateSession (sampleRate c) (sessionTtlMs c) w) as [[a|e] w'];
        tauto. }
    intros sess.
    eapply triple_bind with
      (R := fun _ w => autoView w /\ hasSentInitialPV w = false).
    { apply triple_modify. intros w (Hp & Hc). split; [|exact Hp].
      unfold autoView. simpl. rewrite Hp.
      eexists. split; [reflexivity|]. simpl. rewrite Hc. auto. }
    intros u.
    eapply triple_bind with
      (R := fun _ w => autoView w /\ hasSentInitialPV w = false).
    { apply unsent_weaken. autounfold with js. repeat pres_step; auto_leaf. }
    intros u1.
    eapply triple_bind with
      (R := fun _ w => autoView w /\ hasSentInitialPV w = false).
    { apply unsent_weaken. autounfold with js. repeat pres_step; auto_leaf. }
    intros u2.
    eapply triple_bind with
      (R := fun _ w => autoView w /\ hasSentInitialPV w = false).
    { apply unsent_weaken. autounfold with js. repeat pres_step; auto_leaf. }
    intros st.
    eapply triple_bind with (R := fun _ => autoView);
      [|intros u3; apply triple_ret; auto].
    unfold when. destruct (sampled st && autoTrackInitialView (config st));
      [|apply triple_ret; intros ? [? _]; auto].
    eapply triple_bind; [apply triple_get|]. intros w1.
    eapply triple_conseq with
      (P' := fun w => autoView w /\ hasSentInitialPV w = false)
      (Q' := fun _ => autoView) (E' := autoView);
      [|intros ? [_ ?]; auto | auto | auto].
    destruct (routeManifestReady w1 ||
              bool_decide (is_Some (getNormalizedPath (config st))));
      [apply trackPageView_auto|].
    apply unsent_finish. autounfold with js. repeat pres_step; auto_leaf. }
  unfold exec. specialize (H w0 eq_refl).
  destruct (startRum cfg w0) as [[a|e] w']; exact H.
Qed.

(** X16. The automatic initial page view is built at most once.  After a
    first [startRum] with a hook that is absent or never raises, on a page
    that has sent no initial page view, and as long as neither the
    application, a collector nor a page error asks for an event, the timers
    may fire in any order and any number of times, the route manifest may
    arrive at any moment: the instance has built one event when the
    [hasSentInitialPV] flag is set and none otherwise. *)
Theorem initial_view_at_most_once (cfg : RumConfig) (actions : list Action) (w0 : World) :
  current w0 = None -> hasSentInitialPV w0 = false ->
  (forall hook, cfg_beforeSend cfg = Some hook -> neverRaises hook) ->
  forallb isPassive actions = true ->
  let w := execAll perform actions (exec (startRum cfg) w0) in
  exists st, current w = Some st /\ seq st = if hasSentInitialPV w then 1 else 0.
Proof.
  intros Hcur Hflag Hhook Hp w.
  destruct (run_auto actions _ Hp (startRum_auto cfg w0 Hcur Hflag Hhook))
    as (st & Hst & _ & Hseq).
  exists st. split; [exact Hst | exact Hseq].
Qed.

(* ===================== Listeners across shutdown ===================== *)

Lemma visibility_filter_other evt h (l : list (string * Handler)) :
  isVisibilityListener (evt, h) = false ->
  List.filter isVisibilityListener (filter (fun e => ~ (e.1 = evt /\ e.2 = h)) l)
  = List.filter isVisibilityListener l.
Proof.
  intros Hother. induction l as [|[evt' h'] l IH]; [reflexivity|].
  rewrite filter_cons. destruct (decide (~ ((evt', h').1 = evt /\ (evt', h').2 = h))) as [Hk|Hk].
  - simpl. rewrite IH. reflexivity.
  - simpl in *. rewrite IH.
    assert (evt' = evt /\ h' = h) as [-> ->].
    { destruct (decide (evt' = evt)), (decide (h' = h)); try tauto;
        exfalso; apply Hk; tauto. }
    rewrite Hother. reflexivity.
Qed.

Ltac vis_leaf :=
  match goal with
  | H : visibilityInvariant ?s ?k ?w |- visibilityInvariant ?s ?k _ =>
      let st := fresh "st" in
      let Hc := fresh "Hc" in
      let Hrest := fresh "Hrest" in
      destruct H as (st & Hc & Hrest);
      unfold visibilityInvariant, visibilityListeners in *; simpl;
      rewrite ?Hc; simpl; eexists; (split; [reflexivity|]); simpl;
      first [ exact Hrest
            | destruct Hrest as (? & ? & ?);
              rewrite ?existsb_app, ?List.filter_app; simpl;
              unfold isVisibilityListener; simpl;
              rewrite ?andb_false_r, ?orb_false_r, ?app_nil_r; auto ]
  end.

Lemma perform_visibility s k a : preserves (visibilityInvariant s k) (perform a).
Proof.
  destruct a; simpl;
    lazymatch goal with
    | |- preserves _ (bind (startRum _) _) => idtac
    | |- _ =>
        unfold pageHideSignal, dispatchEvent, runTimer, runHandler;
        autounfold with js js_emit;
        repeat pres_step; vis_leaf
    end.
  intros w Hinv. pose proof Hinv as (st & Hcur & _).
  unfold startRum, bind, get, ret. simpl. rewrite Hcur. exact Hinv.
Qed.

Lemma forEach_unsubscribers k (l : list Unsubscriber) :
  existsb removesVisibility l = false ->
  preserves (fun w => visibilityListeners w = k)
    (forEach l (fun u => try_catch (runUnsubscriber u) (ret tt))).
Proof.
  induction l as [|u l IH]; simpl; intros Hl; [apply preserves_ret|].
  apply orb_false_iff in Hl as [Hu Hl].
  apply preserves_bind; [|intros _; apply IH, Hl].
  apply preserves_try_catch; [|apply preserves_ret].
  destruct u as [evt h|t|t]; simpl.
  - apply preserves_modify. intros w Hw. unfold visibilityListeners in *. simpl.
    rewrite visibility_filter_other by exact Hu. exact Hw.
  - apply preserves_modify. intros w Hw. exact Hw.
  - autounfold with js. repeat pres_step. exact H.
Qed.

Lemma shutdown_visibility s k w :
  visibilityInvariant s k w -> visibilityListeners (exec shutdown w) = k.
Proof.
  intros (st & Hcur & _ & Hun & Hk).
  assert (H : triple (eq w) shutdown
                (fun _ w' => visibilityListeners w' = k)
                (fun w' => visibilityListeners w' = k)).
  { unfold shutdown. intros w' <-. unfold bind at 1, get at 1. rewrite Hcur.
    apply triple_at.
    eapply triple_bind with (R := fun _ w' => visibilityListeners w' = k).
    { assert (Hclear : preserves (fun w' => visibilityListeners w' = k)
                         (try_catch
                            (match flushTimer st with
                             | Some (S t) => clearInterval (S t)
                             | _ => ret tt
                             end) (ret tt))).
      { autounfold with js. repeat pres_step; assumption. }
      intros w' <-. apply Hclear, Hk. }
    intros u.
    eapply triple_bind with (R := fun _ w' => visibilityListeners w' = k).
    { apply forEach_unsubscribers, Hun. }
    intros u'. apply triple_modify. intros w' Hw'. exact Hw'. }
  unfold exec. specialize (H w eq_refl).
  destruct (shutdown w) as [[a|e] w']; exact H.
Qed.

Lemma count_getOrCreateDeviceId k :
  preserves (fun w => visibilityListeners w = k) getOrCreateDeviceId.
Proof. autounfold with js. repeat pres_step; assumption. Qed.

Lemma count_loadOrCreateSession k rate ttl :
  preserves (fun w => visibilityListeners w = k) (loadOrCreateSession rate ttl).
Proof. autounfold with js. repeat pres_step; assumption. Qed.

(** [setupLifecycle] registers one [visibilitychange] listener and no
    unsubscriber for it. *)
Lemma setupLifecycle_visibility k :
  triple (visibilityInvariant true k) setupLifecycle
    (fun _ => visibilityInvariant true (k + 1)) (fun _ => False).
Proof.
  unfold setupLifecycle.
  eapply triple_bind with (R := fun _ => visibilityInvariant true k).
  { unfold addEventListener. apply triple_modify. intros w Hw. vis_leaf. }
  intros u.
  eapply triple_bind with (R := fun _ => visibilityInvariant true (k + 1)).
  { unfold addEventListener. apply triple_modify.
    intros w (st & Hc & Hs & Hu & Hk).
    exists st. unfold visibilityListeners in *. simpl.
    rewrite List.filter_app, length_app. simpl. repeat split; auto; lia. }
  intros u'. apply triple_preserves_returns.
  - autounfold with js. repeat pres_step; vis_leaf.
  - autounfold with js. unfold activityEvents. repeat returns_step.
Qed.

Ltac started_vis_leaf :=
  match goal with
  | H : visibilityAfterStart ?k ?w |- visibilityAfterStart ?k _ =>
      let s := fresh "s" in
      let Hv := fresh "Hv" in
      destruct H as (s & Hv); exists s; vis_leaf
  end.

Lemma startRum_visibility cfg w0 :
  current w0 = None ->
  visibilityAfterStart (visibilityListeners w0) (exec (startRum cfg) w0).
Proof.
  intros Hcur. set (k0 := visibilityListeners w0).
  assert (H : triple (eq w0) (startRum cfg)
                (fun _ => visibilityAfterStart k0) (visibilityAfterStart k0)).
  { unfold startRum. intros w <-. unfold bind at 1, get at 1. rewrite Hcur.
    apply triple_at.
    eapply triple_bind with (R := fun c w => w = w0).
    { intros w <-. unfold applyDefaults, bind, get, ret. simpl. auto. }
    intros c.
    eapply triple_bind with (R := fun _ w => visibilityListeners w = k0).
    { apply triple_returns_any. intros w ->.
      apply (triple_preserves_returns _ _ (count_getOrCreateDeviceId k0)
               returns_getOrCreateDeviceId w0 eq_refl). }
    intros dev.
    eapply triple_bind with (R := fun _ w => visibilityListeners w = k0).
    { apply triple_returns_any.
      apply (triple_preserves_returns _ _
               (count_loadOrCreateSession k0 (sampleRate c) (sessionTtlMs c))
               (returns_loadOrCreateSession _ _)). }
    intros sess.
    eapply triple_bind with
      (R := fun _ => visibilityInvariant (sess_sampled sess) k0).
    { apply triple_modify. intros w Hk.
      eexists. split; [reflexivity|]. simpl. auto. }
    intros u.
    eapply triple_bind with (R := fun _ => visibilityAfterStart k0).
    { apply triple_returns_any. unfold when.
      destruct (sess_sampled sess) eqn:Hs.
      - eapply triple_conseq with
          (P' := visibilityInvariant true k0)
          (Q' := fun _ => visibilityInvariant true (k0 + 1))
          (E' := fun _ => False);
          [|auto| intros ? ? ?; exists true; assumption | auto].
        eapply triple_bind; [apply setupLifecycle_visibility|].
        intros u'. apply triple_preserves_returns.
        + autounfold with js. repeat pres_step; vis_leaf.
        + autounfold with js. repeat returns_step.
      - apply triple_ret. intros w Hw. exists false.
        replace (k0 + 0)%nat with k0 by lia. exact Hw. }
    intros u'.
    match goal with |- triple ?P ?m _ _ => change (preserves P m) end.
    autounfold with js js_emit.
    repeat pres_step; started_vis_leaf. }
  unfold exec. specialize (H w0 eq_refl).
  destruct (startRum cfg w0) as [[a|e] w']; exact H.
Qed.

(** X17. The [visibilitychange] listener outlives the instance.  A first
    [startRum] of a sampled session registers one; [shutdown] removes none,
    whatever happened in between: after it the window holds one listener
    more than before the start (and as many as before when the session is
    not sampled), which goes on running on page hide for whichever instance
    is started next. *)
Theorem visibility_listener_outlives_shutdown (cfg : RumConfig) (actions : list Action)
    (w0 : World) :
  current w0 = None ->
  let w1 := exec (startRum cfg) w0 in
  exists info,
    outcome getSessionInfo w1 = Returned (Some info) /\
    visibilityListeners (exec shutdown (execAll perform actions w1))
      = (visibilityListeners w0 + if si_sampled info then 1 else 0)%nat.
Proof.
  intros Hcur w1.
  destruct (startRum_visibility cfg w0 Hcur) as (s & Hv). fold w1 in Hv.
  pose proof Hv as (st1 & Hst1 & Hs & _).
  unfold outcome. rewrite (getSessionInfo_started _ st1 Hst1).
  eexists. split; [reflexivity|]. simpl. rewrite Hs.
  apply (shutdown_visibility s).
  apply (preserves_execAll _ perform actions (perform_visibility s _) w1 Hv).
Qed.

(* ===================== uuid, the implementation ===================== *)

Lemma toString16_hex v : 0 <= v < 16 -> hexChar (toString16 v) = true.
Proof.
  intros Hv. unfold toString16.
  assert (Hn : (Z.to_nat v < 16)%nat) by lia.
  generalize dependent (Z.to_nat v). intros n Hn.
  do 16 (destruct n as [|n]; [reflexivity|]). lia.
Qed.

Lemma toString16_variant r :
  0 <= r < 16 -> variantChar (toString16 (Z.lor (Z.land r 3) 8)) = true.
Proof.
  intros Hr.
  assert (Hcases : r = 0 \/ r = 1 \/ r = 2 \/ r = 3 \/ r = 4 \/ r = 5 \/ r = 6 \/ r = 7 \/
                   r = 8 \/ r = 9 \/ r = 10 \/ r = 11 \/ r = 12 \/ r = 13 \/ r = 14 \/
                   r = 15) by lia.
  repeat (destruct Hcases as [-> | Hcases]; [reflexivity|]). subst r. reflexivity.
Qed.

(** The replacement of the placeholders: one draw of [Math.random] each,
    nothing else touched, and a result of the template's shape. *)
Lemma replaceAll_run rnd tpl w :
  exists l,
    replaceAll rnd tpl w
      = (Returned l,
         set_randomCalls (randomCalls w + length (List.filter isPlaceholder tpl)) w) /\
    matchesTemplate tpl l = true.
Proof.
  revert w. induction tpl as [|c tpl IH]; intros w.
  - exists []. simpl. rewrite Nat.add_0_r. destruct w; auto.
  - simpl. destruct (isPlaceholder c) eqn:Hc.
    + unfold replacement, Math_random, bind, get, modify, ret. simpl.
      destruct (IH (set_randomCalls (S (randomCalls w)) w)) as (l & -> & Hl).
      eexists. split.
      { simpl. rewrite Nat.add_succ_r. reflexivity. }
      simpl. rewrite Hl, andb_true_r.
      set (r := nth _ rnd 0 mod 16).
      assert (Hr : 0 <= r < 16) by (apply Z.mod_pos_bound; lia).
      unfold isPlaceholder in Hc.
      destruct (Ascii.eqb c "x"); [apply toString16_hex, Hr|].
      simpl in Hc. rewrite Hc. apply toString16_variant, Hr.
    + unfold bind, ret.
      destruct (IH w) as (l & -> & Hl).
      eexists. split; [reflexivity|]. simpl. rewrite Hl, andb_true_r.
      unfold isPlaceholder in Hc. apply orb_false_iff in Hc as [-> ->].
      apply Ascii.eqb_refl.
Qed.

(** X18. Without [crypto.randomUUID], and with a [Math.random] that stays
    in [0, 1), [uuid] returns a string of the version-4 shape whatever the
    random bytes and the draws are: 36
    characters, hexadecimal digits around the dashes of the template, the
    version digit 4 and a variant digit among 8, 9, a, b; it draws from
    [Math.random] 31 times and touches nothing else. *)
Theorem uuid_fallback_shape (crypto : option Crypto) (w : World) :
  crypto ≫= randomUUID = None ->
  (forall n, (0 <= random_at n)%Q /\ (random_at n < 1)%Q) ->
  exists u,
    uuid_impl crypto w = (Returned u, set_randomCalls (randomCalls w + 31) w) /\
    isUuidV4 u = true /\ String.length u = 36%nat.
Proof.
  intros Hnone _. unfold uuid_impl. rewrite Hnone. unfold bind.
  destruct (replaceAll_run (randomBytes crypto) (String.list_ascii_of_string uuidTemplate) w)
    as (l & -> & Hl).
  eexists. split; [reflexivity|].
  unfold isUuidV4. rewrite String.list_ascii_of_string_of_list_ascii.
  split; [exact Hl|].
  assert (Hlen : forall tpl s, matchesTemplate tpl s = true -> length s = length tpl).
  { induction tpl as [|t tpl IH]; intros [|c s] H; simpl in *; try discriminate; auto.
    apply andb_true_iff in H as [_ H]. f_equal. apply IH, H. }
  apply Hlen in Hl.
  assert (Hstr : forall s, String.length (String.string_of_list_ascii s) = length s).
  { induction s as [|c s IH]; simpl; auto. }
  rewrite Hstr, Hl. reflexivity.
Qed.

Lemma replaceAll_zeros tpl w :
  (forall n, (0 <= random_at n)%Q /\ (random_at n < 1)%Q) ->
  replaceAll (repeat 0 16) tpl w
  = (Returned (map (fun c => if Ascii.eqb c "x" then "0"%char
                             else if Ascii.eqb c "y" then "8"%char else c) tpl),
     set_randomCalls (randomCalls w + length (List.filter isPlaceholder tpl)) w).
Proof.
  intros Hrand.
  remember (repeat 0 16) as zeros eqn:Hzeros.
  assert (Hz : forall i, nth i zeros 0 = 0).
  { subst zeros. intros i.
    do 16 (destruct i as [|i]; [reflexivity|]). destruct i; reflexivity. }
  clear Hzeros. revert w. induction tpl as [|c tpl IH]; intros w.
  - simpl. rewrite Nat.add_0_r. destruct w; auto.
  - simpl. destruct (isPlaceholder c) eqn:Hc.
    + unfold replacement, Math_random, bind, get, modify, ret. simpl.
      rewrite IH. simpl. rewrite Nat.add_succ_r.
      rewrite Hz. unfold isPlaceholder in Hc.
      destruct (Ascii.eqb c "x"); [reflexivity|]. simpl in Hc. rewrite Hc. reflexivity.
    + unfold bind, ret. rewrite IH. simpl.
      unfold isPlaceholder in Hc. apply orb_false_iff in Hc as [-> ->]. reflexivity.
Qed.

(** X19. Where there is neither [crypto.randomUUID] nor
    [crypto.getRandomValues], the values of [Math.random] only pick a
    position in a buffer of zeros: every call of [uuid] returns the same
    identifier, 00000000-0000-4000-8000-000000000000, on every device and
    for every session. *)
Theorem uuid_without_crypto_is_constant (crypto : option Crypto) (w : World) :
  crypto ≫= randomUUID = None -> crypto ≫= getRandomValues = None ->
  (forall n, (0 <= random_at n)%Q /\ (random_at n < 1)%Q) ->
  outcome (uuid_impl crypto) w = Returned "00000000-0000-4000-8000-000000000000".
Proof.
  intros Hu Hg Hrand. unfold outcome, uuid_impl, randomBytes. rewrite Hu, Hg.
  unfold bind. rewrite (replaceAll_zeros _ w Hrand). reflexivity.
Qed.

(* ===================== The collectors, in detail ===================== *)

Section CollectorProperties.

Variable originAndPath : string -> string.
Variable toUpperCase : string -> string.
Variable networkFields : NetworkData -> JsRecord.
Variable resourceFields : PerformanceResourceTiming -> JsRecord.

Lemma returns_maybeNetworkEvent args res started :
  returns (maybeNetworkEvent originAndPath toUpperCase networkFields args res started).
Proof. unfold maybeNetworkEvent. repeat returns_step. Qed.

(** X20. [maybeNetworkEvent] never lets an exception out.  On a sampled
    instance that captures the network, with a [beforeSend] hook that
    raises, it returns where [trackEvent] raises: the event is lost, the
    queue and the call log are as before, and the sequence number taken for
    the event is used up.  Called for a [fetch] that had no argument, it
    gives up before taking a number and changes nothing. *)
Theorem network_event_swallows_exceptions (w : World) (st : InternalState)
    (hook : BeforeSend) (args : NetworkArgs) (res : option NetworkResponse)
    (started : Z) :
  current w = Some st -> sampled st = true ->
  captureFetch (config st) || captureXHR (config st) = true ->
  beforeSend (config st) = Some hook -> (forall ev, hook ev = Throws) ->
  maybeNetworkEvent originAndPath toUpperCase networkFields args res started w
  = (Returned tt,
     match args with
     | FetchArgs None _ => w
     | _ => set_current (Some (set_seq (seq st + 1) st)) w
     end).
Proof.
  intros Hcur Hs Hcap Hbs Hthrows.
  assert (Hguard : negb (captureFetch (config st)) && negb (captureXHR (config st)) = false).
  { destruct (captureFetch (config st)), (captureXHR (config st)); auto; discriminate. }
  destruct (baseContext_pure (set_current (Some (set_seq (seq st + 1) st)) w))
    as (c & Hc).
  assert (Hdispatch : forall ev,
            dispatch ev (set_current (Some (set_seq (seq st + 1) st)) w)
            = (Thrown CallbackError, set_current (Some (set_seq (seq st + 1) st)) w)).
  { intros ev. unfold dispatch, bind, get, throw. simpl. rewrite Hbs, Hthrows.
    reflexivity. }
  unfold maybeNetworkEvent. unfold bind at 1, get at 1. rewrite Hcur, Hs, Hguard. simpl.
  unfold try_catch.
  destruct args as [[[u|u rm]|] m|m u]; unfold bind at 1; simpl;
    try reflexivity;
    unfold now, current_, bind, get, ret; simpl; rewrite Hcur;
    rewrite (nextSeq_started w st Hcur); rewrite Hc, Hdispatch; reflexivity.
Qed.

(** X21. The instrumented [fetch] is transparent for the page: whatever the
    instance, its configuration and its hook do, the call returns the
    response the browser's [fetch] returned, or raises the error it
    raised. *)
Theorem instrumented_fetch_is_transparent (origFetch : Js NetworkResponse)
    (input : option FetchInput) (init_method : option string) (w : World) :
  outcome (instrumentedFetch originAndPath toUpperCase networkFields
             origFetch input init_method) w
  = outcome origFetch w.
Proof.
  unfold outcome, instrumentedFetch. unfold bind at 1, get at 1.
  destruct (current w) as [st|]; [|reflexivity].
  destruct (sampled st); simpl; [|reflexivity].
  unfold now, bind at 1, get, ret. unfold bind at 1. simpl.
  unfold try_catch_with, bind at 1.
  destruct (origFetch w) as [[res|err] w1]; simpl.
  - unfold bind.
    destruct (returns_maybeNetworkEvent (FetchArgs input init_method) (Some res)
                (clock (host w)) w1) as ([] & w2 & ->).
    reflexivity.
  - unfold bind.
    destruct (returns_maybeNetworkEvent (FetchArgs input init_method) None
                (clock (host w)) w1) as ([] & w2 & ->).
    reflexivity.
Qed.

Lemma Qltb_true x y : Qltb x y = true -> (x <= y)%Q.
Proof.
  unfold Qltb. intros H. apply negb_true_iff in H.
  destruct (Qlt_le_dec x y) as [Hlt|Hle]; [apply Qlt_le_weak, Hlt|].
  apply Qle_bool_iff in Hle. congruence.
Qed.

Lemma Qltb_false x y : Qltb x y = false -> (y <= x)%Q.
Proof.
  unfold Qltb. intros H. apply negb_false_iff in H. apply Qle_bool_iff, H.
Qed.

Lemma insertByDuration_perm r l : insertByDuration r l ≡ₚ r :: l.
Proof.
  induction l as [|x l IH]; simpl; [reflexivity|].
  destruct (Qltb (r_duration r) (r_duration x)); [|reflexivity].
  rewrite IH. apply Permutation_swap.
Qed.

Lemma sortByDuration_perm l : sortByDuration l ≡ₚ l.
Proof.
  induction l as [|x l IH]; simpl; [reflexivity|].
  rewrite insertByDuration_perm, IH. reflexivity.
Qed.

Lemma insertByDuration_sorted r l :
  StronglySorted (fun a b => (r_duration b <= r_duration a)%Q) l ->
  StronglySorted (fun a b => (r_duration b <= r_duration a)%Q) (insertByDuration r l).
Proof.
  induction 1 as [|x l Hs IH Hall]; simpl; [repeat constructor|].
  destruct (Qltb (r_duration r) (r_duration x)) eqn:Hlt.
  - constructor; [exact IH|].
    rewrite insertByDuration_perm. constructor; [apply Qltb_true, Hlt | exact Hall].
  - apply Qltb_false in Hlt. constructor; [constructor; assumption|].
    constructor; [exact Hlt|].
    eapply Forall_impl; [exact Hall|]. intros y Hy. simpl in *.
    eapply Qle_trans; eauto.
Qed.

Lemma sortByDuration_sorted l :
  StronglySorted (fun a b => (r_duration b <= r_duration a)%Q) (sortByDuration l).
Proof.
  induction l as [|x l IH]; simpl; [constructor | apply insertByDuration_sorted, IH].
Qed.

Lemma slice0_take {A} (l : list A) e :
  exists k, slice0 l e = take k l /\
    k = if (0 <=? e)%Z then Z.to_nat e else (length l - Z.to_nat (- e))%nat.
Proof. unfold slice0. destruct (0 <=? e)%Z; eauto. Qed.

Lemma sorted_split (l : list PerformanceResourceTiming) k :
  StronglySorted (fun a b => (r_duration b <= r_duration a)%Q) l ->
  forall r r', r ∈ take k l -> r' ∈ drop k l -> (r_duration r' <= r_duration r)%Q.
Proof.
  intros Hs. revert k. induction Hs as [|x l Hs IH Hall]; intros k r r' Hr Hr'.
  - rewrite take_nil in Hr. inversion Hr.
  - destruct k as [|k]; [inversion Hr|]. simpl in Hr, Hr'.
    apply elem_of_cons in Hr as [->|Hr]; [|eapply IH; eauto].
    rewrite Forall_forall in Hall. apply Hall.
    eapply elem_of_sublist; [exact Hr' | apply sublist_drop].
Qed.

(** X22. A sweep reports the slowest resources first and only those: what
    it selects, followed by what it leaves out, is a rearrangement of the
    candidates (the observed entries, less the beacons and the requests to
    the endpoint itself when [ignoreSelfResources] is on); the selection is
    in descending order of duration, and nothing left out took longer than
    anything selected. *)
Theorem resource_sweep_reports_slowest (st : InternalState) (maxCount : Z)
    (copy : list PerformanceResourceTiming) :
  let selected := selectResources originAndPath st maxCount copy in
  let candidates := if ignoreSelfResources (config st)
                    then List.filter (fun r => negb (isNoise originAndPath st r)) copy
                    else copy in
  StronglySorted (fun a b => (r_duration b <= r_duration a)%Q) selected /\
  exists rest,
    selected ++ rest ≡ₚ candidates /\
    forall r r', r ∈ selected -> r' ∈ rest -> (r_duration r' <= r_duration r)%Q.
Proof.
  intros selected candidates. subst selected. unfold selectResources.
  fold candidates.
  destruct (slice0_take (sortByDuration candidates) maxCount) as (k & -> & _).
  pose proof (sortByDuration_sorted candidates) as Hs.
  split.
  { eapply StronglySorted_sublist; [apply sublist_take | exact Hs]. }
  exists (drop k (sortByDuration candidates)). split.
  - rewrite take_drop. apply sortByDuration_perm.
  - apply sorted_split, Hs.
Qed.

(** X23. How many resources a sweep reports: at most [maxCount] when it is
    not negative; with a negative [maxCount] reporting is not off, all
    candidates but the [-maxCount] quickest are reported.  No beacon and
    no request to the endpoint itself is among them when
    [ignoreSelfResources] is on. *)
Theorem resource_sweep_count (st : InternalState) (maxCount : Z)
    (copy : list PerformanceResourceTiming) :
  let selected := selectResources originAndPath st maxCount copy in
  let candidates := if ignoreSelfResources (config st)
                    then List.filter (fun r => negb (isNoise originAndPath st r)) copy
                    else copy in
  length selected
    = (if (0 <=? maxCount)%Z then Nat.min (Z.to_nat maxCount) (length candidates)
       else length candidates - Z.to_nat (- maxCount))%nat /\
  (forall r, r ∈ selected ->
     r ∈ copy /\
     (ignoreSelfResources (config st) = true -> isNoise originAndPath st r = false)).
Proof.
  intros selected candidates. subst selected. unfold selectResources.
  fold candidates.
  assert (Hlen : length (sortByDuration candidates) = length candidates)
    by (apply Permutation_length, sortByDuration_perm).
  split.
  - unfold slice0. destruct (0 <=? maxCount)%Z; rewrite length_take, Hlen; lia.
  - intros r Hr.
    assert (Hin : r ∈ candidates).
    { rewrite <- (sortByDuration_perm candidates).
      unfold slice0 in Hr.
      destruct (0 <=? maxCount)%Z;
        (eapply elem_of_sublist; [exact Hr | apply sublist_take]). }
    subst candidates. destruct (ignoreSelfResources (config st)).
    + apply list_elem_of_In, List.filter_In in Hin as [Hin Hk].
      split; [apply list_elem_of_In, Hin|]. intros _. apply negb_true_iff, Hk.
    + split; [exact Hin | discriminate].
Qed.

End CollectorProperties.

(** X24. With the normalizer [WatchlogRoutes] installs, the normalized path
    of an event is the template of the deepest matched route, made
    absolute, or the literal path where the router raises, finds no route,
    or finds one without a path or with a wildcard path; for a path that
    is empty or begins with a slash, as [location.pathname] does, it
    always begins with a slash. *)
Theorem route_template_is_absolute
    (matchRoutes : string -> JsResult (option (list (option string))))
    (pathname : string) (w : World) :
  normalizerIs (Some (fun p => Ret (routeTemplate matchRoutes p))) w ->
  pathname = "" \/ startsWith pathname "/" = true ->
  computeNormalizedPath pathname w = (Returned (routeTemplate matchRoutes pathname), w) /\
  startsWith (routeTemplate matchRoutes pathname) "/" = true.
Proof.
  intros (st & Hcur & Hn) Hp. split.
  { unfold computeNormalizedPath, bind, get, try_catch, ret. simpl.
    rewrite Hcur, Hn. reflexivity. }
  assert (Hlit : startsWith (if truthy pathname then pathname else "/") "/" = true).
  { destruct Hp as [-> | Hp]; [reflexivity|].
    destruct (truthy pathname); [exact Hp | reflexivity]. }
  unfold routeTemplate.
  destruct (matchRoutes pathname) as [[matches|]|]; try exact Hlit.
  destruct (last matches) as [[tpl|]|]; try exact Hlit.
  destruct (truthy tpl && negb (String.eqb tpl "*") && negb (String.eqb tpl "/*"));
    [|exact Hlit].
  destruct (startsWith tpl "/") eqn:Htpl; [exact Htpl|].
  unfold startsWith. simpl. destruct tpl; reflexivity.
Qed.

(* ===================== The session across a restart ===================== *)

Ltac instance_leaf :=
  match goal with
  | H : instanceOf ?d ?s ?w2 ?w |- instanceOf ?d ?s ?w2 _ =>
      let st := fresh "st" in
      let Hc := fresh "Hc" in
      let Hrest := fresh "Hrest" in
      destruct H as (st & Hc & Hrest); unfold instanceOf in *; simpl;
      rewrite ?Hc; simpl; eexists; (split; [reflexivity|]); simpl; exact Hrest
  end.

(** What a first [startRum] makes of the device id and the session it
    obtains. *)
Lemma startRum_session cfg w0 dev w1 s w2 :
  current w0 = None ->
  getOrCreateDeviceId w0 = (Returned dev, w1) ->
  loadOrCreateSession (nullish (cfg_sampleRate cfg) DEFAULT_SAMPLE_RATE)
    (nullish (cfg_sessionTtlMs cfg) DEFAULT_SESSION_TTL) w1 = (Returned s, w2) ->
  instanceOf dev s w2 (exec (startRum cfg) w0).
Proof.
  intros Hcur Hdev Hsess.
  assert (H : triple (eq w0) (startRum cfg)
                (fun _ => instanceOf dev s w2) (instanceOf dev s w2)).
  { unfold startRum. intros w <-. unfold bind at 1, get at 1. rewrite Hcur.
    apply triple_at.
    eapply triple_bind with
      (R := fun c w => w = w0 /\
              sampleRate c = nullish (cfg_sampleRate cfg) DEFAULT_SAMPLE_RATE /\
              sessionTtlMs c = nullish (cfg_sessionTtlMs cfg) DEFAULT_SESSION_TTL).
    { intros w <-. unfold applyDefaults, bind, get, ret. simpl. auto. }
    intros c.
    eapply triple_bind with
      (R := fun d w => d = dev /\ w = w1 /\
              sampleRate c = nullish (cfg_sampleRate cfg) DEFAULT_SAMPLE_RATE /\
              sessionTtlMs c = nullish (cfg_sessionTtlMs cfg) DEFAULT_SESSION_TTL).
    { intros w (-> & Hc). rewrite Hdev. auto. }
    intros d.
    eapply triple_bind with (R := fun x w => d = dev /\ x = s /\ w = w2).
    { intros w (Hd & -> & Hr & Ht). rewrite Hr, Ht, Hsess. auto. }
    intros x.
    eapply triple_bind with (R := fun _ => instanceOf dev s w2).
    { apply triple_modify. intros w (-> & -> & ->).
      eexists. split; [reflexivity|]. simpl. auto. }
    intros u.
    match goal with |- triple ?P ?m _ _ => change (preserves P m) end.
    autounfold with js js_emit.
    repeat pres_step; instance_leaf. }
  unfold exec. specialize (H w0 eq_refl).
  destruct (startRum cfg w0) as [[a|e] w']; exact H.
Qed.

Lemma getOrCreateDeviceId_stored w d :
  getItemThrows (host w) = false ->
  localStorage w !! LS_DEVICE_KEY = Some d -> d <> "" ->
  getOrCreateDeviceId w = (Returned d, w).
Proof.
  intros Hg Hl Hd. apply truthy_nonempty in Hd.
  unfold getOrCreateDeviceId, localStorage_getItem, bind, get, try_catch, ret.
  simpl. rewrite Hg. simpl. rewrite Hl, Hd. reflexivity.
Qed.

Lemma getOrCreateDeviceId_persists w :
  getItemThrows (host w) = false -> setItemThrows (host w) = false ->
  (forall n, uuid_at n <> "") ->
  exists d w1,
    getOrCreateDeviceId w = (Returned d, w1) /\
    localStorage w1 !! LS_DEVICE_KEY = Some d /\ d <> "" /\ host w1 = host w.
Proof.
  intros Hget Hset Hne.
  destruct (localStorage w !! LS_DEVICE_KEY) as [d|] eqn:Hl.
  - destruct (truthy d) eqn:Hd.
    + apply truthy_nonempty in Hd. exists d, w.
      split; [apply getOrCreateDeviceId_stored; auto | auto].
    + eexists _, _. split; [|split; [|split]].
      * unfold getOrCreateDeviceId, localStorage_getItem, localStorage_setItem,
          log_call, uuid, bind, get, modify, try_catch, ret, throw. simpl.
        rewrite Hget. simpl. rewrite Hl, Hd. simpl. rewrite Hset. reflexivity.
      * simpl. apply lookup_insert_eq.
      * apply Hne.
      * reflexivity.
  - eexists _, _. split; [|split; [|split]].
    + unfold getOrCreateDeviceId, localStorage_getItem, localStorage_setItem,
        log_call, uuid, bind, get, modify, try_catch, ret, throw. simpl.
      rewrite Hget. simpl. rewrite Hl. simpl. rewrite Hset. reflexivity.
    + simpl. apply lookup_insert_eq.
    + apply Hne.
    + reflexivity.
Qed.

Lemma device_loadOrCreateSession d h rate ttl :
  preserves (fun w => localStorage w !! LS_DEVICE_KEY = Some d /\ host w = h)
    (loadOrCreateSession rate ttl).
Proof.
  autounfold with js. repeat pres_step; simpl; try assumption.
  all: destruct H as [Hl Hh]; (split; [|exact Hh]);
    rewrite lookup_insert_ne by discriminate; exact Hl.
Qed.

Lemma shutdown_host h : preserves (fun w => host w = h) shutdown.
Proof. unfold shutdown. autounfold with js. repeat pres_step; simpl; assumption. Qed.

(** X25. A restart resumes the stored session.  After a first [startRum]
    on a working localStorage and a [shutdown], a new [startRum] made at a
    later time of the page (the host [later], its localStorage working),
    before the session expires (less than the new TTL after the first
    start), gives an instance with the same session id, device id and
    sampling decision, whatever sample rate the new configuration asks
    for. *)
Theorem restart_resumes_session (cfg1 cfg2 : RumConfig) (w0 : World) (later : Host)
    (info : SessionInfo) :
  current w0 = None ->
  getItemThrows (host w0) = false -> setItemThrows (host w0) = false ->
  getItemThrows later = false -> setItemThrows later = false ->
  (forall n, uuid_at n <> "") ->
  clock later - clock (host w0) < nullish (cfg_sessionTtlMs cfg2) DEFAULT_SESSION_TTL ->
  outcome getSessionInfo (exec (startRum cfg1) w0) = Returned (Some info) ->
  let s1 := {| sess_id := si_sessionId info; sess_sampled := si_sampled info;
               sess_last := clock (host w0) |} in
  JSON_stringify s1 <> "" -> JSON_parse (JSON_stringify s1) = Ret (PSession s1) ->
  outcome getSessionInfo
    (exec (startRum cfg2)
       (set_host later (exec shutdown (exec (startRum cfg1) w0))))
    = Returned (Some info).
Proof.
  intros Hcur Hget Hset Hget' Hset' Hne Httl Hinfo s1 Hs1 Hparse.
  destruct (getOrCreateDeviceId_persists w0 Hget Hset Hne)
    as (dev & wa & Hdev & Hlsdev & Hdevne & Hha).
  rewrite <- Hha in Hget, Hset.
  destruct (loadOrCreateSession_persists
              (nullish (cfg_sampleRate cfg1) DEFAULT_SAMPLE_RATE)
              (nullish (cfg_sessionTtlMs cfg1) DEFAULT_SESSION_TTL) wa Hget Hset)
    as (s & wb & Hsess & Hhb & Hlast & Hlskey).
  pose proof (device_loadOrCreateSession dev (host wa)
                (nullish (cfg_sampleRate cfg1) DEFAULT_SAMPLE_RATE)
                (nullish (cfg_sessionTtlMs cfg1) DEFAULT_SESSION_TTL)
                wa (conj Hlsdev eq_refl))
    as Hframe.
  rewrite Hsess in Hframe. destruct Hframe as (Hlsdev' & _).
  pose proof (startRum_session cfg1 w0 dev wa s wb Hcur Hdev Hsess)
    as (st1 & Hst1 & Hd1 & Hsid1 & Hsam1 & Hls1 & Hh1).
  set (w1 := exec (startRum cfg1) w0) in *.
  unfold outcome in Hinfo. rewrite (getSessionInfo_started w1 st1 Hst1) in Hinfo.
  simpl in Hinfo. injection Hinfo as <-.
  assert (Hs : s1 = s).
  { subst s1. simpl. rewrite Hsid1, Hsam1, <- Hha, <- Hlast.
    destruct s; reflexivity. }
  rewrite Hs in Hs1, Hparse. clear Hs.
  assert (Hcur' : current (exec shutdown w1) = None) by apply shutdown_stops.
  assert (Hls' : localStorage (exec shutdown w1) = localStorage w1).
  { pose proof (shutdown_run (calls w1) (localStorage w1) w1 (conj eq_refl eq_refl)) as H.
    unfold exec. destruct (shutdown w1) as [[[]|e] w'']; [|contradiction].
    apply H. }
  set (w' := set_host later (exec shutdown w1)).
  change (current w' = None) in Hcur'.
  change (localStorage w' = localStorage w1) in Hls'.
  change (getItemThrows (host w') = false) in Hget'.
  change (setItemThrows (host w') = false) in Hset'.
  assert (Hdev' : getOrCreateDeviceId w' = (Returned dev, w')).
  { apply getOrCreateDeviceId_stored; [exact Hget' | | exact Hdevne].
    rewrite Hls', Hls1. exact Hlsdev'. }
  destruct (loadOrCreateSession_live
              (nullish (cfg_sampleRate cfg2) DEFAULT_SAMPLE_RATE)
              (nullish (cfg_sessionTtlMs cfg2) DEFAULT_SESSION_TTL) w'
              (JSON_stringify s) s Hget' Hset')
    as (w3 & Hsess' & _); auto.
  { rewrite Hls', Hls1. exact Hlskey. }
  { change (clock later - sess_last s < nullish (cfg_sessionTtlMs cfg2) DEFAULT_SESSION_TTL).
    rewrite Hlast, Hha. exact Httl. }
  pose proof (startRum_session cfg2 w' dev w' _ w3 Hcur' Hdev' Hsess')
    as (st3 & Hst3 & Hd3 & Hsid3 & Hsam3 & _).
  unfold outcome. rewrite (getSessionInfo_started _ st3 Hst3). simpl.
  simpl in Hsid3, Hsam3. congruence.
Qed.

(** X26. The sample rate at its ends, on a first visit (no session stored)
    and with a [Math.random] that stays in [0, 1): a rate of 1 or more
    always gives a sampled instance, a rate of 0 or less never does. *)
Theorem sample_rate_extremes (cfg : RumConfig) (w0 : World) :
  current w0 = None -> localStorage w0 !! LS_SESSION_KEY = None ->
  (forall n, (0 <= random_at n)%Q /\ (random_at n < 1)%Q) ->
  let rate := nullish (cfg_sampleRate cfg) DEFAULT_SAMPLE_RATE in
  exists info,
    outcome getSessionInfo (exec (startRum cfg) w0) = Returned (Some info) /\
    ((1 <= rate)%Q -> si_sampled info = true) /\
    ((rate <= 0)%Q -> si_sampled info = false).
Proof.
  intros Hcur Hnone Hrand rate.
  destruct (returns_getOrCreateDeviceId w0) as (dev & wa & Hdev).
  pose proof (no_session_getOrCreateDeviceId w0 Hnone) as Hnone'.
  rewrite Hdev in Hnone'.
  destruct (loadOrCreateSession_absent rate
              (nullish (cfg_sessionTtlMs cfg) DEFAULT_SESSION_TTL) wa Hnone')
    as (s & wb & r & Hsess & Hsam).
  pose proof (startRum_session cfg w0 dev wa s wb Hcur Hdev Hsess)
    as (st & Hst & _ & _ & Hsampled & _).
  unfold outcome. rewrite (getSessionInfo_started _ st Hst).
  eexists. split; [reflexivity|]. simpl. rewrite Hsampled, Hsam.
  destruct (Hrand r) as (H0 & H1). split; intros Hrate.
  - apply Qltb_lt. eapply Qlt_le_trans; eauto.
  - unfold Qltb. apply negb_false_iff, Qle_bool_iff. eapply Qle_trans; eauto.
Qed.

(* ===================== The patched fetch across shutdown ===================== *)

Ltac patch_leaf :=
  match goal with
  | H : patchInvariant ?s ?k ?w |- patchInvariant ?s ?k _ =>
      let st := fresh "st" in
      let Hc := fresh "Hc" in
      let Hrest := fresh "Hrest" in
      destruct H as (st & Hc & Hrest);
      unfold patchInvariant, timesPatched in *; simpl;
      rewrite ?Hc; simpl; eexists; (split; [reflexivity|]); simpl;
      first [ exact Hrest
            | rewrite List.filter_app; simpl; rewrite app_nil_r; exact Hrest ]
  end.

Lemma perform_patched s k a : preserves (patchInvariant s k) (perform a).
Proof.
  destruct a; simpl;
    lazymatch goal with
    | |- preserves _ (bind (startRum _) _) => idtac
    | |- _ =>
        unfold pageHideSignal, dispatchEvent, runTimer, runHandler;
        autounfold with js js_emit;
        repeat pres_step; patch_leaf
    end.
  intros w Hinv. pose proof Hinv as (st & Hcur & _).
  unfold startRum, bind, get, ret. simpl. rewrite Hcur. exact Hinv.
Qed.

Lemma shutdown_patched k : preserves (fun w => timesPatched "fetch" w = k) shutdown.
Proof. unfold shutdown. autounfold with js. repeat pres_step; simpl; assumption. Qed.

Lemma patched_getOrCreateDeviceId k :
  preserves (fun w => timesPatched "fetch" w = k) getOrCreateDeviceId.
Proof. autounfold with js. repeat pres_step; assumption. Qed.

Lemma patched_loadOrCreateSession k rate ttl :
  preserves (fun w => timesPatched "fetch" w = k) (loadOrCreateSession rate ttl).
Proof. autounfold with js. repeat pres_step; assumption. Qed.

Ltac started_patch_leaf :=
  match goal with
  | H : patchedAfterStart ?c ?k ?w |- patchedAfterStart ?c ?k _ =>
      let s := fresh "s" in
      let Hv := fresh "Hv" in
      destruct H as (s & Hv); exists s; patch_leaf
  end.

Lemma startRum_patched cfg w0 :
  current w0 = None ->
  patchedAfterStart (nullish (cfg_captureFetch cfg) false) (timesPatched "fetch" w0)
    (exec (startRum cfg) w0).
Proof.
  intros Hcur. set (k0 := timesPatched "fetch" w0).
  set (capture := nullish (cfg_captureFetch cfg) false).
  assert (H : triple (eq w0) (startRum cfg)
                (fun _ => patchedAfterStart capture k0) (patchedAfterStart capture k0)).
  { unfold startRum. intros w <-. unfold bind at 1, get at 1. rewrite Hcur.
    apply triple_at.
    eapply triple_bind with (R := fun c w => w = w0 /\ captureFetch c = capture).
    { intros w <-. unfold applyDefaults, bind, get, ret. simpl. auto. }
    intros c.
    eapply triple_bind with
      (R := fun _ w => timesPatched "fetch" w = k0 /\ captureFetch c = capture).
    { apply triple_returns_any. intros w (-> & Hc).
      pose proof (triple_preserves_returns _ _ (patched_getOrCreateDeviceId k0)
                    returns_getOrCreateDeviceId w0 eq_refl) as Ht.
      destruct (getOrCreateDeviceId w0) as [[a|e] w']; tauto. }
    intros dev.
    eapply triple_bind with
      (R := fun _ w => timesPatched "fetch" w = k0 /\ captureFetch c = capture).
    { apply triple_returns_any. intros w (Hp & Hc).
      pose proof (triple_preserves_returns _ _
                    (patched_loadOrCreateSession k0 (sampleRate c) (sessionTtlMs c))
                    (returns_loadOrCreateSession _ _) w Hp) as Ht.
      destruct (loadOrCreateSession (sampleRate c) (sessionTtlMs c) w) as [[a|e] w'];
        tauto. }
    intros sess.
    eapply triple_bind with
      (R := fun _ w => patchInvariant (sess_sampled sess) k0 w /\ captureFetch c = capture).
    { apply triple_modify. intros w (Hk & Hc). split; [|exact Hc].
      eexists. split; [reflexivity|]. simpl. auto. }
    intros u.
    eapply triple_bind with (R := fun _ => patchedAfterStart capture k0).
    { apply triple_returns_any. unfold when.
      destruct (sess_sampled sess) eqn:Hs.
      - intros w (Hinv & Hc).
        assert (Ht : triple (patchInvariant true k0)
                       (setupLifecycle;;
                        (if captureErrors c then attachErrorHandlers else ret tt);;
                        (if captureFetch c then instrumentFetch else ret tt);;
                        (if captureXHR c then instrumentXHR else ret tt);;
                        (if captureResources c
                         then observeResources (maxResourceCount c) else ret tt);;
                        (if captureLongTasks c then observeLongTasks else ret tt);;
                        (if enableWebVitals c then attachWebVitals else ret tt))
                       (fun _ => patchInvariant true (k0 + if capture then 1 else 0))
                       (fun _ => False)).
        { eapply triple_bind with (R := fun _ => patchInvariant true k0).
          { apply triple_preserves_returns.
            - autounfold with js. repeat pres_step; patch_leaf.
            - autounfold with js. unfold activityEvents. repeat returns_step. }
          intros u1.
          eapply triple_bind with (R := fun _ => patchInvariant true k0).
          { apply triple_preserves_returns.
            - autounfold with js. repeat pres_step; patch_leaf.
            - autounfold with js. repeat returns_step. }
          intros u2.
          eapply triple_bind with
            (R := fun _ => patchInvariant true (k0 + if capture then 1 else 0)).
          { rewrite Hc. destruct capture.
            - unfold instrumentFetch. apply triple_modify.
              intros w' (st & Hst & Hsam & Hk).
              exists st. unfold timesPatched in *. simpl.
              rewrite List.filter_app, length_app. simpl.
              repeat split; auto; lia.
            - apply triple_ret. intros w' Hw'.
              replace (k0 + 0)%nat with k0 by lia. exact Hw'. }
          intros u3. apply triple_preserves_returns.
          - autounfold with js. repeat pres_step; patch_leaf.
          - autounfold with js. repeat returns_step. }
        specialize (Ht w Hinv).
        match goal with
        | |- match ?m with _ => _ end => destruct m as [[a|err] w']
        end; [|contradiction].
        exists true. exact Ht.
      - apply triple_ret. intros w (Hw & _). exists false. simpl.
        replace (k0 + 0)%nat with k0 by lia. exact Hw. }
    intros u'.
    match goal with |- triple ?P ?m _ _ => change (preserves P m) end.
    autounfold with js js_emit.
    repeat pres_step; started_patch_leaf. }
  unfold exec. specialize (H w0 eq_refl).
  destruct (startRum cfg w0) as [[a|e] w']; exact H.
Qed.

(** X27. [shutdown] does not restore [window.fetch].  A first [startRum] of
    a sampled session with [captureFetch] on wraps [fetch] once, and after
    [shutdown], whatever happened in between, the wrapper is still in
    place: an instance started later with [captureFetch] wraps the wrapper
    again. *)
Theorem fetch_stays_patched_after_shutdown (cfg : RumConfig) (actions : list Action)
    (w0 : World) :
  current w0 = None ->
  let w1 := exec (startRum cfg) w0 in
  exists info,
    outcome getSessionInfo w1 = Returned (Some info) /\
    timesPatched "fetch" (exec shutdown (execAll perform actions w1))
      = (timesPatched "fetch" w0 +
         if si_sampled info && nullish (cfg_captureFetch cfg) false then 1 else 0)%nat.
Proof.
  intros Hcur w1.
  destruct (startRum_patched cfg w0 Hcur) as (s & Hv). fold w1 in Hv.
  pose proof Hv as (st1 & Hst1 & Hs & _).
  unfold outcome. rewrite (getSessionInfo_started _ st1 Hst1).
  eexists. split; [reflexivity|]. simpl. rewrite Hs.
  apply (preserves_exec (fun w => timesPatched "fetch" w = _)); [apply shutdown_patched|].
  destruct (preserves_execAll _ perform actions (perform_patched s _) w1 Hv)
    as (st & _ & _ & Hk).
  exact Hk.
Qed.
(* ===================== The teardown signals ===================== *)

Lemma listenersFor_snoc evt (e : string * Handler) l :
  filter (fun x => x.1 = evt) (l ++ [e])
  = filter (fun x => x.1 = evt) l ++ (if decide (e.1 = evt) then [e] else []).
Proof.
  rewrite filter_app. f_equal.
Qed.

Ltac decide_events :=
  repeat match goal with
         | |- context [decide (?a = ?b)] =>
             destruct (decide (a = b)) as [?Heq|?Hne];
             [try discriminate | try congruence]
         end.

Ltac lifecycle_leaf :=
  match goal with
  | H : lifecycleListeners ?s ?u ?k ?w |- lifecycleListeners ?s ?u ?k _ =>
      let st := fresh "st" in
      let Hc := fresh "Hc" in
      let Hrest := fresh "Hrest" in
      destruct H as (st & Hc & Hrest);
      unfold lifecycleListeners, listenersFor in *; simpl;
      rewrite ?Hc; simpl; eexists; (split; [reflexivity|]); simpl;
      first [ exact Hrest
            | rewrite !listenersFor_snoc; simpl; decide_events;
              rewrite ?app_nil_r; exact Hrest ]
  end.

Lemma perform_lifecycle s u k a : preserves (lifecycleListeners s u k) (perform a).
Proof.
  destruct a; simpl;
    lazymatch goal with
    | |- preserves _ (bind (startRum _) _) => idtac
    | |- _ =>
        unfold pageHideSignal, dispatchEvent, runTimer, runHandler;
        autounfold with js js_emit;
        repeat pres_step; lifecycle_leaf
    end.
  intros w Hinv. pose proof Hinv as (st & Hcur & _).
  unfold startRum, bind, get, ret. simpl. rewrite Hcur. exact Hinv.
Qed.

Lemma listeners_getOrCreateDeviceId ls :
  preserves (fun w => listeners w = ls) getOrCreateDeviceId.
Proof. autounfold with js. repeat pres_step; assumption. Qed.

Lemma listeners_loadOrCreateSession ls rate ttl :
  preserves (fun w => listeners w = ls) (loadOrCreateSession rate ttl).
Proof. autounfold with js. repeat pres_step; assumption. Qed.

(** [setupLifecycle] registers the unload listener and one page-hide
    listener. *)
Lemma setupLifecycle_listeners k :
  triple (lifecycleListeners true [] k) setupLifecycle
    (fun _ => lifecycleListeners true [("beforeunload", OnUnload)] (k + 1))
    (fun _ => False).
Proof.
  unfold setupLifecycle.
  eapply triple_bind with
    (R := fun _ => lifecycleListeners true [("beforeunload", OnUnload)] k).
  { unfold addEventListener. apply triple_modify.
    intros w (st & Hc & Hs & Hu & Hv). exists st.
    unfold listenersFor in *. simpl. rewrite !listenersFor_snoc. simpl.
    decide_events. rewrite Hu, Hv, ?app_nil_r. auto. }
  intros u.
  eapply triple_bind with
    (R := fun _ => lifecycleListeners true [("beforeunload", OnUnload)] (k + 1)).
  { unfold addEventListener. apply triple_modify.
    intros w (st & Hc & Hs & Hu & Hv). exists st.
    unfold listenersFor in *. simpl. rewrite !listenersFor_snoc. simpl.
    decide_events. rewrite Hu, Hv, ?app_nil_r.
    replace (k + 1)%nat with (S k) by lia. rewrite <- repeat_cons. auto. }
  intros u'. apply triple_preserves_returns.
  - unfold activityEvents. cbn [forEach]. autounfold with js.
    repeat pres_step; lifecycle_leaf.
  - autounfold with js. unfold activityEvents. repeat returns_step.
Qed.

(** A first [startRum] registers the unload listener exactly when the
    session is sampled, and then one more page-hide listener. *)
Lemma startRum_lifecycle cfg w0 k0 :
  current w0 = None ->
  listenersFor "beforeunload" w0 = [] ->
  listenersFor "visibilitychange" w0
    = repeat ("visibilitychange", OnVisibilityChange) k0 ->
  exists s,
    lifecycleListeners s (if s then [("beforeunload", OnUnload)] else [])
      (k0 + if s then 1 else 0) (exec (startRum cfg) w0).
Proof.
  intros Hcur Hu0 Hv0.
  set (Post := fun w => exists s,
         lifecycleListeners s (if s then [("beforeunload", OnUnload)] else [])
           (k0 + if s then 1 else 0) w).
  assert (H : triple (eq w0) (startRum cfg) (fun _ => Post) Post).
  { unfold startRum. intros w <-. unfold bind at 1, get at 1. rewrite Hcur.
    apply triple_at.
    eapply triple_bind with (R := fun c w => w = w0).
    { intros w <-. unfold applyDefaults, bind, get, ret. simpl. auto. }
    intros c.
    eapply triple_bind with (R := fun _ w => listeners w = listeners w0).
    { apply triple_returns_any. intros w ->.
      apply (triple_preserves_returns _ _ (listeners_getOrCreateDeviceId (listeners w0))
               returns_getOrCreateDeviceId w0 eq_refl). }
    intros dev.
    eapply triple_bind with (R := fun _ w => listeners w = listeners w0).
    { apply triple_returns_any.
      apply (triple_preserves_returns _ _
               (listeners_loadOrCreateSession (listeners w0) (sampleRate c)
                  (sessionTtlMs c))
               (returns_loadOrCreateSession _ _)). }
    intros sess.
    eapply triple_bind with
      (R := fun _ => lifecycleListeners (sess_sampled sess) [] k0).
    { apply triple_modify. intros w Hl.
      eexists. split; [reflexivity|]. unfold listenersFor in *. simpl.
      rewrite Hl. auto. }
    intros u.
    eapply triple_bind with (R := fun _ => Post).
    { apply triple_returns_any. unfold when.
      destruct (sess_sampled sess) eqn:Hs.
      - eapply triple_conseq with
          (P' := lifecycleListeners true [] k0)
          (Q' := fun _ => lifecycleListeners true [("beforeunload", OnUnload)] (k0 + 1))
          (E' := fun _ => False);
          [|auto| intros ? ? ?; exists true; assumption | auto].
        eapply triple_bind; [apply setupLifecycle_listeners|].
        intros u'. apply triple_preserves_returns.
        + autounfold with js. repeat pres_step; lifecycle_leaf.
        + autounfold with js. repeat returns_step.
      - apply triple_ret. intros w Hw. exists false.
        replace (k0 + 0)%nat with k0 by lia. exact Hw. }
    intros u'.
    match goal with |- triple ?P ?m _ _ => change (preserves P m) end.
    autounfold with js js_emit.
    repeat pres_step;
      match goal with
      | H : Post ?w |- Post _ =>
          let s := fresh "s" in
          let Hv := fresh "Hv" in
          destruct H as (s & Hv); exists s; lifecycle_leaf
      end. }
  unfold exec. specialize (H w0 eq_refl).
  destruct (startRum cfg w0) as [[a|e] w']; exact H.
Qed.

(** What [refreshSessionActivity] does, in every case: it returns, logs
    [refreshWrites] and leaves the instance, the host and the listeners. *)
Lemma refreshSessionActivity_writes w :
  exists w',
    refreshSessionActivity w = (Returned tt, w') /\
    current w' = current w /\ host w' = host w /\
    calls w' = calls w ++ refreshWrites w.
Proof.
  unfold refreshSessionActivity, refreshWrites, localStorage_getItem,
    localStorage_setItem, log_call, now, bind, get, modify, try_catch, ret, throw.
  simpl.
  destruct (getItemThrows (host w)); simpl.
  { eexists. rewrite app_nil_r. eauto. }
  destruct (localStorage w !! LS_SESSION_KEY) as [raw|]; simpl.
  2: { eexists. rewrite app_nil_r. eauto. }
  destruct (truthy raw); simpl.
  2: { eexists. rewrite app_nil_r. eauto. }
  destruct (JSON_parse raw) as [[v|]|]; simpl.
  - destruct (setItemThrows (host w)); simpl; eexists; eauto.
  - eexists. rewrite app_nil_r. eauto.
  - eexists. rewrite app_nil_r. eauto.
Qed.

(** What a flush in beacon mode does, in every case. *)
Lemma flushQueue_beacon x st :
  current x = Some st ->
  exists x' st',
    flushQueue true x = (Returned tt, x') /\
    current x' = Some st' /\ queue st' = [] /\ host x' = host x /\
    localStorage x' = localStorage x /\
    calls x' = calls x ++ beaconFlushCalls st (host x).
Proof.
  intros Hcur. destruct (queue st) as [|e q] eqn:Hq.
  - exists x, st. rewrite flushQueue_noop by (intros; congruence).
    unfold beaconFlushCalls. rewrite Hq, app_nil_r. repeat split; auto.
  - eexists _, (set_queue [] 0 st).
    split; [apply (flushQueue_drains true x st Hcur); congruence|].
    unfold beaconFlushCalls. rewrite Hq. simpl. repeat split; reflexivity.
Qed.

(** The page-hide listeners, run on a hidden page: the first one flushes
    in beacon mode, the others find the queue empty. *)
Lemma pageHide_handlers k x st :
  current x = Some st -> visibilityHidden (host x) = true ->
  (k = 0%nat -> queue st = []) ->
  forEach (repeat ("visibilitychange", OnVisibilityChange) k)
    (fun e => try_catch (runHandler e.2 NoDetail) (ret tt)) x
  = (Returned tt, exec (flushQueue true) x).
Proof.
  revert x st. induction k as [|k IH]; intros x st Hcur Hhid Hq.
  - simpl. unfold exec. rewrite flushQueue_noop; [reflexivity|].
    intros st' Hst'. assert (st' = st) as -> by congruence. auto.
  - destruct (flushQueue_beacon x st Hcur)
      as (x' & st' & Hrun & Hcur' & Hq' & Hh' & _).
    cbn [repeat forEach]. unfold bind at 1, try_catch at 1. cbn [snd runHandler].
    unfold bind at 1, get at 1. rewrite Hhid, Hrun.
    rewrite (IH x' st' Hcur'); [|rewrite Hh'; exact Hhid | auto].
    unfold exec. rewrite Hrun. cbn [snd].
    rewrite flushQueue_noop; [reflexivity|].
    intros st'' Hst''. assert (st'' = st') as -> by congruence. exact Hq'.
Qed.

(** C7, as amended.  An instance is created by [startRum] on a window that
    holds no [beforeunload] listener and only page-hide listeners of the
    SDK for [visibilitychange] ([k0] of them, left by earlier instances);
    then anything happens short of [shutdown].  In the state reached:
    - a sampled instance has one unload listener, an unsampled one none,
      and the window holds one page-hide listener more when sampled;
    - the unload signal, for a sampled instance, runs
      [refreshSessionActivity] and then [flushQueue(true)]: the calls it
      logs are the session write of the refresh followed by the transport
      calls of the flush in beacon mode; for an unsampled instance it does
      nothing;
    - the page-hide signal hides the page and runs [flushQueue(true)] only:
      the calls it logs are the transport calls of the flush in beacon
      mode, and localStorage is untouched. *)
Theorem teardown_signals (cfg : RumConfig) (actions : list Action) (w0 : World)
    (k0 : nat) :
  current w0 = None ->
  listenersFor "beforeunload" w0 = [] ->
  listenersFor "visibilitychange" w0
    = repeat ("visibilitychange", OnVisibilityChange) k0 ->
  let w := execAll perform actions (exec (startRum cfg) w0) in
  let n := length (calls w) in
  let hidden := set_host (setHidden true (host w)) w in
  exists st,
    current w = Some st /\
    listenersFor "beforeunload" w
      = (if sampled st then [("beforeunload", OnUnload)] else []) /\
    listenersFor "visibilitychange" w
      = repeat ("visibilitychange", OnVisibilityChange)
          (k0 + if sampled st then 1 else 0) /\
    unloadSignal w
      = (Returned tt,
         if sampled st
         then exec (flushQueue true) (exec refreshSessionActivity w)
         else w) /\
    callsSince n (exec unloadSignal w)
      = (if sampled st then refreshWrites w ++ beaconFlushCalls st (host w) else []) /\
    pageHideSignal w = (Returned tt, exec (flushQueue true) hidden) /\
    callsSince n (exec pageHideSignal w) = beaconFlushCalls st (host w) /\
    localStorage (exec pageHideSignal w) = localStorage w.
Proof.
  intros Hcur0 Hu0 Hv0 w n hidden.
  destruct (startRum_lifecycle cfg w0 k0 Hcur0 Hu0 Hv0) as (s & Hstart).
  pose proof (preserves_execAll _ perform actions (perform_lifecycle s _ _) _ Hstart)
    as (st & Hcur & Hs & Hu & Hv).
  fold w in Hcur, Hu, Hv.
  destruct (lifetime_buffer false cfg actions w0 Hcur0 ltac:(discriminate))
    as (st0 & _ & (st' & Hcur' & Hsame & _ & _ & _ & Hquiet & _) & _).
  fold w in Hcur'. assert (st' = st) as -> by congruence.
  destruct Hsame as (_ & _ & Hsam & _).
  assert (Hempty : sampled st = false -> queue st = []).
  { intros Hf. apply Hquiet. congruence. }
  clear Hquiet Hsam Hcur' st0 Hstart.
  exists st. rewrite Hs. split; [exact Hcur|]. split; [exact Hu|]. split; [exact Hv|].
  (* the unload signal *)
  destruct (refreshSessionActivity_writes w) as (wr & Hr & Hcr & Hhr & Hcalls).
  rewrite Hcur in Hcr.
  destruct (flushQueue_beacon wr st Hcr) as (wf & stf & Hf & _ & _ & _ & _ & Hcf).
  assert (Hun1 : unloadSignal w
            = (Returned tt,
               if s then exec (flushQueue true) (exec refreshSessionActivity w)
               else w)).
  { unfold unloadSignal, dispatchEvent. unfold bind at 1, get at 1.
    fold (listenersFor "beforeunload" w). rewrite Hu.
    destruct s; cbn [forEach]; [|reflexivity].
    unfold exec. rewrite Hr. cbn [snd]. rewrite Hf. cbn [snd].
    unfold bind, try_catch, ret. cbn [snd runHandler]. unfold bind.
    rewrite Hr, Hf. reflexivity. }
  assert (Hun2 : callsSince n (exec unloadSignal w)
            = (if s then refreshWrites w ++ beaconFlushCalls st (host w) else [])).
  { unfold exec at 1. rewrite Hun1. cbn [snd]. unfold callsSince, n.
    destruct s; [|apply drop_all].
    unfold exec. rewrite Hr. cbn [snd]. rewrite Hf. cbn [snd].
    rewrite Hcf, Hcalls, Hhr, <- app_assoc. apply drop_calls_app. }
  clear wr Hr Hcr Hhr Hcalls wf stf Hf Hcf.
  split; [exact Hun1|]. split; [exact Hun2|].
  (* the page-hide signal *)
  assert (Hcurh : current hidden = Some st) by exact Hcur.
  assert (Hhide : pageHideSignal w = (Returned tt, exec (flushQueue true) hidden)).
  { unfold pageHideSignal, dispatchEvent, modify.
    unfold bind at 1. cbn [snd fst]. unfold bind at 1, get at 1.
    change (listeners (set_host (setHidden true (host w)) w)) with (listeners w).
    fold (listenersFor "visibilitychange" w). rewrite Hv.
    apply (pageHide_handlers _ hidden st Hcurh eq_refl).
    intros Hk. apply Hempty. destruct s; [lia | congruence]. }
  destruct (flushQueue_beacon hidden st Hcurh)
    as (wf & stf & Hf & _ & _ & _ & Hls & Hcf).
  split; [exact Hhide|].
  unfold exec. rewrite Hhide. cbn [snd]. unfold exec. rewrite Hf. cbn [snd].
  split; [|exact Hls].
  unfold callsSince, n. rewrite Hcf. apply drop_calls_app.
Qed.

End Properties.

(* ===================== Concrete runs ===================== *)

Lemma publicAPI_without_instance_witness :
  current freshWorld = None /\
  getSessionInfo freshWorld = (Returned None, freshWorld).
Proof.
  split; [reflexivity|].
  apply (publicAPI_without_instance (platform := demoPlatform) freshWorld eq_refl).
Defined.

(** C2, as stated, fails: on a browser whose [sendBeacon] raises, a flush in
    beacon mode goes on to call [fetch] with the batch, so two channels are
    tried for one flush. *)
Lemma flushQueue_beacon_exception_falls_back :
  let w := oneEventQueued beaconFailingHost in
  let new := callsSince (length (calls w))
               (exec (flushQueue true) w) in
  hasSendBeacon (host w) = true /\
  sendBeaconThrows (host w) = true /\
  map isSendBeacon new = [true; false] /\
  map isFetch new = [false; true] /\
  map (fun c => map ev_name (delivered c)) new = [[]; [Some "a"]].
Proof. vm_compute. repeat split. Qed.

Lemma flushQueue_beacon_mode_witness :
  exists w',
    flushQueue true (oneEventQueued demoHost)
      = (Returned tt, w') /\
    map isFetch (callsSince (length (calls (oneEventQueued demoHost))) w') = [false].
Proof.
  assert (Hcur : exists st, current (oneEventQueued demoHost) = Some st /\ queue st <> []).
  { eexists. split; [vm_compute; reflexivity | discriminate]. }
  destruct Hcur as (st & Hcur & Hq).
  destruct (flushQueue_beacon_mode
              (oneEventQueued demoHost) st Hcur Hq eq_refl)
    as (w' & Hrun & _ & _ & Hnew).
  exists w'. split; [exact Hrun|]. rewrite Hnew. reflexivity.
Defined.

Lemma beforeSend_exception_escapes_witness :
  outcome (trackEvent (platform := demoPlatform) "a" None) startedWithThrowingHook
    = Thrown CallbackError.
Proof.
  assert (Hcur : exists st, current startedWithThrowingHook = Some st /\
                   sampled st = true /\ beforeSend (config st) = Some throwingHook).
  { eexists. split; [vm_compute; reflexivity | split; reflexivity]. }
  destruct Hcur as (st & Hcur & Hs & Hh).
  destruct (beforeSend_exception_escapes (platform := demoPlatform)
              startedWithThrowingHook st throwingHook Hcur Hs Hh (fun _ => eq_refl))
    as (_ & Hev & _ & _).
  exact (Hev "a" None).
Defined.

(** C7, as stated, fails on page hide: ten milliseconds after the session
    was stored, the page-hide signal makes one call, the beacon; it makes no
    [setItem], and the stored session still carries the old timestamp. *)
Lemma pageHide_does_not_refresh_session :
  let w := withHost laterHost (oneEventQueued demoHost) in
  let w' := exec (pageHideSignal (platform := demoPlatform)) w in
  map isSendBeacon (callsSince (length (calls w)) w') = [true] /\
  localStorage w' !! LS_SESSION_KEY = localStorage w !! LS_SESSION_KEY /\
  (v ← (raw ← localStorage w' !! LS_SESSION_KEY;
        match demoParse raw with Ret (PSession v) => Some v | _ => None end);
   Some (sess_last v, clock (host w'))) = Some (50, 60).
Proof. vm_compute. repeat split. Qed.

Lemma teardown_signals_witness :
  let w := execAll (perform (platform := demoPlatform)) [DoTrackEvent "a" None]
             (exec (startRum (platform := demoPlatform) (configWith 1 None None None))
                stoppedWorld) in
  length (listenersFor "visibilitychange" w) = 2%nat /\
  map isSendBeacon
    (callsSince (length (calls w)) (exec (unloadSignal (platform := demoPlatform)) w))
    = [false; true] /\
  map isSendBeacon
    (callsSince (length (calls w)) (exec (pageHideSignal (platform := demoPlatform)) w))
    = [true].
Proof.
  intros w.
  assert (H0 : current stoppedWorld = None) by (vm_compute; reflexivity).
  assert (Hu0 : listenersFor "beforeunload" stoppedWorld = [])
    by (vm_compute; reflexivity).
  assert (Hv0 : listenersFor "visibilitychange" stoppedWorld
                = repeat ("visibilitychange", OnVisibilityChange) 1)
    by (vm_compute; reflexivity).
  destruct (teardown_signals (platform := demoPlatform) (configWith 1 None None None)
              [DoTrackEvent "a" None] stoppedWorld 1 H0 Hu0 Hv0)
    as (st & Hcur & _ & Hv & _ & Hun & _ & Hhide & _).
  fold w in Hcur, Hv, Hun, Hhide.
  assert (Hst : current w = Some st /\ sampled st = true).
  { split; [exact Hcur|]. vm_compute in Hcur. injection Hcur as <-. reflexivity. }
  destruct Hst as (_ & Hs). rewrite Hs in Hv, Hun.
  rewrite Hv, Hun, Hhide. clear Hv Hun Hhide.
  vm_compute in Hcur. injection Hcur as <-.
  vm_compute. repeat split.
Defined.



Lemma demo_random_below_one (n : nat) : (random_at (Platform := demoPlatform) n < 1)%Q.
Proof.
  simpl. unfold Qlt. simpl. rewrite Z2Pos.id by lia. lia.
Qed.


Lemma enqueue_within_byte_cap_witness :
  exists st',
    current (execAll (enqueue (platform := demoPlatform))
               (transported debugRun ++ transported debugRun)%list
               (oneEventQueued demoHost)) = Some st' /\
    queueBytes st' <= maxQueueBytes (config st').
Proof.
  assert (Hcur : exists st, current (oneEventQueued demoHost) = Some st /\
                   0 <= maxQueueBytes (config st) /\
                   queueBytes st = bufferedBytes (platform := demoPlatform) (queue st) /\
                   queueBytes st <= maxQueueBytes (config st)).
  { eexists. split; [vm_compute; reflexivity|].
    split; [vm_compute; discriminate|].
    split; [vm_compute; reflexivity | vm_compute; discriminate]. }
  destruct Hcur as (st & Hcur & Hcap & Hsum & Hle).
  destruct (enqueue_within_byte_cap (platform := demoPlatform)
              (oneEventQueued demoHost) st Hcur Hcap Hsum Hle) as (_ & Hall & _).
  destruct (Hall (transported debugRun ++ transported debugRun)%list)
    as (st' & Hcur' & _ & _ & Hle').
  exists st'. split; assumption.
Defined.

Lemma batch_of_two_flushes_once_witness :
  let w1 := exec (startRum (platform := demoPlatform) (configWith 1 (Some 2) None None))
              freshWorld in
  let w2 := exec (trackEvent (platform := demoPlatform) "a" None) w1 in
  let w3 := exec (trackEvent (platform := demoPlatform) "b" None) w2 in
  transports w2 = [] /\ length (transports w3) = 1%nat.
Proof.
  intros w1 w2 w3.
  destruct (batch_of_two_flushes_once (platform := demoPlatform) freshWorld
              eq_refl eq_refl eq_refl eq_refl demo_random_below_one)
    as (_ & _ & Hnone & st3 & request & ea & eb & Hcalls & Hfetch & _).
  { intros ea Ha. vm_compute in Ha. injection Ha as <-.
    vm_compute. discriminate. }
  { intros ea eb Ha Hb. vm_compute in Ha, Hb. injection Ha as <-. injection Hb as <-.
    vm_compute. discriminate. }
  fold w1 w2 w3 in Hnone, Hcalls.
  split; [exact Hnone|].
  unfold transports in *. rewrite Hcalls, List.filter_app, Hnone.
  clear Hcalls Hnone. clearbody w1 w2 w3.
  cbn [List.filter app]. rewrite (isFetch_isTransport request Hfetch). reflexivity.
Defined.

(* ===================== Examples for the further properties ===================== *)

Lemma deviceId_stable_witness :
  exists d w1,
    getOrCreateDeviceId (platform := demoPlatform) freshWorld = (Returned d, w1) /\
    localStorage w1 !! LS_DEVICE_KEY = Some d /\
    getOrCreateDeviceId (platform := demoPlatform) w1 = (Returned d, w1).
Proof.
  apply (deviceId_stable (platform := demoPlatform) freshWorld);
    [reflexivity | reflexivity | intros n; simpl; discriminate].
Defined.

Lemma deviceId_storage_failure_witness :
  exists i w1,
    getOrCreateDeviceId (platform := demoPlatform) (withHost storageFailingHost freshWorld)
      = (Returned (uuid_at (Platform := demoPlatform) i), w1) /\
    (uuidCalls (withHost storageFailingHost freshWorld) <= i < uuidCalls w1)%nat /\
    localStorage w1 = localStorage (withHost storageFailingHost freshWorld).
Proof.
  apply (deviceId_storage_failure (platform := demoPlatform)
           (withHost storageFailingHost freshWorld)).
  left. reflexivity.
Defined.

Lemma session_survives_reload_witness :
  exists s' w2,
    loadOrCreateSession (platform := demoPlatform) 0 20
      (set_host laterHost
         (snd (loadOrCreateSession (platform := demoPlatform) 1 1800000 freshWorld)))
      = (Returned s', w2) /\
    sess_id s' = "uuid-" /\ sess_sampled s' = true /\ sess_last s' = 60.
Proof.
  destruct (session_survives_reload (platform := demoPlatform) 1 0 1800000 20
              freshWorld
              (snd (loadOrCreateSession (platform := demoPlatform) 1 1800000 freshWorld))
              {| sess_id := "uuid-"; sess_sampled := true; sess_last := 50 |}
              laterHost)
    as (s' & w2 & Hrun & Hid & Hs & Hl & _);
    [reflexivity | reflexivity | reflexivity | reflexivity | reflexivity
    | reflexivity | discriminate | reflexivity |].
  exists s', w2.
  split; [exact Hrun|]. split; [exact Hid|]. split; [exact Hs | exact Hl].
Defined.

Lemma activity_extends_session_witness :
  exists w2,
    loadOrCreateSession (platform := demoPlatform) 1 20
      (set_host laterHost
         (exec (refreshSessionActivity (platform := demoPlatform)) returningWorld))
      = (Returned {| sess_id := "old"; sess_sampled := true; sess_last := 60 |}, w2).
Proof.
  apply (activity_extends_session (platform := demoPlatform) 1 20 returningWorld
           (demoStringify staleSession) staleSession laterHost);
    [reflexivity | reflexivity | reflexivity | discriminate | reflexivity
    | reflexivity | reflexivity | reflexivity | discriminate | reflexivity].
Defined.

Lemma queue_bounds_over_lifetime_witness :
  exists st,
    current (execAll (perform (platform := demoPlatform)) shortSession
               (exec (startRum (platform := demoPlatform)
                        (configWith 1 (Some 2) (Some 1000) None)) freshWorld))
      = Some st /\
    (bufferedBytes (platform := demoPlatform) (queue st) <= 1000) /\
    Z.of_nat (length (queue st)) < 2.
Proof.
  destruct (queue_bounds_over_lifetime (platform := demoPlatform)
              (configWith 1 (Some 2) (Some 1000) None) shortSession freshWorld eq_refl)
    as (st & Hst & _ & Hcap & Hlen).
  exists st. split; [exact Hst|]. split; [apply Hcap; discriminate | exact Hlen].
Defined.

Lemma requests_are_bounded_batches_witness :
  Forall (fun c => forall p, payloadOf c = Some p ->
            p_events p <> [] /\ Z.of_nat (length (p_events p)) <= 2)
    (callsSince 0
       (execAll (perform (platform := demoPlatform)) shortSession
          (exec (startRum (platform := demoPlatform)
                   (configWith 1 (Some 2) None None)) freshWorld))).
Proof.
  exact (requests_are_bounded_batches (platform := demoPlatform)
           (configWith 1 (Some 2) None None) shortSession freshWorld eq_refl).
Defined.

Lemma session_info_stable_witness :
  exists info,
    outcome getSessionInfo
      (exec (startRum (platform := demoPlatform) (configWith 1 (Some 2) None None))
         freshWorld) = Returned (Some info) /\
    outcome getSessionInfo
      (execAll (perform (platform := demoPlatform)) shortSession
         (exec (startRum (platform := demoPlatform) (configWith 1 (Some 2) None None))
            freshWorld)) = Returned (Some info).
Proof.
  exact (session_info_stable (platform := demoPlatform)
           (configWith 1 (Some 2) None None) shortSession freshWorld eq_refl).
Defined.

Lemma requests_carry_instance_ids_witness :
  exists info st,
    outcome getSessionInfo debugRun = Returned (Some info) /\
    current debugRun = Some st /\
    Forall (fun c => forall p, payloadOf c = Some p ->
              p_sessionId p = si_sessionId info /\ p_deviceId p = si_deviceId info)
      (callsSince 0 debugRun).
Proof.
  destruct (requests_carry_instance_ids (platform := demoPlatform)
              (configWith 1 None None (Some dropDebugHook))
              [DoTrackEvent "a" None; DoTrackEvent "debug_x" None;
               DoTrackEvent "b" None; DoFlush]
              freshWorld eq_refl)
    as (info & st & Hinfo & Hst & _ & Hcalls).
  { intros hook Hhook. injection Hhook as <-. intros e e' He.
    unfold dropDebugHook in He.
    destruct (ev_type e); try (injection He as <-; split; reflexivity).
    destruct (ev_name e) as [nm|]; [|injection He as <-; split; reflexivity].
    destruct (String.prefix "debug_" nm); [discriminate|].
    injection He as <-. split; reflexivity. }
  exists info, st. split; [exact Hinfo|]. split; [exact Hst|].
  eapply Forall_impl; [exact Hcalls|].
  intros c Hc p Hp. destruct (Hc p Hp) as (H1 & H2 & _). split; assumption.
Defined.

Lemma unsampled_session_is_inert_witness :
  exists st,
    current (execAll (perform (platform := demoPlatform)) shortSession
               (exec (startRum (platform := demoPlatform) (configWith 0 None None None))
                  freshWorld)) = Some st /\
    queue st = [] /\ seq st = 0.
Proof.
  destruct (unsampled_session_is_inert (platform := demoPlatform)
              (configWith 0 None None None) shortSession freshWorld
              {| si_sessionId := "uuid-x"; si_deviceId := "uuid-"; si_sampled := false |}
              eq_refl eq_refl eq_refl)
    as (st & Hst & Hq & _ & Hseq & _).
  exists st. split; [exact Hst|]. split; [exact Hq | exact Hseq].
Defined.

Lemma flush_failure_loses_events_witness :
  exists st',
    current (exec (flushQueue true) (withHost offlineHost (oneEventQueued demoHost)))
      = Some st' /\
    queue st' = [] /\
    transported (exec (flushQueue true) (withHost offlineHost (oneEventQueued demoHost)))
      = transported (withHost offlineHost (oneEventQueued demoHost)).
Proof.
  assert (Hcur : exists st,
            current (withHost offlineHost (oneEventQueued demoHost)) = Some st).
  { eexists. vm_compute. reflexivity. }
  destruct Hcur as (st & Hcur).
  destruct (flush_failure_loses_events true
              (withHost offlineHost (oneEventQueued demoHost)) st Hcur eq_refl
              (fun _ => eq_refl))
    as (st' & _ & Hst' & Hq & _ & Htr).
  exists st'. split; [exact Hst'|]. split; [exact Hq | exact Htr].
Defined.

Lemma identify_reaches_next_event_witness :
  exists e w2 usr,
    trackEvent (platform := demoPlatform) "checkout" None
      (exec (identify "u1" (Some {[ "plan" := "pro" ]})) startedWorld)
      = dispatch (platform := demoPlatform) e w2 /\
    ctx_user (context e) = Some usr /\
    usr !! "id" = Some "u1" /\ usr !! "plan" = Some "pro".
Proof.
  assert (Hcur : exists st, current startedWorld = Some st /\ sampled st = true).
  { eexists. split; [vm_compute; reflexivity | reflexivity]. }
  destruct Hcur as (st & Hcur & Hs).
  destruct (identify_reaches_next_event (platform := demoPlatform) "u1"
              (Some {[ "plan" := "pro" ]}) "checkout" None startedWorld st Hcur Hs)
    as (e & w2 & usr & Hrun & _ & Hu & Hid & Hk).
  exists e, w2, usr. split; [exact Hrun|]. split; [exact Hu|].
  split; [exact Hid|]. rewrite (Hk "plan") by discriminate. reflexivity.
Defined.

Lemma pageView_extra_over_context_witness :
  exists e w2 st2,
    trackPageView (platform := demoPlatform) (Some {[ "tab" := "2" ]}) None
      (exec (setContext (Some {[ "tab" := "1" ]})) startedWorld)
      = (dispatch (platform := demoPlatform) e;;
         modify (set_hasSentInitialPV true))%js w2 /\
    (m ← extra (context e); m !! "tab") = Some "2" /\
    current w2 = Some st2 /\ pageCtxExtra st2 !! "tab" = Some "1".
Proof.
  assert (Hcur : exists st, current startedWorld = Some st /\ sampled st = true /\
                   pageCtxExtra st = ∅).
  { eexists. split; [vm_compute; reflexivity | split; reflexivity]. }
  destruct Hcur as (st & Hcur & Hs & Hx).
  destruct (pageView_extra_over_context (platform := demoPlatform)
              (Some {[ "tab" := "1" ]}) {[ "tab" := "2" ]} None startedWorld st Hcur Hs)
    as (e & w2 & st2 & Hrun & He & Hst2 & Hctx).
  exists e, w2, st2. split; [exact Hrun|].
  split; [rewrite He; simpl; apply lookup_union_Some_l, lookup_singleton_eq|].
  split; [exact Hst2|].
  rewrite Hctx. simpl. apply lookup_union_Some_l, lookup_singleton_eq.
Defined.

Lemma pending_normalizer_outlives_restart_witness :
  normalizerIs (Some templateNormalizer)
    (exec (startRum (platform := demoPlatform) (configWith 1 None None None))
       (exec shutdown
          (execAll (perform (platform := demoPlatform)) shortSession
             (exec (startRum (platform := demoPlatform) (configWith 1 None None None))
                (exec (setPathNormalizer templateNormalizer) freshWorld))))).
Proof.
  exact (proj2 (pending_normalizer_outlives_restart (platform := demoPlatform)
                  templateNormalizer (configWith 1 None None None)
                  (configWith 1 None None None) shortSession freshWorld
                  eq_refl eq_refl eq_refl)).
Defined.

Lemma running_normalizer_lost_on_restart_witness :
  normalizerIs None
    (exec (startRum (platform := demoPlatform) (configWith 1 None None None))
       (exec shutdown (exec (setPathNormalizer templateNormalizer) startedWorld))).
Proof.
  assert (Hcur : exists st, current startedWorld = Some st).
  { eexists. vm_compute. reflexivity. }
  destruct Hcur as (st & Hcur).
  exact (proj2 (running_normalizer_lost_on_restart (platform := demoPlatform)
                  templateNormalizer (configWith 1 None None None) startedWorld st
                  Hcur eq_refl)).
Defined.

Lemma initial_view_at_most_once_witness :
  exists st,
    current (execAll (perform (platform := demoPlatform))
               [TimerFires 3; TimerFires 4; TimerFires 4; TimerFires 3; DoFlush]
               (exec (startRum (platform := demoPlatform) (configWith 1 None None None))
                  freshWorld)) = Some st /\
    seq st = 1.
Proof.
  destruct (initial_view_at_most_once (platform := demoPlatform)
              (configWith 1 None None None)
              [TimerFires 3; TimerFires 4; TimerFires 4; TimerFires 3; DoFlush]
              freshWorld eq_refl eq_refl)
    as (st & Hst & Hseq);
    [intros hook Hhook; discriminate Hhook | reflexivity |].
  exists st. split; [exact Hst|].
  rewrite Hseq. vm_compute. reflexivity.
Defined.

Lemma visibility_listener_outlives_shutdown_witness :
  exists info,
    outcome getSessionInfo startedWorld = Returned (Some info) /\
    visibilityListeners
      (exec shutdown (execAll (perform (platform := demoPlatform)) shortSession startedWorld))
    = (visibilityListeners freshWorld + if si_sampled info then 1 else 0)%nat.
Proof.
  exact (visibility_listener_outlives_shutdown (platform := demoPlatform)
           (configWith 1 None None None) shortSession freshWorld eq_refl).
Defined.

Lemma uuid_fallback_shape_witness :
  exists u,
    outcome (uuid_impl (platform := demoPlatform) (Some oldCrypto)) freshWorld
      = Returned u /\
    isUuidV4 u = true /\ String.length u = 36%nat.
Proof.
  destruct (uuid_fallback_shape (platform := demoPlatform) (Some oldCrypto) freshWorld
              eq_refl)
    as (u & Hrun & Hshape & Hlen).
  { intros n. split; unfold Qle, Qlt; simpl; [lia|].
    rewrite Z2Pos.id by lia. lia. }
  exists u. unfold outcome. rewrite Hrun. auto.
Defined.

Lemma uuid_without_crypto_is_constant_witness :
  outcome (uuid_impl (platform := demoPlatform) None) freshWorld
    = Returned "00000000-0000-4000-8000-000000000000".
Proof.
  apply (uuid_without_crypto_is_constant (platform := demoPlatform) None freshWorld
           eq_refl eq_refl).
  intros n. split; unfold Qle, Qlt; simpl; [lia|].
  rewrite Z2Pos.id by lia. lia.
Defined.

Lemma network_event_swallows_exceptions_witness :
  exists st,
    current capturingWithThrowingHook = Some st /\
    maybeNetworkEvent (platform := demoPlatform) demoOriginAndPath demoToUpperCase
      demoFields (XhrArgs (Some "get") (Some "/api")) None 40 capturingWithThrowingHook
    = (Returned tt,
       set_current (Some (set_seq (seq st + 1) st)) capturingWithThrowingHook).
Proof.
  assert (Hcur : exists st,
            current capturingWithThrowingHook = Some st /\ sampled st = true /\
            captureFetch (config st) || captureXHR (config st) = true /\
            beforeSend (config st) = Some throwingHook).
  { eexists. split; [vm_compute; reflexivity | repeat split]. }
  destruct Hcur as (st & Hcur & Hs & Hcap & Hbs).
  exists st. split; [exact Hcur|].
  exact (network_event_swallows_exceptions (platform := demoPlatform)
           demoOriginAndPath demoToUpperCase demoFields
           capturingWithThrowingHook st throwingHook
           (XhrArgs (Some "get") (Some "/api")) None 40
           Hcur Hs Hcap Hbs (fun _ => eq_refl)).
Defined.

Lemma route_template_is_absolute_witness :
  outcome (computeNormalizedPath "/products/42") routedWorld
    = Returned "/products/:id".
Proof.
  assert (Hn : normalizerIs (Some (fun p => Ret (routeTemplate demoMatchRoutes p)))
                 routedWorld).
  { eexists. split; [vm_compute; reflexivity | reflexivity]. }
  destruct (route_template_is_absolute demoMatchRoutes "/products/42" routedWorld Hn)
    as (Hrun & _); [right; reflexivity|].
  unfold outcome. rewrite Hrun. reflexivity.
Defined.

Lemma restart_resumes_session_witness :
  outcome getSessionInfo
    (exec (startRum (platform := demoPlatform) (configWith 0 None None None))
       (set_host laterHost (exec shutdown startedWorld)))
  = Returned (Some {| si_sessionId := "uuid-x"; si_deviceId := "uuid-";
                      si_sampled := true |}).
Proof.
  apply (restart_resumes_session (platform := demoPlatform)
           (configWith 1 None None None) (configWith 0 None None None) freshWorld
           laterHost
           {| si_sessionId := "uuid-x"; si_deviceId := "uuid-"; si_sampled := true |});
    [ reflexivity | reflexivity | reflexivity | reflexivity | reflexivity
    | intros n; simpl; discriminate
    | vm_compute; reflexivity
    | vm_compute; reflexivity
    | vm_compute; discriminate
    | vm_compute; reflexivity ].
Defined.

Lemma sample_rate_extremes_witness :
  exists info,
    outcome getSessionInfo startedWorld = Returned (Some info) /\
    si_sampled info = true.
Proof.
  destruct (sample_rate_extremes (platform := demoPlatform)
              (configWith 1 None None None) freshWorld eq_refl eq_refl)
    as (info & Hrun & Hone & _).
  { intros n. split; unfold Qle, Qlt; simpl; [lia|].
    rewrite Z2Pos.id by lia. lia. }
  exists info. split; [exact Hrun|]. apply Hone. unfold Qle. simpl. lia.
Defined.

Lemma fetch_stays_patched_after_shutdown_witness :
  exists info,
    outcome getSessionInfo capturingWithThrowingHook = Returned (Some info) /\
    timesPatched "fetch"
      (exec shutdown
         (execAll (perform (platform := demoPlatform)) shortSession
            capturingWithThrowingHook))
    = (timesPatched "fetch" freshWorld +
       if si_sampled info && nullish (cfg_captureFetch capturingConfig) false
       then 1 else 0)%nat.
Proof.
  exact (fetch_stays_patched_after_shutdown (platform := demoPlatform)
           capturingConfig shortSession freshWorld eq_refl).
Defined.
